(** * Veilo client: backend-availability resilience layer

    A shallow embedding of the TypeScript sources

    - [src/utils/emergencyApiHandler.ts]  (HTML detector, emergency request,
      emergency store),
    - the API service ([apiRequest], [postsService]),
    - the backend health service ([checkHealth], [updateHealthStatus]),
    - the backend connection manager ([findHealthyBackend],
      [getConnectionStats], [getConnectionHistory]),

    together with the properties the design document states about them.

    Conventions of the model.

    - A JavaScript string is the list of its UTF-16 code units ([jsstring]).
    - [fetch], [Date.now], [toast], [localStorage] and the shared
      [API_CONFIG] object are effects on a [World]; asynchronous functions
      are run to completion one at a time (no interleaving at [await]).
    - [console.log] / [console.error] output is not observable by any
      property below and is left out.
    - [JSON.parse], [JSON.stringify] and [Date.prototype.toISOString] are
      platform functions: the program is parametrised over them, and a
      concrete JSON reader / writer is provided to run the program. *)

From Stdlib Require Import ZArith QArith Qround Lia Ascii String.
From stdpp Require Import base option list strings gmap pretty.

Set Warnings "-register-all".

Local Open Scope Z_scope.
Local Open Scope list_scope.

(* ===================================================================== *)
(** * JavaScript strings *)
(* ===================================================================== *)

Module JS.

(** A string value: its UTF-16 code units, in order. *)
Definition jsstring : Type := list N.

(** A source-code literal (all literals of the program are ASCII). *)
Fixpoint lit (s : string) : jsstring :=
  match s with
  | EmptyString => []
  | String c s' => N_of_ascii c :: lit s'
  end.
Arguments lit s%_string : simpl never.

(** Decimal rendering of an integer-valued number, as in a template
    literal [`${n}`] (for magnitudes below 10^21, which covers times and
    HTTP statuses). *)
Definition num_to_string (z : Z) : jsstring := lit (pretty z).
Arguments num_to_string : simpl never.

(** [s.startsWith(p)] *)
Fixpoint startsWith (s p : jsstring) {struct p} : bool :=
  match p with
  | [] => true
  | c :: p' =>
      match s with
      | [] => false
      | d :: s' => (c =? d)%N && startsWith s' p'
      end
  end.

(** [s.includes(p)] *)
Fixpoint includes (s p : jsstring) : bool :=
  startsWith s p ||
  match s with
  | [] => false
  | _ :: s' => includes s' p
  end.

(** [s.endsWith(p)] *)
Definition endsWith (s p : jsstring) : bool :=
  startsWith (rev s) (rev p).

(** White space and line terminators removed by [String.prototype.trim]:
    TAB, LF, VT, FF, CR, SP, NBSP, U+1680, U+2000..U+200A, LS, PS,
    U+202F, U+205F, U+3000 and the BOM U+FEFF. *)
Definition is_space (c : N) : bool :=
  ((9 <=? c) && (c <=? 13) || (c =? 32) || (c =? 160) || (c =? 5760)
   || (8192 <=? c) && (c <=? 8202) || (c =? 8232) || (c =? 8233)
   || (c =? 8239) || (c =? 8287) || (c =? 12288) || (c =? 65279))%N.

Fixpoint trimStart (s : jsstring) : jsstring :=
  match s with
  | [] => []
  | c :: s' => if is_space c then trimStart s' else s
  end.

Definition trimEnd (s : jsstring) : jsstring := rev (trimStart (rev s)).

(** [s.trim()] *)
Definition trim (s : jsstring) : jsstring := trimEnd (trimStart s).

(** Truthiness of a string: only the empty string is falsy. *)
Definition nonempty (s : jsstring) : bool :=
  match s with [] => false | _ :: _ => true end.

End JS.
Export JS.

(* ===================================================================== *)
(** * JSON values and the JSON grammar *)
(* ===================================================================== *)

Module Json.

(** JSON values.  A number literal denotes exactly [m * 10^e]; an object
    is its list of members in order. *)
Inductive json : Type :=
  | JNull
  | JBool (b : bool)
  | JNumber (m e : Z)
  | JString (s : jsstring)
  | JArray (items : list json)
  | JObject (members : list (jsstring * json)).

(** [o[k]] on a parsed value: the last member named [k] wins, as
    [JSON.parse] keeps the last duplicate. *)
Fixpoint assoc_last (k : jsstring) (ms : list (jsstring * json)) : option json :=
  match ms with
  | [] => None
  | (k', v) :: ms' =>
      match assoc_last k ms' with
      | Some w => Some w
      | None => if decide (k' = k) then Some v else None
      end
  end.

(** [data?.k]: [undefined] (here [None]) when [data] is [null] or has no
    such property.  Own properties of strings and arrays ([length], indices)
    are never named [message], [error] or [data], the only keys read. *)
Definition get_prop (data : json) (k : jsstring) : option json :=
  match data with
  | JObject ms => assoc_last k ms
  | _ => None
  end.

(** Truthiness. *)
Definition truthy (v : json) : bool :=
  match v with
  | JNull => false
  | JBool b => b
  | JNumber m _ => negb (m =? 0)
  | JString s => nonempty s
  | JArray _ => true
  | JObject _ => true
  end.

(** [a || b] where [a] may be [undefined]. *)
Definition or_else (a : option json) (b : option json) : option json :=
  match a with
  | Some v => if truthy v then a else b
  | None => b
  end.

(** ** Reader for the JSON grammar (ECMA-404)

    [ws] tells whether insignificant white space is permitted between
    tokens: [JSON.parse] permits it, minified text has none. *)

Definition json_space (c : N) : bool :=
  ((c =? 9) || (c =? 10) || (c =? 13) || (c =? 32))%N.

Fixpoint drop_spaces (s : jsstring) : jsstring :=
  match s with
  | [] => []
  | c :: s' => if json_space c then drop_spaces s' else s
  end.

Definition skip (ws : bool) (s : jsstring) : jsstring :=
  if ws then drop_spaces s else s.

Definition is_digit (c : N) : bool := ((48 <=? c) && (c <=? 57))%N.

Definition hex_value (c : N) : option N :=
  if is_digit c then Some (c - 48)%N
  else if ((65 <=? c) && (c <=? 70))%N then Some (c - 55)%N
  else if ((97 <=? c) && (c <=? 102))%N then Some (c - 87)%N
  else None.

(** The character denoted by a one-letter escape. *)
Definition unescape (c : N) : option N :=
  if (c =? 34)%N then Some 34%N        (* quotation mark *)
  else if (c =? 92)%N then Some 92%N   (* reverse solidus *)
  else if (c =? 47)%N then Some 47%N   (* solidus *)
  else if (c =? 98)%N then Some 8%N    (* b *)
  else if (c =? 102)%N then Some 12%N  (* f *)
  else if (c =? 110)%N then Some 10%N  (* n *)
  else if (c =? 114)%N then Some 13%N  (* r *)
  else if (c =? 116)%N then Some 9%N   (* t *)
  else None.

(** The characters of a string token after its opening quotation mark;
    [acc] holds the characters read so far, most recent first. *)
Fixpoint read_chars (s : jsstring) (acc : jsstring) : option (jsstring * jsstring) :=
  match s with
  | [] => None
  | c :: r =>
      if (c =? 34)%N then Some (rev acc, r)
      else if (c =? 92)%N then
        match r with
        | [] => None
        | e :: r1 =>
            if (e =? 117)%N then
              match r1 with
              | h1 :: h2 :: h3 :: h4 :: r2 =>
                  match hex_value h1, hex_value h2, hex_value h3, hex_value h4 with
                  | Some a, Some b, Some c', Some d =>
                      read_chars r2 ((4096 * a + 256 * b + 16 * c' + d)%N :: acc)
                  | _, _, _, _ => None
                  end
              | _ => None
              end
            else
              match unescape e with
              | Some x => read_chars r1 (x :: acc)
              | None => None
              end
        end
      else if (c <? 32)%N then None
      else read_chars r (c :: acc)
  end.

(** A run of decimal digits: their value on top of [acc], how many there
    were, and the rest of the input. *)
Fixpoint read_digits (s : jsstring) (acc : Z) (n : nat) : Z * nat * jsstring :=
  match s with
  | c :: r =>
      if is_digit c then read_digits r (10 * acc + Z.of_N (c - 48)) (S n)
      else (acc, n, s)
  | [] => (acc, n, s)
  end.

(** int: a single zero, or a non-zero digit followed by digits. *)
Definition read_int (s : jsstring) : option (Z * jsstring) :=
  match s with
  | c :: r =>
      if (c =? 48)%N then Some (0, r)
      else if is_digit c then
        let '(v, _, r') := read_digits s 0 0 in Some (v, r')
      else None
  | [] => None
  end.

(** frac: nothing, or a point followed by at least one digit.  Returns the
    mantissa extended by the fraction digits and their number. *)
Definition read_frac (m : Z) (s : jsstring) : option (Z * nat * jsstring) :=
  match s with
  | c :: r =>
      if (c =? 46)%N then
        let '(v, n, r') := read_digits r m 0 in
        match n with O => None | S _ => Some (v, n, r') end
      else Some (m, O, s)
  | [] => Some (m, O, s)
  end.

(** exp: nothing, or [e]/[E], an optional sign and at least one digit. *)
Definition read_exp (s : jsstring) : option (Z * jsstring) :=
  match s with
  | c :: r =>
      if ((c =? 101) || (c =? 69))%N then
        let '(neg, r0) :=
          match r with
          | d :: r' =>
              if (d =? 45)%N then (true, r')
              else if (d =? 43)%N then (false, r')
              else (false, r)
          | [] => (false, r)
          end in
        let '(v, n, r') := read_digits r0 0 0 in
        match n with
        | O => None
        | S _ => Some (if neg then - v else v, r')
        end
      else Some (0, s)
  | [] => Some (0, s)
  end.

Definition read_number (s : jsstring) : option (json * jsstring) :=
  let '(neg, s0) :=
    match s with
    | c :: r => if (c =? 45)%N then (true, r) else (false, s)
    | [] => (false, s)
    end in
  match read_int s0 with
  | None => None
  | Some (i, s1) =>
      match read_frac i s1 with
      | None => None
      | Some (m, nfrac, s2) =>
          match read_exp s2 with
          | None => None
          | Some (e, s3) =>
              Some (JNumber (if neg then - m else m) (e - Z.of_nat nfrac), s3)
          end
      end
  end.

(** value, elements (after the opening bracket, at least one element
    expected) and members (after the opening brace, at least one member
    expected). *)
Fixpoint read_value (fuel : nat) (ws : bool) (s : jsstring) {struct fuel}
  : option (json * jsstring) :=
  match fuel with
  | O => None
  | S fuel' =>
      match skip ws s with
      | [] => None
      | c :: r =>
          if (c =? 123)%N then                      (* left brace *)
            match skip ws r with
            | d :: r' =>
                if (d =? 125)%N then Some (JObject [], r')
                else
                  match read_members fuel' ws (d :: r') with
                  | Some (ms, r'') => Some (JObject ms, r'')
                  | None => None
                  end
            | [] => None
            end
          else if (c =? 91)%N then                  (* left bracket *)
            match skip ws r with
            | d :: r' =>
                if (d =? 93)%N then Some (JArray [], r')
                else
                  match read_elements fuel' ws (d :: r') with
                  | Some (vs, r'') => Some (JArray vs, r'')
                  | None => None
                  end
            | [] => None
            end
          else if (c =? 34)%N then
            match read_chars r [] with
            | Some (str, r') => Some (JString str, r')
            | None => None
            end
          else if startsWith (c :: r) (lit "null") then Some (JNull, drop 4 (c :: r))
          else if startsWith (c :: r) (lit "true") then Some (JBool true, drop 4 (c :: r))
          else if startsWith (c :: r) (lit "false") then Some (JBool false, drop 5 (c :: r))
          else read_number (c :: r)
      end
  end
with read_elements (fuel : nat) (ws : bool) (s : jsstring) {struct fuel}
  : option (list json * jsstring) :=
  match fuel with
  | O => None
  | S fuel' =>
      match read_value fuel' ws s with
      | None => None
      | Some (v, r) =>
          match skip ws r with
          | c :: r' =>
              if (c =? 44)%N then
                match read_elements fuel' ws r' with
                | Some (vs, r'') => Some (v :: vs, r'')
                | None => None
                end
              else if (c =? 93)%N then Some ([v], r')
              else None
          | [] => None
          end
      end
  end
with read_members (fuel : nat) (ws : bool) (s : jsstring) {struct fuel}
  : option (list (jsstring * json) * jsstring) :=
  match fuel with
  | O => None
  | S fuel' =>
      match skip ws s with
      | q :: r =>
          if (q =? 34)%N then
            match read_chars r [] with
            | None => None
            | Some (k, r1) =>
                match skip ws r1 with
                | c :: r2 =>
                    if (c =? 58)%N then
                      match read_value fuel' ws r2 with
                      | None => None
                      | Some (v, r3) =>
                          match skip ws r3 with
                          | d :: r4 =>
                              if (d =? 44)%N then
                                match read_members fuel' ws r4 with
                                | Some (ms, r5) => Some ((k, v) :: ms, r5)
                                | None => None
                                end
                              else if (d =? 125)%N then Some ([(k, v)], r4)
                              else None
                          | [] => None
                          end
                      end
                    else None
                | [] => None
                end
            end
          else None
      | [] => None
      end
  end.

(** The reader consumes a character at least every second level of
    recursion; the fuel is chosen accordingly. *)
Definition fuel_for (s : jsstring) : nat := 2 * length s + 2.

(** A concrete [JSON.parse]: [None] stands for the [SyntaxError]. *)
Definition json_parse (s : jsstring) : option json :=
  match read_value (fuel_for s) true s with
  | Some (v, r) => match skip true r with [] => Some v | _ :: _ => None end
  | None => None
  end.

(** Syntactically valid minified JSON object text: a JSON object with no
    insignificant white space anywhere. *)
Definition minified_json_object (s : jsstring) : bool :=
  match read_value (fuel_for s) false s with
  | Some (JObject _, []) => true
  | _ => false
  end.

End Json.
Export Json.

(* ===================================================================== *)
(** * A concrete JSON writer *)
(* ===================================================================== *)

Module JsonWriter.

Definition hex_digit (n : N) : N := (if n <? 10 then 48 + n else 87 + n)%N.

Definition escape_char (c : N) : jsstring :=
  if (c =? 34)%N then [92; 34]%N
  else if (c =? 92)%N then [92; 92]%N
  else if (c <? 32)%N then [92; 117; 48; 48; hex_digit (c / 16); hex_digit (c mod 16)]%N
  else [c].

Definition quote (s : jsstring) : jsstring :=
  34%N :: flat_map escape_char s ++ [34%N].

Fixpoint join_commas (parts : list jsstring) : jsstring :=
  match parts with
  | [] => []
  | [p] => p
  | p :: ps => p ++ 44%N :: join_commas ps
  end.

(** Minified output, members in order. *)
Fixpoint json_stringify (v : json) : jsstring :=
  match v with
  | JNull => lit "null"
  | JBool true => lit "true"
  | JBool false => lit "false"
  | JNumber m e =>
      num_to_string m ++ (if e =? 0 then [] else 101%N :: num_to_string e)
  | JString s => quote s
  | JArray items => 91%N :: join_commas (map json_stringify items) ++ [93%N]
  | JObject members =>
      123%N ::
      join_commas (map (fun kv => quote (fst kv) ++ 58%N :: json_stringify (snd kv)) members)
      ++ [125%N]
  end.

End JsonWriter.
Export JsonWriter.

(* ===================================================================== *)
(** * The platform and the world *)
(* ===================================================================== *)

(** Built-ins the program calls.  [JSON_parse] answers [None] when it
    throws; [ToString] is the coercion applied by [new Error(message)]. *)
Class Platform : Type := {
  JSON_parse : jsstring -> option json;
  JSON_stringify : json -> jsstring;
  toISOString : Z -> jsstring;
  ToString : json -> jsstring;
}.

(** A value caught by [catch (error)]: the code only asks whether it is an
    [Error] and, if so, for its message. *)
Inductive thrown : Type :=
  | ErrorObject (message : jsstring)
  | OtherValue.

Definition message_or (e : thrown) (fallback : jsstring) : jsstring :=
  match e with
  | ErrorObject m => m
  | OtherValue => fallback
  end.

(** What [await response.text()] yields. *)
Inductive body_outcome : Type :=
  | BodyText (t : jsstring)
  | BodyFails (e : thrown).

Record Response : Type := {
  status : Z;
  statusText : jsstring;
  body : body_outcome;
}.

(** [response.ok] *)
Definition ok (r : Response) : bool := (200 <=? status r) && (status r <=? 299).

(** What [await fetch(...)] yields; a timeout ([AbortSignal.timeout]) is a
    rejection. *)
Inductive fetch_outcome : Type :=
  | Rejected (e : thrown)
  | Responded (r : Response).

Record Toast : Type := {
  title : jsstring;
  description : jsstring;
  variant : jsstring;
}.

Global Instance Toast_eq_dec : EqDecision Toast.
Proof. solve_decision. Defined.

(** How many times toast [t] was shown. *)
Definition count_toast (t : Toast) (shown : list Toast) : nat :=
  length (filter (fun t' => t' = t) shown).

(** The status recorded by the health service. *)
Inductive health : Type := healthy | degraded | down.

Global Instance health_eq_dec : EqDecision health.
Proof. solve_decision. Defined.

Record HealthStatus : Type := {
  isHealthy : bool;
  h_status : health;
  h_latency : Z;
  h_timestamp : jsstring;
  h_error : option jsstring;
}.

(** The fields of the shared [API_CONFIG] object that are written. *)
Record ApiConfig : Type := {
  BASE_URL : jsstring;
  BACKEND_URL : jsstring;
  API_URL : jsstring;
}.

(** The environment of a run.  [net k url] is the outcome of the [k]-th
    [fetch] of the run when it asks for [url]; [clock k] is the [k]-th
    reading of the system time; [quota key value] tells whether
    [localStorage.setItem] accepts the write.  The remaining fields are what
    the program has done so far, oldest entry first; [notified] lists the
    calls made to health listeners (the listener's number and the status it
    was given).  Listeners are assumed not to throw. *)
Record World : Type := {
  net : nat -> jsstring -> fetch_outcome;
  clock : nat -> Z;
  quota : jsstring -> jsstring -> bool;
  fetched : list jsstring;
  ticks : nat;
  toasts : list Toast;
  notified : list (nat * HealthStatus);
  localStorage : gmap jsstring jsstring;
  API_CONFIG : ApiConfig;
}.

Module Eff.

(** Effectful computations: state passing over the world. *)
Definition M (A : Type) : Type := World -> A * World.

Definition ret {A} (a : A) : M A := fun w => (a, w).

Definition bind {A B} (m : M A) (k : A -> M B) : M B :=
  fun w => let '(a, w') := m w in k a w'.

Declare Scope eff_scope.
Delimit Scope eff_scope with eff.
Notation "'let*' x := m 'in' k" := (bind m (fun x => k))
  (at level 10, x pattern, m at level 100, k at level 200) : eff_scope.
Notation "m ;; k" := (bind m (fun _ => k))
  (at level 100, right associativity) : eff_scope.

(** Field updates. *)
Definition with_fetched (urls : list jsstring) (w : World) : World :=
  {| net := net w; clock := clock w; quota := quota w;
     fetched := urls; ticks := ticks w; toasts := toasts w;
     notified := notified w; localStorage := localStorage w;
     API_CONFIG := API_CONFIG w |}.

Definition with_ticks (n : nat) (w : World) : World :=
  {| net := net w; clock := clock w; quota := quota w;
     fetched := fetched w; ticks := n; toasts := toasts w;
     notified := notified w; localStorage := localStorage w;
     API_CONFIG := API_CONFIG w |}.

Definition with_toasts (ts : list Toast) (w : World) : World :=
  {| net := net w; clock := clock w; quota := quota w;
     fetched := fetched w; ticks := ticks w; toasts := ts;
     notified := notified w; localStorage := localStorage w;
     API_CONFIG := API_CONFIG w |}.

Definition with_notified (calls : list (nat * HealthStatus)) (w : World) : World :=
  {| net := net w; clock := clock w; quota := quota w;
     fetched := fetched w; ticks := ticks w; toasts := toasts w;
     notified := calls; localStorage := localStorage w;
     API_CONFIG := API_CONFIG w |}.

Definition with_localStorage (store : gmap jsstring jsstring) (w : World) : World :=
  {| net := net w; clock := clock w; quota := quota w;
     fetched := fetched w; ticks := ticks w; toasts := toasts w;
     notified := notified w; localStorage := store;
     API_CONFIG := API_CONFIG w |}.

Definition with_API_CONFIG (c : ApiConfig) (w : World) : World :=
  {| net := net w; clock := clock w; quota := quota w;
     fetched := fetched w; ticks := ticks w; toasts := toasts w;
     notified := notified w; localStorage := localStorage w;
     API_CONFIG := c |}.

(** [await fetch(url, ...)].  The method, headers and body of the request
    are not recorded; the answer may depend on them through [net]. *)
Definition fetch (url : jsstring) : M fetch_outcome :=
  fun w => (net w (length (fetched w)) url, with_fetched (fetched w ++ [url]) w).

(** [Date.now()], also the time captured by [new Date()]. *)
Definition now : M Z :=
  fun w => (clock w (ticks w), with_ticks (S (ticks w)) w).

(** [toast({...})] *)
Definition toast (t : Toast) : M unit :=
  fun w => (tt, with_toasts (toasts w ++ [t]) w).

(** [localStorage.getItem(key)]; [None] is [null]. *)
Definition getItem (key : jsstring) : M (option jsstring) :=
  fun w => (localStorage w !! key, w).

(** [localStorage.setItem(key, value)]; answers [false] when it throws. *)
Definition setItem (key value : jsstring) : M bool :=
  fun w =>
    if quota w key value
    then (true, with_localStorage (<[key := value]> (localStorage w)) w)
    else (false, w).

(** [localStorage.removeItem(key)] *)
Definition removeItem (key : jsstring) : M unit :=
  fun w => (tt, with_localStorage (delete key (localStorage w)) w).

(** [listener(status)] *)
Definition call_listener (listener : nat) (st : HealthStatus) : M unit :=
  fun w => (tt, with_notified (notified w ++ [(listener, st)]) w).

(** Reading and writing the shared [API_CONFIG]. *)
Definition get_config : M ApiConfig := fun w => (API_CONFIG w, w).

Definition set_config (c : ApiConfig) : M unit :=
  fun w => (tt, with_API_CONFIG c w).

End Eff.
Import Eff.
Local Open Scope eff_scope.

(* ===================================================================== *)
(** * src/config/api.ts *)
(* ===================================================================== *)

(** [getApiUrl(endpoint)] *)
Definition getApiUrl (endpoint : jsstring) : M jsstring :=
  let* cfg := get_config in
  let baseUrl := BASE_URL cfg in
  ret (if startsWith endpoint (lit "/") then baseUrl ++ endpoint
       else baseUrl ++ lit "/" ++ endpoint).

(* ===================================================================== *)
(** * src/utils/emergencyApiHandler.ts *)
(* ===================================================================== *)

Module EmergencyApiHandler.

Record APIFallbackResponse : Type := {
  success : bool;
  data : option json;
  error : option json;
  isEmergencyMode : option bool;
}.

(** Detect if response is HTML instead of JSON. *)
Definition isHTMLResponse (responseText : jsstring) : bool :=
  startsWith (trim responseText) (lit "<!DOCTYPE") ||
  startsWith (trim responseText) (lit "<html") ||
  includes responseText (lit "<title>") ||
  includes responseText (lit "<body>").

Section WithPlatform.
Context {P : Platform}.

(** [data?.data || data] *)
Definition payload_of (data : json) : json :=
  match or_else (get_prop data (lit "data")) (Some data) with
  | Some v => v
  | None => data
  end.

(** [data?.message || data?.error || fallback] *)
Definition error_of (data : json) (fallback : jsstring) : json :=
  match or_else (or_else (get_prop data (lit "message")) (get_prop data (lit "error")))
                (Some (JString fallback)) with
  | Some v => v
  | None => JString fallback
  end.

Definition network_error_result (e : thrown) : M APIFallbackResponse :=
  toast {| title := lit "Network Error";
           description := lit "Cannot connect to server. Check your internet connection.";
           variant := lit "destructive" |} ;;
  ret {| success := false;
         data := None;
         error := Some (JString (message_or e (lit "Network error")));
         isEmergencyMode := Some true |}.

(** Emergency API request handler with fallback mechanisms. *)
Definition emergencyApiRequest (url : jsstring) : M APIFallbackResponse :=
  let* outcome := fetch url in
  match outcome with
  | Rejected e => network_error_result e
  | Responded response =>
      match body response with
      | BodyFails e => network_error_result e
      | BodyText responseText =>
          if isHTMLResponse responseText then
            toast {| title := lit "Backend Connection Issue";
                     description := lit "The server is currently unavailable. Using offline mode.";
                     variant := lit "destructive" |} ;;
            ret {| success := false;
                   data := None;
                   error := Some (JString (lit "Backend server is unavailable - returned HTML instead of JSON"));
                   isEmergencyMode := Some true |}
          else
            let parsed :=
              if nonempty responseText then JSON_parse responseText
              else Some JNull in
            match parsed with
            | None =>
                ret {| success := false;
                       data := None;
                       error := Some (JString (lit "Invalid response format from server"));
                       isEmergencyMode := Some true |}
            | Some data =>
                if negb (ok response) then
                  ret {| success := false;
                         data := None;
                         error := Some (error_of data (lit "HTTP " ++ num_to_string (status response)));
                         isEmergencyMode := Some false |}
                else
                  ret {| success := true;
                         data := Some (payload_of data);
                         error := None;
                         isEmergencyMode := Some false |}
            end
      end
  end.

(** The own enumerable properties copied by [...postData] in an object
    literal: those of an object; the indices of an array or of a string;
    nothing for [null], booleans and numbers. *)
Definition spread_props (v : json) : list (jsstring * json) :=
  match v with
  | JObject ms => ms
  | JArray items => imap (fun i x => (num_to_string (Z.of_nat i), x)) items
  | JString s => imap (fun i c => (num_to_string (Z.of_nat i), JString [c])) s
  | _ => []
  end.

(** Defining property [k] of an object under construction: an existing
    property keeps its place and takes the new value, a new one goes last.
    (JavaScript lists integer-like keys first; the order of the members
    is not used below.) *)
Fixpoint set_prop (k : jsstring) (v : json) (ms : list (jsstring * json))
  : list (jsstring * json) :=
  match ms with
  | [] => [(k, v)]
  | (k', v') :: ms' =>
      if decide (k' = k) then (k, v) :: ms' else (k', v') :: set_prop k v ms'
  end.

Definition set_props (props ms : list (jsstring * json)) : list (jsstring * json) :=
  foldl (fun acc kv => set_prop (fst kv) (snd kv) acc) ms props.

Definition STORAGE_KEY : jsstring := lit "emergency_posts".

(** [{ id: `emergency_${Date.now()}`, ...postData, createdAt: ...,
       isEmergencyMode: true, status: 'pending_sync' }] *)
Definition make_post (t_id t_created : Z) (postData : json) : json :=
  JObject
    (set_prop (lit "status") (JString (lit "pending_sync"))
    (set_prop (lit "isEmergencyMode") (JBool true)
    (set_prop (lit "createdAt") (JString (toISOString t_created))
    (set_props (spread_props postData)
       [(lit "id", JString (lit "emergency_" ++ num_to_string t_id))])))).

Definition post_saved : Toast :=
  {| title := lit "Post Saved Offline";
     description := lit "Your post will sync when the server is back online.";
     variant := lit "default" |}.

(** [post.id] *)
Definition post_id (post : json) : option json := get_prop post (lit "id").

(** The names of the properties [...postData] copies. *)
Definition spread_keys (postData : json) : list jsstring :=
  map fst (spread_props postData).

Definition save_failed : APIFallbackResponse :=
  {| success := false;
     data := None;
     error := Some (JString (lit "Failed to save post offline"));
     isEmergencyMode := Some true |}.

(** [localStorage.getItem('emergency_posts') || '[]'] *)
Definition stored_text : M jsstring :=
  let* item := getItem STORAGE_KEY in
  ret (match item with
       | Some t => if nonempty t then t else lit "[]"
       | None => lit "[]"
       end).

(** Emergency post creation (stores locally when backend is down). *)
Definition emergencyCreatePost (postData : json) : M APIFallbackResponse :=
  let* t := stored_text in
  match JSON_parse t with
  | None => ret save_failed
  | Some existingPosts =>
      let* t_id := now in
      let* t_created := now in
      let newPost := make_post t_id t_created postData in
      match existingPosts with
      | JArray posts =>
          let* stored := setItem STORAGE_KEY (JSON_stringify (JArray (newPost :: posts))) in
          if stored then
            toast post_saved ;;
            ret {| success := true;
                   data := Some newPost;
                   error := None;
                   isEmergencyMode := Some true |}
          else ret save_failed
      | _ => ret save_failed   (* [unshift] is not a function *)
      end
  end.

(** Get emergency posts from local storage. *)
Definition getEmergencyPosts : M json :=
  let* t := stored_text in
  ret (match JSON_parse t with
       | Some v => v
       | None => JArray []
       end).

(** Clear emergency posts (when backend is back online). *)
Definition clearEmergencyPosts : M unit := removeItem STORAGE_KEY.

(** Check backend health and show status. *)
Definition checkBackendHealth : M bool :=
  let* outcome := fetch (lit "/api/health") in
  ret (match outcome with
       | Rejected _ => false
       | Responded response =>
           match body response with
           | BodyFails _ => false
           | BodyText text => if isHTMLResponse text then false else ok response
           end
       end).

End WithPlatform.

End EmergencyApiHandler.

(* ===================================================================== *)
(** * The API service ([apiRequest], [postsService]) *)
(* ===================================================================== *)

Module ApiService.
Import EmergencyApiHandler.

Record APIResponse : Type := {
  r_success : bool;
  r_data : option json;
  r_error : option json;
  r_status : Z;
  r_message : option json;
}.

(** What [catch (error)] of [apiRequest] can receive. *)
Inductive caught : Type :=
  | APIError (status : Z) (statusText : jsstring) (response : jsstring) (message : jsstring)
  | Other (e : thrown).

Section WithPlatform.
Context {P : Platform}.

(** [new Error(message)] stores the string form of [message]. *)
Definition error_message (v : json) : jsstring :=
  match v with
  | JString s => s
  | _ => ToString v
  end.

(** The [catch] block of [apiRequest]. *)
Definition handle_error (error : caught) : APIResponse :=
  match error with
  | APIError status _ response message =>
      if nonempty response && isHTMLResponse response then
        {| r_success := false; r_data := None;
           r_error := Some (JString (lit "Backend server is unavailable. Please try again later."));
           r_status := status; r_message := None |}
      else
        {| r_success := false; r_data := None;
           r_error := Some (JString message);
           r_status := status; r_message := None |}
  | Other e =>
      {| r_success := false; r_data := None;
         r_error := Some (JString (message_or e (lit "Unknown error occurred")));
         r_status := 0; r_message := None |}
  end.

(** Enhanced fetch with comprehensive error handling.  [getAuthHeaders]
    and the request options only shape the request that is sent. *)
Definition apiRequest (endpoint : jsstring) : M APIResponse :=
  let* url := getApiUrl endpoint in
  let* outcome := fetch url in
  match outcome with
  | Rejected e => ret (handle_error (Other e))
  | Responded response =>
      match body response with
      | BodyFails e => ret (handle_error (Other e))
      | BodyText responseText =>
          if isHTMLResponse responseText then
            let* emergencyResult := emergencyApiRequest url in
            ret {| r_success := success emergencyResult;
                   r_data := data emergencyResult;
                   r_error := error emergencyResult;
                   r_status := status response;
                   r_message := None |}
          else
            let parsed :=
              if nonempty responseText then JSON_parse responseText
              else Some JNull in
            match parsed with
            | None =>
                ret (handle_error
                       (APIError (status response) (statusText response) responseText
                          (lit "Invalid JSON response from server")))
            | Some data =>
                if negb (ok response) then
                  ret (handle_error
                         (APIError (status response) (statusText response) responseText
                            (error_message (error_of data (lit "API request failed")))))
                else
                  ret {| r_success := true;
                         r_data := Some (payload_of data);
                         r_error := None;
                         r_status := status response;
                         r_message := get_prop data (lit "message") |}
            end
      end
  end.

Definition apiGet (endpoint : jsstring) : M APIResponse := apiRequest endpoint.
Definition apiPost (endpoint : jsstring) (data : json) : M APIResponse := apiRequest endpoint.

(** [result.error?.includes(pattern)]; [None] when the call throws a
    [TypeError] because the error value has no [includes] method. *)
Definition error_includes (e : option json) (pattern : jsstring) : option bool :=
  match e with
  | None => Some false
  | Some JNull => Some false
  | Some (JString s) => Some (includes s pattern)
  | Some (JArray items) =>
      Some (existsb (fun v => match v with
                              | JString s => bool_decide (s = pattern)
                              | _ => false
                              end) items)
  | Some _ => None
  end.

Inductive service_result : Type :=
  | FromApi (r : APIResponse)
  | FromEmergency (r : APIFallbackResponse)
  | Offline (posts : json)       (* [{success: true, data: posts, status: 200, ...}] *)
  | Throws.

(** [postsService.create] *)
Definition create (postData : json) : M service_result :=
  let* result := apiPost (lit "/api/posts") postData in
  if r_success result then ret (FromApi result)
  else
    match error_includes (r_error result) (lit "HTML instead of JSON") with
    | None => ret Throws
    | Some true =>
        let* saved := emergencyCreatePost postData in
        ret (FromEmergency saved)
    | Some false => ret (FromApi result)
    end.

(** [postsService.getAll] *)
Definition getAll : M service_result :=
  let* result := apiGet (lit "/api/posts") in
  if r_success result then ret (FromApi result)
  else
    match error_includes (r_error result) (lit "HTML instead of JSON") with
    | None => ret Throws
    | Some true =>
        let* emergencyPosts := getEmergencyPosts in
        ret (Offline emergencyPosts)
    | Some false => ret (FromApi result)
    end.

End WithPlatform.

End ApiService.

(* ===================================================================== *)
(** * The backend health service *)
(* ===================================================================== *)

Module BackendHealthService.

(** The service object: the last recorded status ([None] before the first
    probe has completed), the subscribed listeners in subscription order,
    and whether the 30 second interval timer is armed. *)
Record Service : Type := {
  healthStatus : option HealthStatus;
  listeners : list nat;
  healthCheckInterval : bool;
}.

Definition backend_online : Toast :=
  {| title := lit "Backend Online";
     description := lit "Connection restored successfully";
     variant := lit "default" |}.

Definition backend_offline : Toast :=
  {| title := lit "Backend Offline";
     description := lit "Some features may not work properly";
     variant := lit "destructive" |}.

(** The toast shown for a change from [previousStatus] to [current], if
    any: the condition of the [if] / [else if] cascade. *)
Definition status_toast (previousStatus : option health) (current : health)
  : option Toast :=
  match previousStatus with
  | None => None
  | Some previous =>
      if bool_decide (previous <> current) then
        if bool_decide (current = healthy) && bool_decide (previous <> healthy)
        then Some backend_online
        else if bool_decide (current = down) && bool_decide (previous <> down)
        then Some backend_offline
        else None
      else None
  end.

Fixpoint notify_all (ls : list nat) (st : HealthStatus) : M unit :=
  match ls with
  | [] => ret tt
  | l :: ls' => call_listener l st ;; notify_all ls' st
  end.

(** Update health status and notify listeners. *)
Definition updateHealthStatus (svc : Service) (st : HealthStatus) : M Service :=
  let previousStatus := h_status <$> healthStatus svc in
  let svc' := {| healthStatus := Some st;
                 listeners := listeners svc;
                 healthCheckInterval := healthCheckInterval svc |} in
  notify_all (listeners svc) st ;;
  match status_toast previousStatus (h_status st) with
  | Some t => toast t ;; ret svc'
  | None => ret svc'
  end.

Section WithPlatform.
Context {P : Platform}.

(** The probe's own test for an HTML body. *)
Definition looks_like_html (responseText : jsstring) : bool :=
  includes responseText (lit "<!DOCTYPE") || includes responseText (lit "<html>").

(** The address a probe requests: [getApiUrl('/api/health')]. *)
Definition probe_url (w : World) : jsstring :=
  BASE_URL (API_CONFIG w) ++ lit "/api/health".

(** The [catch] block of [checkHealth]. *)
Definition probe_failed (svc : Service) (startTime : Z) (e : thrown)
  : M (HealthStatus * Service) :=
  let* t := now in
  let latency := t - startTime in
  let* stamp := now in
  let st := {| isHealthy := false;
               h_status := down;
               h_latency := latency;
               h_timestamp := toISOString stamp;
               h_error := Some (message_or e (lit "Network error")) |} in
  let* svc' := updateHealthStatus svc st in
  ret (st, svc').

(** Check backend health. *)
Definition checkHealth (svc : Service) : M (HealthStatus * Service) :=
  let* startTime := now in
  let* url := getApiUrl (lit "/api/health") in
  let* outcome := fetch url in
  match outcome with
  | Rejected e => probe_failed svc startTime e
  | Responded response =>
      let* t := now in
      let latency := t - startTime in
      match body response with
      | BodyFails e => probe_failed svc startTime e
      | BodyText responseText =>
          if looks_like_html responseText then
            let* stamp := now in
            let st := {| isHealthy := false;
                         h_status := down;
                         h_latency := latency;
                         h_timestamp := toISOString stamp;
                         h_error := Some (lit "Backend returning HTML instead of JSON - service misconfigured") |} in
            let* svc' := updateHealthStatus svc st in
            ret (st, svc')
          else
            match JSON_parse responseText with
            | None =>
                let* stamp := now in
                let st := {| isHealthy := false;
                             h_status := degraded;
                             h_latency := latency;
                             h_timestamp := toISOString stamp;
                             h_error := Some (lit "Invalid JSON response from backend") |} in
                let* svc' := updateHealthStatus svc st in
                ret (st, svc')
            | Some _ =>
                let* stamp := now in
                let st := {| isHealthy := ok response;
                             h_status := if ok response then healthy else degraded;
                             h_latency := latency;
                             h_timestamp := toISOString stamp;
                             h_error :=
                               if ok response then None
                               else Some (lit "HTTP " ++ num_to_string (status response)
                                          ++ lit ": " ++ statusText response) |} in
                let* svc' := updateHealthStatus svc st in
                ret (st, svc')
            end
      end
  end.

(** [n] probes in a row, as the interval timer runs them; the statuses
    they returned, oldest first. *)
Fixpoint probe_times (n : nat) (svc : Service) : M (list HealthStatus * Service) :=
  match n with
  | O => ret ([], svc)
  | S n' =>
      let* r := checkHealth svc in
      let* rest := probe_times n' (snd r) in
      ret (fst r :: fst rest, snd rest)
  end.

End WithPlatform.

(** The statuses of successive completed probes, recorded in order. *)
Fixpoint record_all (svc : Service) (sts : list HealthStatus) : M Service :=
  match sts with
  | [] => ret svc
  | st :: rest =>
      let* svc' := updateHealthStatus svc st in
      record_all svc' rest
  end.

(** Get current health status. *)
Definition getHealthStatus (svc : Service) : option HealthStatus := healthStatus svc.

(** Stop health monitoring. *)
Definition stopMonitoring (svc : Service) : Service :=
  if healthCheckInterval svc then
    {| healthStatus := healthStatus svc;
       listeners := listeners svc;
       healthCheckInterval := false |}
  else svc.

(** Check if backend is ready for requests. *)
Definition isBackendReady (svc : Service) : bool :=
  match healthStatus svc with
  | Some st => isHealthy st
  | None => false
  end.

End BackendHealthService.

(* ===================================================================== *)
(** * JavaScript numbers produced by the statistics *)
(* ===================================================================== *)

Module Number.

(** The results of dividing integers: exact rationals (the rounding of the
    quotient to a double is not modelled), the infinities and [NaN]. *)
Inductive number : Type :=
  | NaN
  | Infinity (negative : bool)
  | Finite (q : Q).

(** [a / b] for integers [a], [b]. *)
Definition div (a b : Z) : number :=
  if b =? 0 then
    if a =? 0 then NaN else Infinity (a <? 0)
  else Finite (Qred (inject_Z a / inject_Z b)).

(** [x || 0] *)
Definition or_zero (x : number) : number :=
  match x with
  | NaN => Finite 0
  | Infinity _ => x
  | Finite q => if Qeq_bool q 0 then Finite 0 else x
  end.

(** [Math.round(x)]: the integer nearest to [x], ties towards positive
    infinity. *)
Definition Math_round (x : number) : number :=
  match x with
  | Finite q => Finite (inject_Z (Qfloor (q + (1 # 2))))
  | _ => x
  end.

End Number.
Export Number.

(* ===================================================================== *)
(** * The backend connection manager *)
(* ===================================================================== *)

Module BackendConnectionManager.

Record ConnectionAttempt : Type := {
  url : jsstring;
  timestamp : Z;
  success : bool;
  latency : option Z;
  error : option jsstring;
}.

Record Manager : Type := {
  attempts : list ConnectionAttempt;
  currentBackendUrl : jsstring;
  fallbackUrls : list jsstring;
}.

Definition all_offline : Toast :=
  {| title := lit "All Backends Offline";
     description := lit "Unable to connect to any backend server. Please check your connection.";
     variant := lit "destructive" |}.

Section WithPlatform.
Context {P : Platform}.

(** The [catch] block of [testBackendConnection]. *)
Definition connection_failed (u : jsstring) (startTime : Z) (e : thrown)
  : M ConnectionAttempt :=
  let* t := now in
  let latency := t - startTime in
  let* stamp := now in
  ret {| url := u; timestamp := stamp; success := false;
         latency := Some latency;
         error := Some (message_or e (lit "Connection failed")) |}.

(** The address probed for backend [u]. *)
Definition healthUrl (u : jsstring) : jsstring :=
  if endsWith u (lit "/") then u ++ lit "api/health" else u ++ lit "/api/health".

(** Test connection to a specific backend URL. *)
Definition testBackendConnection (u : jsstring) : M ConnectionAttempt :=
  let* startTime := now in
  let* outcome := fetch (healthUrl u) in
  match outcome with
  | Rejected e => connection_failed u startTime e
  | Responded response =>
      let* t := now in
      let latency := t - startTime in
      match body response with
      | BodyFails e => connection_failed u startTime e
      | BodyText responseText =>
          if includes responseText (lit "<!DOCTYPE") || includes responseText (lit "<html>")
          then
            let* stamp := now in
            ret {| url := u; timestamp := stamp; success := false;
                   latency := Some latency;
                   error := Some (lit "Backend returning HTML instead of JSON") |}
          else
            match JSON_parse responseText with
            | Some _ =>
                let* stamp := now in
                ret {| url := u; timestamp := stamp; success := ok response;
                       latency := Some latency;
                       error := if ok response then None
                                else Some (lit "HTTP " ++ num_to_string (status response)) |}
            | None =>
                let* stamp := now in
                ret {| url := u; timestamp := stamp; success := false;
                       latency := Some latency;
                       error := Some (lit "Invalid JSON response") |}
            end
      end
  end.

(** Whether the attempt made from fetch outcome [o] has [success: true]:
    a body arrived, it holds neither [<!DOCTYPE] nor [<html>], it parses as
    JSON and the status is 2xx. *)
Definition probe_succeeds (o : fetch_outcome) : bool :=
  match o with
  | Rejected _ => false
  | Responded response =>
      match body response with
      | BodyFails _ => false
      | BodyText responseText =>
          negb (includes responseText (lit "<!DOCTYPE") || includes responseText (lit "<html>"))
          && bool_decide (is_Some (JSON_parse responseText))
          && ok response
      end
  end.

(** The outcome of the [i]-th probe of a run that starts in world [w],
    when that probe is for backend [u]. *)
Definition probe_outcome (w : World) (i : nat) (u : jsstring) : fetch_outcome :=
  net w (length (fetched w) + i) (healthUrl u).

(** [this.attempts.push(attempt)] *)
Definition push_attempt (m : Manager) (a : ConnectionAttempt) : Manager :=
  {| attempts := attempts m ++ [a];
     currentBackendUrl := currentBackendUrl m;
     fallbackUrls := fallbackUrls m |}.

(** [this.currentBackendUrl = url] *)
Definition pin (m : Manager) (u : jsstring) : Manager :=
  {| attempts := attempts m;
     currentBackendUrl := u;
     fallbackUrls := fallbackUrls m |}.

(** The [for (const url of urlsToTry)] loop: [Some url] when it returned
    from inside the loop, [None] when it ran to the end. *)
Fixpoint try_urls (urlsToTry : list jsstring) (m : Manager) : M (option jsstring * Manager) :=
  match urlsToTry with
  | [] => ret (None, m)
  | u :: rest =>
      let* attempt := testBackendConnection u in
      let m1 := push_attempt m attempt in
      if success attempt then
        let m2 := pin m1 u in
        set_config {| BASE_URL := u; BACKEND_URL := u; API_URL := u |} ;;
        ret (Some u, m2)
      else try_urls rest m1
  end.

(** Find a healthy backend from available options. *)
Definition findHealthyBackend (m : Manager) : M (jsstring * Manager) :=
  let urlsToTry := currentBackendUrl m :: fallbackUrls m in
  let* r := try_urls urlsToTry m in
  match r with
  | (Some u, m') => ret (u, m')
  | (None, m') =>
      toast all_offline ;;
      ret (currentBackendUrl m', m')
  end.

End WithPlatform.

(** Get the current healthy backend URL. *)
Definition getCurrentBackendUrl (m : Manager) : jsstring := currentBackendUrl m.

(** Get connection attempt history: [[...this.attempts]]. *)
Definition getConnectionHistory (m : Manager) : list ConnectionAttempt := attempts m.

Record Stats : Type := {
  totalAttempts : nat;
  successful : nat;
  failed : nat;
  successRate : number;
  averageLatency : number;
  currentBackend : jsstring;
}.

(** [a.success && a.latency], as a condition. *)
Definition has_latency (a : ConnectionAttempt) : bool :=
  success a && match latency a with Some l => negb (l =? 0) | None => false end.

(** [a.latency || 0] *)
Definition latency_or_zero (a : ConnectionAttempt) : Z :=
  match latency a with Some l => l | None => 0 end.

(** The successful attempts of a log, and the sum of their latencies. *)
Definition successes (log : list ConnectionAttempt) : list ConnectionAttempt :=
  filter (fun a => success a = true) log.

Definition total_latency (log : list ConnectionAttempt) : Z :=
  foldl (fun sum a => sum + latency_or_zero a) 0 log.

(** Get connection statistics. *)
Definition getConnectionStats (m : Manager) : Stats :=
  let successful := length (filter (fun a => success a = true) (attempts m)) in
  let failed := length (filter (fun a => success a = false) (attempts m)) in
  let avgLatency :=
    or_zero
      (div (foldl (fun sum a => sum + latency_or_zero a) 0
              (filter (fun a => has_latency a = true) (attempts m)))
           (Z.of_nat successful)) in
  {| totalAttempts := length (attempts m);
     successful := successful;
     failed := failed;
     successRate := div (Z.of_nat successful) (Z.of_nat (length (attempts m)));
     averageLatency := Math_round avgLatency;
     currentBackend := currentBackendUrl m |}.

End BackendConnectionManager.

(* ===================================================================== *)
(** * The attempt log as a heap object *)
(* ===================================================================== *)

(** Arrays and objects are references.  This module places the manager's
    attempt log in a heap, so that the array handed out by
    [getConnectionHistory] and the manager's own array can be told apart. *)
Module AttemptLog.
Import BackendConnectionManager.

Definition loc : Type := nat.

(** Arrays hold references to their elements; objects hold the fields. *)
Record Heap : Type := {
  arrays : gmap loc (list loc);
  objects : gmap loc ConnectionAttempt;
}.

(** The manager object: [this.attempts] is a reference to an array. *)
Record ManagerObj : Type := {
  attempts_ref : loc;
  o_currentBackendUrl : jsstring;
  o_fallbackUrls : list jsstring;
}.

(** The contents of the array at [a], element by element. *)
Definition read_array (h : Heap) (a : loc) : option (list ConnectionAttempt) :=
  match arrays h !! a with
  | Some elems => mapM (fun x => objects h !! x) elems
  | None => None
  end.

(** The manager as a value. *)
Definition view (h : Heap) (m : ManagerObj) : option Manager :=
  match read_array h (attempts_ref m) with
  | Some log =>
      Some {| attempts := log;
              currentBackendUrl := o_currentBackendUrl m;
              fallbackUrls := o_fallbackUrls m |}
  | None => None
  end.

(** [[...this.attempts]]: a new array with the same elements. *)
Definition getConnectionHistory_ref (h : Heap) (m : ManagerObj) : option (loc * Heap) :=
  match arrays h !! attempts_ref m with
  | Some elems =>
      let a := fresh (dom (arrays h)) in
      Some (a, {| arrays := <[a := elems]> (arrays h); objects := objects h |})
  | None => None
  end.

Definition getConnectionStats_ref (h : Heap) (m : ManagerObj) : option Stats :=
  getConnectionStats <$> view h m.

(** Any mutation of the array at [a]: [push], [pop], [splice], [sort],
    index assignment, [length = n], ... each replaces the element list of
    that array by a function of the old one. *)
Definition mutate_array (a : loc) (f : list loc -> list loc) (h : Heap) : Heap :=
  {| arrays := alter f a (arrays h); objects := objects h |}.

Definition mutate_many (a : loc) (fs : list (list loc -> list loc)) (h : Heap) : Heap :=
  foldl (fun h' f => mutate_array a f h') h fs.

(** Assignment to the fields of the object at [x]. *)
Definition mutate_object (x : loc) (f : ConnectionAttempt -> ConnectionAttempt) (h : Heap) : Heap :=
  {| arrays := arrays h; objects := alter f x (objects h) |}.

End AttemptLog.

(* ===================================================================== *)
(** * The rule of the design document and the conditions of the statements *)
(* ===================================================================== *)

Module Design.

Section WithPlatform.
Context {P : Platform}.

(** The transition rule of the health monitor, word for word: an HTML body
    gives [down]; a malformed JSON body gives [degraded]; a non-2xx status
    with valid JSON gives [degraded]; a 2xx status with valid JSON gives
    [healthy]; a network exception gives [down].  [detect] is the test
    that decides that a body is HTML; the rules are read in this order. *)
Inductive health_rule (detect : jsstring -> bool) : fetch_outcome -> health -> Prop :=
  | rule_html r t :
      body r = BodyText t -> detect t = true ->
      health_rule detect (Responded r) down
  | rule_malformed r t :
      body r = BodyText t -> detect t = false -> JSON_parse t = None ->
      health_rule detect (Responded r) degraded
  | rule_http_error r t v :
      body r = BodyText t -> detect t = false -> JSON_parse t = Some v ->
      ok r = false ->
      health_rule detect (Responded r) degraded
  | rule_healthy r t v :
      body r = BodyText t -> detect t = false -> JSON_parse t = Some v ->
      ok r = true ->
      health_rule detect (Responded r) healthy
  | rule_network e :
      health_rule detect (Rejected e) down
  | rule_body_lost r e :
      body r = BodyFails e ->
      health_rule detect (Responded r) down.

(** The next request of the world, when it asks for [u], is answered by
    response [r] whose body [t] is not empty, is not HTML for the
    HTML-response detector, and is rejected by [JSON.parse]. *)
Definition malformed_answer (w : World) (u : jsstring) (r : Response) (t : jsstring) : Prop :=
  net w (length (fetched w)) u = Responded r /\
  body r = BodyText t /\
  t <> [] /\
  EmergencyApiHandler.isHTMLResponse t = false /\
  JSON_parse t = None.

(** The platform's JSON round trip at value [v]: the text written for [v]
    is not empty and reads back as [v]. *)
Definition round_trips (v : json) : Prop :=
  JSON_stringify v <> [] /\ JSON_parse (JSON_stringify v) = Some v.

(** The emergency store holds the posts [posts] (or nothing, when [posts]
    is empty and [JSON.parse('[]')] is the empty array). *)
Definition store_holds (w : World) (posts : list json) : Prop :=
  JSON_parse (fst (EmergencyApiHandler.stored_text w)) = Some (JArray posts).

(** The failure [apiRequest] reports for a malformed body. *)
Definition invalid_json (st : Z) : ApiService.APIResponse :=
  {| ApiService.r_success := false;
     ApiService.r_data := None;
     ApiService.r_error := Some (JString (lit "Invalid JSON response from server"));
     ApiService.r_status := st;
     ApiService.r_message := None |}.

(** The failure [emergencyApiRequest] reports for a malformed body. *)
Definition invalid_format : EmergencyApiHandler.APIFallbackResponse :=
  {| EmergencyApiHandler.success := false;
     EmergencyApiHandler.data := None;
     EmergencyApiHandler.error := Some (JString (lit "Invalid response format from server"));
     EmergencyApiHandler.isEmergencyMode := Some true |}.

End WithPlatform.

End Design.

(* ===================================================================== *)
(** * A platform to run the program on *)
(* ===================================================================== *)

Module Reference.

(** The JSON reader and writer above; a stand-in for the date format (the
    millisecond count itself) and for the string form of non-string
    values (their JSON text).  Used only to evaluate the program on
    concrete inputs. *)
Definition platform : Platform :=
  {| JSON_parse := json_parse;
     JSON_stringify := json_stringify;
     toISOString := num_to_string;
     ToString := json_stringify |}.

(** The quotation mark. *)
Definition dq : jsstring := [34%N].

Definition ok_response (text : jsstring) : Response :=
  {| status := 200; statusText := lit "OK"; body := BodyText text |}.

(** A world at rest in which every request is answered by [answer] and
    the time is read from [time]. *)
Definition world_at (time : nat -> Z) (answer : nat -> jsstring -> fetch_outcome) : World :=
  {| net := answer;
     clock := time;
     quota := fun _ _ => true;
     fetched := [];
     ticks := 0;
     toasts := [];
     notified := [];
     localStorage := ∅;
     API_CONFIG := {| BASE_URL := lit "https://veilos-backend.onrender.com";
                      BACKEND_URL := lit "https://veilos-backend.onrender.com";
                      API_URL := lit "https://veilos-backend.onrender.com" |} |}.

(** The same, with a clock that advances by one millisecond per reading. *)
Definition world_answering (answer : nat -> jsstring -> fetch_outcome) : World :=
  world_at (fun k => 1000 + Z.of_nat k) answer.

End Reference.

(* ===================================================================== *)
(** * src/config/api.ts, the remaining helpers *)
(* ===================================================================== *)

Module ApiConfigFile.

(** [s.replace(pattern, replacement)] with a string pattern: only the
    first occurrence is replaced.  (The replacement strings used hold no
    dollar sign, so they are inserted as they are.) *)
Fixpoint replace_first (s pattern replacement : jsstring) : jsstring :=
  if startsWith s pattern then replacement ++ drop (length pattern) s
  else
    match s with
    | [] => []
    | c :: s' => c :: replace_first s' pattern replacement
    end.

(** The three base URLs of [API_CONFIG] as the module is loaded. *)
Definition initial_config (backendUrl : jsstring) : ApiConfig :=
  {| BASE_URL := backendUrl; BACKEND_URL := backendUrl; API_URL := backendUrl |}.

(** [WS_URL: backendUrl.replace('http', 'ws')] *)
Definition WS_URL (backendUrl : jsstring) : jsstring :=
  replace_first backendUrl (lit "http") (lit "ws").

(** [getWebSocketUrl(path)], for the [WS_URL] of [backendUrl]. *)
Definition getWebSocketUrl (backendUrl path : jsstring) : jsstring :=
  if nonempty path then WS_URL backendUrl ++ path else WS_URL backendUrl.

End ApiConfigFile.

(* ===================================================================== *)
(** * The backend health service: subscriptions and the timer *)
(* ===================================================================== *)

Module HealthMonitoring.
Import BackendHealthService.

Definition with_listeners (ls : list nat) (svc : Service) : Service :=
  {| healthStatus := healthStatus svc;
     listeners := ls;
     healthCheckInterval := healthCheckInterval svc |}.





(** The service object before its constructor body runs. *)
Definition new_service : Service :=
  {| healthStatus := None; listeners := []; healthCheckInterval := false |}.

Section WithPlatform.
Context {P : Platform}.

(** Force a health check. *)
Definition forceHealthCheck (svc : Service) : M (HealthStatus * Service) :=
  checkHealth svc.

(** Start continuous health monitoring: an immediate probe, and the timer
    is armed. *)
Definition startHealthMonitoring (svc : Service) : M Service :=
  let* r := checkHealth svc in
  ret {| healthStatus := healthStatus (snd r);
         listeners := listeners (snd r);
         healthCheckInterval := true |}.

(** One expiry of the 30 second interval: the platform runs the callback
    [() => this.checkHealth()] as long as the timer has not been cleared. *)
Definition interval_fires (svc : Service) : M Service :=
  if healthCheckInterval svc then
    let* r := checkHealth svc in ret (snd r)
  else ret svc.

Fixpoint interval_fires_times (n : nat) (svc : Service) : M Service :=
  match n with
  | O => ret svc
  | S n' =>
      let* svc' := interval_fires svc in
      interval_fires_times n' svc'
  end.

End WithPlatform.

(** Get backend URL with health-aware fallback; [IS_DEVELOPMENT] and
    [DEV_FALLBACK] are the constants of [API_CONFIG]. *)
Definition getHealthyBackendUrl (IS_DEVELOPMENT : bool) (DEV_FALLBACK : jsstring)
    (svc : Service) : M jsstring :=
  let* cfg := get_config in
  ret (if isBackendReady svc then BASE_URL cfg
       else if IS_DEVELOPMENT then DEV_FALLBACK
       else BASE_URL cfg).

End HealthMonitoring.

(* ===================================================================== *)
(** * The backend connection manager: construction and refresh *)
(* ===================================================================== *)

Module ConnectionManagerLifecycle.
Import BackendConnectionManager.

Definition FALLBACK_URLS : list jsstring :=
  [lit "https://veilos-backend.onrender.com";
   lit "http://localhost:3001";
   lit "http://localhost:3000"].

(** The field initialisers: [currentBackendUrl = API_CONFIG.BASE_URL]. *)
Definition new_manager : M Manager :=
  let* cfg := get_config in
  ret {| attempts := [];
         currentBackendUrl := BASE_URL cfg;
         fallbackUrls := FALLBACK_URLS |}.

Section WithPlatform.
Context {P : Platform}.

(** [initialize()]: start with health check. *)
Definition initialize (m : Manager) : M Manager :=
  let* r := findHealthyBackend m in ret (snd r).

(** [new BackendConnectionManager()] *)
Definition construct : M Manager :=
  let* m := new_manager in initialize m.

(** Force re-evaluation of backend health. *)
Definition refreshBackendConnection (m : Manager) : M (jsstring * Manager) :=
  findHealthyBackend m.

End WithPlatform.

End ConnectionManagerLifecycle.

(* ===================================================================== *)
(** * Results and toasts named in the statements *)
(* ===================================================================== *)

Module Outcomes.
Import EmergencyApiHandler ApiService.

(** The toast of [emergencyApiRequest] for an HTML body. *)
Definition connection_issue : Toast :=
  {| title := lit "Backend Connection Issue";
     description := lit "The server is currently unavailable. Using offline mode.";
     variant := lit "destructive" |}.

(** The result of [emergencyApiRequest] for an HTML body. *)
Definition html_down : APIFallbackResponse :=
  {| success := false;
     data := None;
     error := Some (JString (lit "Backend server is unavailable - returned HTML instead of JSON"));
     isEmergencyMode := Some true |}.

(** A failure of [apiRequest]. *)
Definition failure (message : jsstring) (st : Z) : APIResponse :=
  {| r_success := false;
     r_data := None;
     r_error := Some (JString message);
     r_status := st;
     r_message := None |}.

(** What [apiRequest] passes on of the result of [emergencyApiRequest]. *)
Definition passed_on (emergencyResult : APIFallbackResponse) (st : Z) : APIResponse :=
  {| r_success := success emergencyResult;
     r_data := data emergencyResult;
     r_error := error emergencyResult;
     r_status := st;
     r_message := None |}.

(** The world after [n] requests for [u] and the toasts [ts]. *)
Definition after_requests (u : jsstring) (n : nat) (ts : list Toast) (w : World) : World :=
  with_toasts (toasts w ++ ts) (with_fetched (fetched w ++ replicate n u) w).

End Outcomes.

(* ===================================================================== *)
(** * Conditions on the world used in the statements *)
(* ===================================================================== *)

Module Conditions.

(** The [k]-th request of the world, when it asks for [u], is answered by
    a body that the HTML-response detector takes for HTML. *)
Definition answers_html (w : World) (k : nat) (u : jsstring) : Prop :=
  exists r t,
    net w k u = Responded r /\ body r = BodyText t /\
    EmergencyApiHandler.isHTMLResponse t = true.

(** The address [apiRequest] asks for. *)
Definition request_url (w : World) (endpoint : jsstring) : jsstring :=
  fst (getApiUrl endpoint w).

End Conditions.

(* ===================================================================== *)
(** * src/components/admin/BackendStatusIndicator.tsx *)
(* ===================================================================== *)

Module BackendStatusIndicator.
Import BackendHealthService BackendConnectionManager HealthMonitoring
  ConnectionManagerLifecycle.

(** The "Success Rate" cell.  [percent] stands for the rendering
    [x => `${Math.round(x * 100)}%`], whose floating-point product is not
    modelled. *)
Definition successRateLabel (percent : number -> jsstring) (stats : Stats) : jsstring :=
  if (0 <? totalAttempts stats)%nat then percent (successRate stats)
  else lit "N/A".

(** [x > 0] *)
Definition positive (x : number) : bool :=
  match x with
  | NaN => false
  | Infinity negative => negb negative
  | Finite q => negb (Qle_bool q 0)
  end.

(** [`${x}`] for an integer-valued number. *)
Definition integer_to_string (x : number) : jsstring :=
  match x with
  | NaN => lit "NaN"
  | Infinity negative => if negative then lit "-Infinity" else lit "Infinity"
  | Finite q => num_to_string (Qfloor q)
  end.

(** The "Avg Latency" cell. *)
Definition averageLatencyLabel (stats : Stats) : jsstring :=
  if positive (averageLatency stats)
  then integer_to_string (averageLatency stats) ++ lit "ms"
  else lit "N/A".

Section WithPlatform.
Context {P : Platform}.

(** [handleRefresh]: the two awaited calls (the [isRefreshing] flag is
    set before and cleared after them). *)
Definition handleRefresh (m : Manager) (svc : Service) : M (Manager * Service) :=
  let* r1 := refreshBackendConnection m in
  let* r2 := forceHealthCheck svc in
  ret (snd r1, snd r2).

End WithPlatform.

End BackendStatusIndicator.

(* ===================================================================== *)
(** * The emergency mode context *)
(* ===================================================================== *)

Module EmergencyModeContext.

(** The three pieces of state of [EmergencyModeProvider]. *)
Record State : Type := {
  isEmergencyMode : bool;
  isBackendOnline : bool;
  emergencyPosts : list json;
}.

(** [useState(false)], [useState(true)], [useState([])] *)
Definition initial : State :=
  {| isEmergencyMode := false; isBackendOnline := true; emergencyPosts := [] |}.

Definition offline_enabled : Toast :=
  {| title := lit "Offline Mode Enabled";
     description := lit "Backend is unavailable. Using local storage.";
     variant := lit "destructive" |}.

Definition back_online : Toast :=
  {| title := lit "Back Online";
     description := lit "Backend connection restored!";
     variant := lit "default" |}.

Definition with_mode (enabled : bool) (st : State) : State :=
  {| isEmergencyMode := enabled;
     isBackendOnline := isBackendOnline st;
     emergencyPosts := emergencyPosts st |}.

Definition with_online (online : bool) (st : State) : State :=
  {| isEmergencyMode := isEmergencyMode st;
     isBackendOnline := online;
     emergencyPosts := emergencyPosts st |}.

(** [checkStatus], run on mount and every 30 seconds, with the state of
    the render that started it. *)
Definition checkStatus (st : State) : M State :=
  let* isOnline := EmergencyApiHandler.checkBackendHealth in
  let st1 := with_online isOnline st in
  if negb isOnline && negb (isEmergencyMode st) then
    toast offline_enabled ;; ret (with_mode true st1)
  else if isOnline && isEmergencyMode st then
    toast back_online ;; ret (with_mode false st1)
  else ret st1.

(** [setEmergencyMode(enabled)] *)
Definition setEmergencyMode (enabled : bool) (st : State) : State :=
  with_mode enabled st.

(** [refreshBackendStatus] *)
Definition refreshBackendStatus (st : State) : M State :=
  let* isOnline := EmergencyApiHandler.checkBackendHealth in
  let st1 := with_online isOnline st in
  ret (if negb isOnline then with_mode true st1 else st1).

(** [addEmergencyPost(post)]: [prev => [post, ...prev]] *)
Definition addEmergencyPost (post : json) (st : State) : State :=
  {| isEmergencyMode := isEmergencyMode st;
     isBackendOnline := isBackendOnline st;
     emergencyPosts := post :: emergencyPosts st |}.

End EmergencyModeContext.

(* ===================================================================== *)
(** * The data context: creating a post *)
(* ===================================================================== *)

Module VeiloDataContext.
Import ApiService.

(** What [useAuth()] provides; only the user's id is read. *)
Record Auth : Type := {
  isAuthenticated : bool;
  user : option json;
}.

(** The posts shown and the emergency mode context. *)
Record State : Type := {
  posts : list json;
  emergency : EmergencyModeContext.State;
}.

Definition authentication_required : Toast :=
  {| title := lit "Authentication required";
     description := lit "Please log in to create posts.";
     variant := lit "destructive" |}.

Definition saved_offline : Toast :=
  {| title := lit "Post saved offline";
     description := lit "Your post will sync when the server is back online";
     variant := lit "default" |}.

Definition post_created : Toast :=
  {| title := lit "Post created";
     description := lit "Your post has been published successfully";
     variant := lit "default" |}.

Definition failed_to_create (text : jsstring) : Toast :=
  {| title := lit "Failed to create post";
     description := text;
     variant := lit "destructive" |}.

Definition error_toast : Toast :=
  {| title := lit "Error";
     description := lit "Failed to create post. Please try again.";
     variant := lit "destructive" |}.

(** A member of an object literal whose value is an optional argument; an
    argument that was not given (its value would be [undefined], which
    neither [JSON.stringify] nor any reader of the post tells apart from an
    absent member) gives no member. *)
Definition optional (k : jsstring) (v : option jsstring) : list (jsstring * json) :=
  match v with
  | Some s => [(k, JString s)]
  | None => []
  end.

(** [{ content, feeling, topic, wantsExpertHelp, authorId: user.id,
       anonymous: true }] *)
Definition make_postData (content : jsstring) (feeling topic : option jsstring)
    (wantsExpertHelp : bool) (u : json) : json :=
  JObject ([(lit "content", JString content)]
           ++ optional (lit "feeling") feeling
           ++ optional (lit "topic") topic
           ++ [(lit "wantsExpertHelp", JBool wantsExpertHelp)]
           ++ match get_prop u (lit "id") with
              | Some i => [(lit "authorId", i)]
              | None => []
              end
           ++ [(lit "anonymous", JBool true)]).

(** [response.success], [response.data] and [response.error] of what
    [postsService.create] returned. *)
Definition response_success (r : service_result) : bool :=
  match r with
  | FromApi a => r_success a
  | FromEmergency e => EmergencyApiHandler.success e
  | Offline _ => true
  | Throws => false
  end.

Definition response_data (r : service_result) : option json :=
  match r with
  | FromApi a => r_data a
  | FromEmergency e => EmergencyApiHandler.data e
  | Offline v => Some v
  | Throws => None
  end.

Definition response_error (r : service_result) : option json :=
  match r with
  | FromApi a => r_error a
  | FromEmergency e => EmergencyApiHandler.error e
  | Offline _ => None
  | Throws => None
  end.

Section WithPlatform.
Context {P : Platform}.

(** How the toast shows a value that is not a string. *)
Variable render : json -> jsstring.

(** [response.error || 'An unexpected error occurred'], as shown. *)
Definition shown_error (e : option json) : jsstring :=
  match e with
  | Some (JString s) => if nonempty s then s else lit "An unexpected error occurred"
  | Some v => if truthy v then render v else lit "An unexpected error occurred"
  | None => lit "An unexpected error occurred"
  end.

(** The branch taken when the response is not a success with data. *)
Definition report_failure (response : service_result) (st : State) : M (option json * State) :=
  match error_includes (response_error response) (lit "HTML instead of JSON") with
  | None => toast error_toast ;; ret (None, st)
  | Some true => ret (None, st)
  | Some false =>
      match error_includes (response_error response) (lit "Backend server is unavailable") with
      | None => toast error_toast ;; ret (None, st)
      | Some true => ret (None, st)
      | Some false =>
          toast (failed_to_create (shown_error (response_error response))) ;;
          ret (None, st)
      end
  end.

(** [createPost(content, feeling, topic, wantsExpertHelp)]; the result is
    the created post or [null]. *)
Definition createPost (auth : Auth) (content : jsstring) (feeling topic : option jsstring)
    (wantsExpertHelp : bool) (st : State) : M (option json * State) :=
  match isAuthenticated auth, user auth with
  | true, Some u =>
      if truthy u then
        let postData := make_postData content feeling topic wantsExpertHelp u in
        let* response := create postData in
        match response with
        | Throws => toast error_toast ;; ret (None, st)
        | _ =>
            match response_data response with
            | Some data =>
                if response_success response && truthy data then
                  let st1 := {| posts := data :: posts st; emergency := emergency st |} in
                  match get_prop data (lit "isEmergencyMode") with
                  | Some flag =>
                      if truthy flag then
                        toast saved_offline ;;
                        ret (Some data,
                             {| posts := posts st1;
                                emergency := EmergencyModeContext.addEmergencyPost data
                                               (emergency st1) |})
                      else toast post_created ;; ret (Some data, st1)
                  | None => toast post_created ;; ret (Some data, st1)
                  end
                else report_failure response st
            | None => report_failure response st
            end
        end
      else toast authentication_required ;; ret (None, st)
  | _, _ => toast authentication_required ;; ret (None, st)
  end.

End WithPlatform.

End VeiloDataContext.

(* ===================================================================== *)
(** * Concrete inputs *)
(* ===================================================================== *)

Module Examples.
Import Reference.

(** The text [{"a":"<title>"}]. *)
Definition title_json : jsstring :=
  lit "{" ++ dq ++ lit "a" ++ dq ++ lit ":" ++ dq ++ lit "<title>" ++ dq ++ lit "}".

(** The text [{"ok":true}]. *)
Definition plain_json : jsstring :=
  lit "{" ++ dq ++ lit "ok" ++ dq ++ lit ":true}".

(** An HTML page whose opening tag carries an attribute. *)
Definition html_page : jsstring :=
  lit "<html lang=en><head></head><p>Bad Gateway</p></html>".

(** A service that has not completed a probe yet. *)
Definition fresh_service : BackendHealthService.Service :=
  {| BackendHealthService.healthStatus := None;
     BackendHealthService.listeners := [];
     BackendHealthService.healthCheckInterval := true |}.

(** A body that is neither HTML nor JSON. *)
Definition garbled : jsstring := lit "upstream connect error".

(** The post data the application submits. *)
Definition some_post : json :=
  JObject [(lit "content", JString (lit "hello"));
           (lit "anonymous", JBool true)].

Definition status_of (h : health) : HealthStatus :=
  {| isHealthy := bool_decide (h = healthy);
     h_status := h;
     h_latency := 12;
     h_timestamp := lit "2025-01-01T00:00:00.000Z";
     h_error := None |}.

(** A service whose last probe recorded [h], with two subscribers. *)
Definition service_at (h : health) : BackendHealthService.Service :=
  {| BackendHealthService.healthStatus := Some (status_of h);
     BackendHealthService.listeners := [0%nat; 1%nat];
     BackendHealthService.healthCheckInterval := true |}.

Definition error_response (text : jsstring) : Response :=
  {| status := 500; statusText := lit "Internal Server Error"; body := BodyText text |}.

(** A backend that answers the health probe well, then with an error
    status, then not at all, then well again. *)
Definition flaky_backend (k : nat) (u : jsstring) : fetch_outcome :=
  match k with
  | 0%nat => Responded (ok_response plain_json)
  | 1%nat => Responded (error_response plain_json)
  | 2%nat => Rejected (ErrorObject (lit "The operation timed out."))
  | _ => Responded (ok_response plain_json)
  end.

Definition url_A : jsstring := lit "https://a.example".
Definition url_B : jsstring := lit "https://b.example".
Definition url_C : jsstring := lit "https://c.example".

(** A manager pinned to A, with fallbacks B and C. *)
Definition manager_ABC : BackendConnectionManager.Manager :=
  {| BackendConnectionManager.attempts := [];
     BackendConnectionManager.currentBackendUrl := url_A;
     BackendConnectionManager.fallbackUrls := [url_B; url_C] |}.

(** Only B is up. *)
Definition only_B_up (k : nat) (u : jsstring) : fetch_outcome :=
  if bool_decide (u = BackendConnectionManager.healthUrl url_B)
  then Responded (ok_response plain_json)
  else Rejected (ErrorObject (lit "Failed to fetch")).

(** Nothing is up. *)
Definition all_down (k : nat) (u : jsstring) : fetch_outcome :=
  match k with
  | 0%nat => Responded (ok_response html_page)
  | 1%nat => Responded (error_response plain_json)
  | _ => Rejected (ErrorObject (lit "Failed to fetch"))
  end.

Definition attempt (ok : bool) (ms : Z) : BackendConnectionManager.ConnectionAttempt :=
  {| BackendConnectionManager.url := url_A;
     BackendConnectionManager.timestamp := 1700000000000;
     BackendConnectionManager.success := ok;
     BackendConnectionManager.latency := Some ms;
     BackendConnectionManager.error := if ok then None else Some (lit "Failed to fetch") |}.

Definition manager_with (log : list BackendConnectionManager.ConnectionAttempt)
  : BackendConnectionManager.Manager :=
  {| BackendConnectionManager.attempts := log;
     BackendConnectionManager.currentBackendUrl := url_A;
     BackendConnectionManager.fallbackUrls := [url_B; url_C] |}.

(** A machine fast enough to create two posts within one millisecond. *)
Definition same_millisecond : World :=
  world_at (fun _ => 1700000000000) (fun _ _ => Rejected OtherValue).

Definition other_post : json :=
  JObject [(lit "content", JString (lit "second"));
           (lit "feeling", JString (lit "calm"))].

(** A heap with a log of two attempts at address 0. *)
Definition heap_two_attempts : AttemptLog.Heap :=
  {| AttemptLog.arrays := {[ 0%nat := [10%nat; 11%nat] ]};
     AttemptLog.objects := {[ 10%nat := attempt true 40; 11%nat := attempt false 5000 ]} |}.

Definition manager_obj : AttemptLog.ManagerObj :=
  {| AttemptLog.attempts_ref := 0%nat;
     AttemptLog.o_currentBackendUrl := url_A;
     AttemptLog.o_fallbackUrls := [url_B; url_C] |}.

(** [history.length = 0; history.push(x)] and a later [history.reverse()]. *)
Definition client_mutations : list (list AttemptLog.loc -> list AttemptLog.loc) :=
  [fun _ => []; fun elems => elems ++ [11%nat]; reverse].

(** A JSON answer whose text mentions an HTML tag. *)
Definition json_mentioning_html : jsstring :=
  lit "{" ++ dq ++ lit "hint" ++ dq ++ lit ":" ++ dq ++ lit "expected JSON, not <html>" ++ dq ++ lit "}".

(** The text [{"a":[1,-2.5e3,{"b":null}],"c":"xA"}]. *)
Definition nested_json : jsstring :=
  lit "{" ++ dq ++ lit "a" ++ dq ++ lit ":[1,-2.5e3,{" ++ dq ++ lit "b" ++ dq
  ++ lit ":null}]," ++ dq ++ lit "c" ++ dq ++ lit ":" ++ dq ++ lit "xA" ++ dq ++ lit "}".

(** A 502 page. *)
Definition bad_gateway : jsstring :=
  lit "<!DOCTYPE html><html><body>502</body></html>".

(** A backend that answers every request with the 502 page. *)
Definition serving_html (k : nat) (u : jsstring) : fetch_outcome :=
  Responded {| status := 502; statusText := lit "Bad Gateway"; body := BodyText bad_gateway |}.

(** A backend that answers with the 502 page once and with JSON after. *)
Definition html_then_json (k : nat) (u : jsstring) : fetch_outcome :=
  match k with
  | 0%nat => serving_html k u
  | _ => Responded (ok_response plain_json)
  end.

(** A world at rest whose emergency slot holds [text]. *)
Definition world_storing (text : jsstring) : World :=
  with_localStorage {[ EmergencyApiHandler.STORAGE_KEY := text ]}
    (world_answering (fun _ _ => Rejected OtherValue)).

(** Post data that tries to set the bookkeeping fields. *)
Definition forged_post : json :=
  JObject [(lit "content", JString (lit "hi"));
           (lit "status", JString (lit "synced"));
           (lit "isEmergencyMode", JBool false);
           (lit "id", JString (lit "mine"))].


(** A signed-in user and a visitor. *)
Definition signed_in : VeiloDataContext.Auth :=
  {| VeiloDataContext.isAuthenticated := true;
     VeiloDataContext.user := Some (JObject [(lit "id", JString (lit "u1"))]) |}.

Definition visitor : VeiloDataContext.Auth :=
  {| VeiloDataContext.isAuthenticated := false;
     VeiloDataContext.user := None |}.

(** The data context before any post is loaded. *)
Definition empty_feed : VeiloDataContext.State :=
  {| VeiloDataContext.posts := [];
     VeiloDataContext.emergency := EmergencyModeContext.initial |}.

(** A toast that shows nothing for a value that is not a string. *)
Definition render_blank (v : json) : jsstring := [].

(** The 502 page on every request, with a corrupt emergency slot. *)
Definition offline_and_corrupt : World :=
  with_localStorage {[ EmergencyApiHandler.STORAGE_KEY := lit "[{not json" ]}
    (world_answering serving_html).

End Examples.

(* ===================================================================== *)
(** * Facts about strings and JSON text *)
(* ===================================================================== *)

Section StringFacts.

Lemma startsWith_app (p s : jsstring) : startsWith (p ++ s) p = true.
Proof.
  induction p as [|c p IH]; simpl; [done|].
  by rewrite N.eqb_refl, IH.
Qed.

Lemma startsWith_head (c d : N) (s p : jsstring) :
  c <> d -> startsWith (d :: s) (c :: p) = false.
Proof.
  intros Hne. simpl. apply N.eqb_neq in Hne. by rewrite Hne.
Qed.

Lemma trimStart_spaces (ws s : jsstring) :
  forallb is_space ws = true -> trimStart (ws ++ s) = trimStart s.
Proof.
  induction ws as [|c ws IH]; simpl; [done|].
  intros [Hc Hws]%andb_prop. rewrite Hc. auto.
Qed.

Lemma trimStart_keeps_tail (a : jsstring) (c : N) (b : jsstring) :
  is_space c = false ->
  trimStart (a ++ c :: b) = trimStart a ++ c :: b.
Proof.
  intros Hc. induction a as [|x a IH]; simpl.
  - by rewrite Hc.
  - destruct (is_space x); [apply IH | done].
Qed.

(** Trimming the end never removes a prefix that ends in a visible
    character. *)
Lemma trimEnd_keeps_prefix (p : jsstring) (c : N) (s : jsstring) :
  is_space c = false ->
  exists s', trimEnd ((p ++ [c]) ++ s) = (p ++ [c]) ++ s'.
Proof.
  intros Hc. exists (rev (trimStart (rev s))). unfold trimEnd.
  rewrite !rev_app_distr. simpl.
  rewrite <- app_assoc. simpl.
  rewrite trimStart_keeps_tail by done.
  rewrite rev_app_distr. simpl. rewrite rev_involutive.
  by rewrite <- !app_assoc.
Qed.

Lemma trim_visible_prefix (ws p : jsstring) (c : N) (d : N) (s : jsstring) :
  forallb is_space ws = true -> is_space c = false -> is_space d = false ->
  exists s', trim (ws ++ c :: (p ++ [d]) ++ s) = c :: (p ++ [d]) ++ s'.
Proof.
  intros Hws Hc Hd. unfold trim.
  rewrite trimStart_spaces by done. simpl. rewrite Hc.
  destruct (trimEnd_keeps_prefix (c :: p) d s Hd) as [s' Hs'].
  exists s'. exact Hs'.
Qed.

End StringFacts.

Import EmergencyApiHandler.

(** A body made of white space, then the doctype marker, then anything, is
    detected. *)
Lemma isHTMLResponse_doctype_after_spaces (ws rest : jsstring) :
  forallb is_space ws = true ->
  isHTMLResponse (ws ++ lit "<!DOCTYPE" ++ rest) = true.
Proof.
  intros Hws. unfold isHTMLResponse.
  destruct (trim_visible_prefix ws (lit "!DOCTYP") 60%N 69%N rest Hws) as [s' Hs']; [done..|].
  change (lit "<!DOCTYPE" ++ rest) with (60%N :: (lit "!DOCTYP" ++ [69%N]) ++ rest).
  rewrite Hs'.
  change (60%N :: (lit "!DOCTYP" ++ [69%N]) ++ s') with (lit "<!DOCTYPE" ++ s').
  by rewrite startsWith_app.
Qed.

Section JsonFacts.
Import Reference Examples.

Lemma read_number_is_number (s r : jsstring) (v : json) :
  read_number s = Some (v, r) -> exists m e, v = JNumber m e.
Proof.
  unfold read_number. intros H.
  repeat case_match; simplify_eq; eauto.
Qed.

(** A value read as an object begins with a left brace. *)
Lemma read_value_object_brace (fuel : nat) (c : N) (s r : jsstring) ms :
  read_value fuel false (c :: s) = Some (JObject ms, r) -> c = 123%N.
Proof.
  destruct fuel as [|fuel]; simpl; [done|].
  destruct (N.eqb_spec c 123) as [->|_]; [done|].
  intros H.
  repeat case_match; simplify_eq.
  all: try match goal with
  | Hn : read_number _ = Some _ |- _ =>
      apply read_number_is_number in Hn as (? & ? & ?); done
  end.
Qed.

Lemma minified_json_object_brace (s : jsstring) :
  minified_json_object s = true -> exists r, s = 123%N :: r.
Proof.
  unfold minified_json_object. intros H.
  destruct s as [|c r].
  - done.
  - destruct (read_value _ _ _) as [[[] []]|] eqn:E; try done.
    apply read_value_object_brace in E as ->. eauto.
Qed.

(** The reader on a few texts. *)
Example json_parse_nested :
  json_parse nested_json
  = Some (JObject [(lit "a", JArray [JNumber 1 0; JNumber (-25) 2; JObject [(lit "b", JNull)]]);
                   (lit "c", JString (lit "xA"))]).
Proof. vm_compute. reflexivity. Qed.

Example json_parse_rejects :
  json_parse [] = None /\
  json_parse (lit "{a:1}") = None /\
  json_parse (lit "[1,]") = None /\
  json_parse (lit "01") = None /\
  json_parse (lit "nulls") = None /\
  json_parse (lit "<html></html>") = None.
Proof. vm_compute. split_and!; reflexivity. Qed.

Example json_parse_accepts_spaces :
  json_parse (lit " [ 1 , true ] ") = Some (JArray [JNumber 1 0; JBool true]) /\
  minified_json_object (lit "{ }") = false /\
  minified_json_object (lit "{}") = true /\
  minified_json_object (lit "[]") = false /\
  minified_json_object nested_json = true.
Proof. vm_compute. split_and!; reflexivity. Qed.

(** The writer's text reads back. *)
Example json_stringify_reads_back :
  json_parse (json_stringify (JObject [(lit "id", JString (lit "emergency_17"));
                                       (lit "n", JNumber (-3) 0);
                                       (lit "tags", JArray [JBool false; JNull])]))
  = Some (JObject [(lit "id", JString (lit "emergency_17"));
                   (lit "n", JNumber (-3) 0);
                   (lit "tags", JArray [JBool false; JNull])]).
Proof. vm_compute. reflexivity. Qed.

End JsonFacts.

Lemma trim_brace (r : jsstring) : exists s', trim (123%N :: r) = 123%N :: s'.
Proof.
  destruct (trimEnd_keeps_prefix [] 123%N r) as [s' Hs']; [done|].
  exists s'. unfold trim. simpl. exact Hs'.
Qed.

Section HtmlDetector.
Import EmergencyApiHandler Examples.

(** C1, as stated, fails: a minified JSON object whose string value holds
    a title tag is reported as HTML. *)
Lemma isHTMLResponse_json_with_title :
  minified_json_object title_json = true /\ isHTMLResponse title_json = true.
Proof. split; vm_compute; reflexivity. Qed.

(** The marker is compared case-sensitively: a page with a lower-case
    doctype and attributes on its tags is not detected. *)
Example isHTMLResponse_lowercase_doctype :
  isHTMLResponse (lit "<!doctype html><html lang=en><body class=app></body></html>") = false.
Proof. vm_compute. reflexivity. Qed.

(** A text that starts with a left brace and holds neither tag is not
    detected. *)
Lemma isHTMLResponse_brace (r : jsstring) :
  includes (123%N :: r) (lit "<title>") = false ->
  includes (123%N :: r) (lit "<body>") = false ->
  isHTMLResponse (123%N :: r) = false.
Proof.
  intros Ht Hb. unfold isHTMLResponse. rewrite Ht, Hb.
  destruct (trim_brace r) as [s' ->]. reflexivity.
Qed.

(** C1 (amended): every text whose trimmed form starts with the marker
    [<!DOCTYPE] is detected as HTML, in particular every text made of
    white space, the marker and anything after it; every minified JSON
    object text that contains neither [<title>] nor [<body>] is not
    detected. *)
Theorem isHTMLResponse_doctype_and_json :
  (forall s, startsWith (trim s) (lit "<!DOCTYPE") = true -> isHTMLResponse s = true) /\
  (forall ws rest,
     forallb is_space ws = true ->
     isHTMLResponse (ws ++ lit "<!DOCTYPE" ++ rest) = true) /\
  (forall s,
     minified_json_object s = true ->
     includes s (lit "<title>") = false ->
     includes s (lit "<body>") = false ->
     isHTMLResponse s = false).
Proof.
  split_and!.
  - intros s H. unfold isHTMLResponse. by rewrite H.
  - apply isHTMLResponse_doctype_after_spaces.
  - intros s [r ->]%minified_json_object_brace. apply isHTMLResponse_brace.
Qed.

Lemma isHTMLResponse_doctype_and_json_witness :
  isHTMLResponse (lit "  <!DOCTYPE html><html></html>  ") = true /\
  isHTMLResponse ([9; 10; 32]%N ++ lit "<!DOCTYPE" ++ lit " html>") = true /\
  isHTMLResponse plain_json = false.
Proof.
  destruct isHTMLResponse_doctype_and_json as (Htrim & Hspaces & Hjson).
  split_and!.
  - apply Htrim. reflexivity.
  - apply Hspaces. reflexivity.
  - apply Hjson; reflexivity.
Defined.

End HtmlDetector.

(* ===================================================================== *)
(** * The health service: classification of a probe *)
(* ===================================================================== *)

Section HealthProbe.
Import BackendHealthService Design Reference Examples.
Context {P : Platform}.

(** Recording a status stores it as the current one. *)
Lemma updateHealthStatus_records (svc : Service) (st : HealthStatus) (w : World) :
  healthStatus (fst (updateHealthStatus svc st w)) = Some st.
Proof.
  unfold updateHealthStatus, bind.
  destruct (notify_all _ _ _) as [[] w1].
  destruct (status_toast _ _); reflexivity.
Qed.

Local Ltac record_step :=
  match goal with
  | |- context [updateHealthStatus ?s ?st ?w] =>
      let Hr := fresh "Hr" in
      pose proof (updateHealthStatus_records s st w) as Hr;
      destruct (updateHealthStatus s st w) as [? ?]; simpl in Hr
  end.

(** C2 (amended): every completed probe records the status given by the
    rule, where an HTML body is one that contains [<!DOCTYPE] or [<html>]
    anywhere (the probe's own test, not the HTML-response detector). *)
Theorem checkHealth_follows_rule (svc : Service) (w : World) :
  let outcome := net w (length (fetched w)) (probe_url w) in
  let '(st, svc', _) := checkHealth svc w in
  health_rule looks_like_html outcome (h_status st) /\
  healthStatus svc' = Some st /\
  isHealthy st = bool_decide (h_status st = healthy).
Proof.
  unfold checkHealth, probe_failed, getApiUrl, bind, now, fetch, get_config, ret, probe_url.
  simpl.
  destruct (net w _ _) as [e|r]; simpl.
  - record_step. split_and!; [constructor | done | done].
  - destruct (body r) as [t|e] eqn:Hb; simpl.
    + destruct (looks_like_html t) eqn:Hh; simpl.
      * record_step. split_and!; [by eapply rule_html | done | done].
      * destruct (JSON_parse t) as [v|] eqn:Hp; simpl.
        -- record_step.
           destruct (ok r) eqn:Hok; (split_and!; [by econstructor | done | done]).
        -- record_step. split_and!; [by eapply rule_malformed | done | done].
    + record_step. split_and!; [by eapply rule_body_lost | done | done].
Qed.

End HealthProbe.

Section HealthProbeExample.
Import BackendHealthService EmergencyApiHandler Design Reference Examples.

(** C2, as stated, fails when "HTML body detected" is the verdict of the
    HTML-response detector: a page that opens with [<html lang=en>] is
    HTML for [isHTMLResponse], yet the probe records [degraded]. *)
Lemma checkHealth_html_page_degraded :
  let w := world_answering (fun _ _ => Responded (ok_response html_page)) in
  let st := fst (fst (checkHealth (P := platform) fresh_service w)) in
  isHTMLResponse html_page = true /\
  h_status st = degraded /\
  ~ health_rule (P := platform) isHTMLResponse
      (net w (length (fetched w)) (probe_url w)) (h_status st).
Proof.
  split_and!; [vm_compute; reflexivity .. |].
  intros H.
  assert (Hd : isHTMLResponse html_page = false);
    [| vm_compute in Hd; discriminate].
  change (h_status _) with degraded in H.
  inversion H; subst;
    match goal with
    | Hb : body _ = BodyText ?t, Hh : isHTMLResponse ?t = false |- _ =>
        simpl in Hb; injection Hb as <-; exact Hh
    end.
Qed.

(** Conversely, a JSON answer with status 200 whose text mentions
    [<html>] is not HTML for [isHTMLResponse], yet the probe records
    [down]. *)
Lemma checkHealth_json_mentioning_html_down :
  let w := world_answering (fun _ _ => Responded (ok_response json_mentioning_html)) in
  let st := fst (fst (checkHealth (P := platform) fresh_service w)) in
  isHTMLResponse json_mentioning_html = false /\
  is_Some (JSON_parse (Platform := platform) json_mentioning_html) /\
  h_status st = down.
Proof. split_and!; [vm_compute; reflexivity | by eexists | vm_compute; reflexivity]. Qed.

End HealthProbeExample.

(* ===================================================================== *)
(** * The request executors: a malformed body *)
(* ===================================================================== *)

Section MalformedBody.
Import EmergencyApiHandler ApiService Design Reference Examples.

(** C3, as stated, fails for [emergencyApiRequest]: its failure for a body
    that is neither HTML nor JSON is marked as emergency mode. *)
Lemma emergencyApiRequest_garbled_is_emergency :
  let w := world_answering (fun _ _ => Responded (ok_response garbled)) in
  isHTMLResponse garbled = false /\
  JSON_parse (Platform := platform) garbled = None /\
  isEmergencyMode (fst (emergencyApiRequest (P := platform) (lit "/api/posts") w)) = Some true.
Proof. split_and!; vm_compute; reflexivity. Qed.

Lemma nonempty_true (t : jsstring) : t <> [] -> nonempty t = true.
Proof. by destruct t. Qed.

(** C3 (amended): for a non-empty body that is not detected as HTML and
    fails JSON parsing,
    - [apiRequest] returns the failure "Invalid JSON response from server"
      with the HTTP status, after one request and nothing else;
    - [postsService.create] hands that failure to the caller and does not
      use the emergency store;
    - [emergencyApiRequest] returns the failure "Invalid response format
      from server" after one request and no toast, and marks it as
      emergency mode. *)
Theorem malformed_body_is_a_plain_failure {P : Platform} :
  (forall w endpoint r t,
     malformed_answer w (fst (getApiUrl endpoint w)) r t ->
     apiRequest endpoint w
     = (invalid_json (status r), snd (fetch (fst (getApiUrl endpoint w)) w))) /\
  (forall w postData r t,
     malformed_answer w (fst (getApiUrl (lit "/api/posts") w)) r t ->
     exists w',
       create postData w = (FromApi (invalid_json (status r)), w') /\
       localStorage w' = localStorage w /\
       toasts w' = toasts w /\
       length (fetched w') = S (length (fetched w))) /\
  (forall w u r t,
     malformed_answer w u r t ->
     emergencyApiRequest u w = (invalid_format, snd (fetch u w))).
Proof.
  assert (Hapi : forall w endpoint r t,
     malformed_answer w (fst (getApiUrl endpoint w)) r t ->
     apiRequest endpoint w
     = (invalid_json (status r), snd (fetch (fst (getApiUrl endpoint w)) w))).
  { intros w endpoint r t (Hnet & Hbody & Hne & Hhtml & Hparse).
    unfold apiRequest, bind.
    destruct (getApiUrl endpoint w) as [u w0] eqn:Hu.
    assert (w0 = w) as -> by (unfold getApiUrl, bind, get_config, ret in Hu; congruence).
    simpl in *. rewrite Hnet, Hbody, Hhtml.
    rewrite (nonempty_true _ Hne), Hparse. unfold ret. simpl.
    by rewrite ?Hhtml, ?andb_false_r. }
  split_and!.
  - exact Hapi.
  - intros w postData r t Hm.
    eexists. unfold create, apiPost, bind. rewrite (Hapi _ _ _ _ Hm).
    simpl. split_and!; try reflexivity.
    cbn. by rewrite length_app, Nat.add_comm.
  - intros w u r t (Hnet & Hbody & Hne & Hhtml & Hparse).
    unfold emergencyApiRequest, bind. simpl.
    rewrite Hnet, Hbody, Hhtml, (nonempty_true _ Hne), Hparse. reflexivity.
Qed.

Lemma garbled_is_malformed (u : jsstring) :
  malformed_answer (P := platform)
    (world_answering (fun _ _ => Responded (ok_response garbled))) u
    (ok_response garbled) garbled.
Proof.
  unfold malformed_answer.
  split_and!; [reflexivity | reflexivity | vm_compute; discriminate
              | vm_compute; reflexivity | vm_compute; reflexivity].
Defined.

Lemma malformed_body_is_a_plain_failure_witness :
  let w := world_answering (fun _ _ => Responded (ok_response garbled)) in
  let u := fst (getApiUrl (lit "/api/posts") w) in
  malformed_answer (P := platform) w u (ok_response garbled) garbled /\
  apiRequest (P := platform) (lit "/api/posts") w = (invalid_json 200, snd (fetch u w)) /\
  (exists w', create (P := platform) some_post w = (FromApi (invalid_json 200), w') /\
              localStorage w' = localStorage w /\
              toasts w' = toasts w /\
              length (fetched w') = S (length (fetched w))) /\
  emergencyApiRequest (P := platform) u w = (invalid_format, snd (fetch u w)).
Proof.
  intros w u.
  pose proof (malformed_body_is_a_plain_failure (P := platform)) as (Hapi & Hcreate & Hemergency).
  split_and!.
  - apply garbled_is_malformed.
  - apply (Hapi w (lit "/api/posts") (ok_response garbled) garbled), garbled_is_malformed.
  - apply (Hcreate w some_post (ok_response garbled) garbled), garbled_is_malformed.
  - apply (Hemergency w u (ok_response garbled) garbled), garbled_is_malformed.
Defined.

End MalformedBody.

(* ===================================================================== *)
(** * The health service: status-change toasts *)
(* ===================================================================== *)

Section StatusToasts.
Import BackendHealthService Reference Examples.

Lemma notify_all_toasts (ls : list nat) (st : HealthStatus) (w : World) :
  toasts (snd (notify_all ls st w)) = toasts w.
Proof.
  revert w. induction ls as [|l ls IH]; intros w; [done|].
  simpl. unfold bind, call_listener. simpl. by rewrite IH.
Qed.

(** What [updateHealthStatus] leaves behind: the new status, the same
    listeners, and at most one more toast. *)
Lemma updateHealthStatus_effect (svc : Service) (st : HealthStatus) (w : World) :
  let '(svc', w') := updateHealthStatus svc st w in
  healthStatus svc' = Some st /\
  listeners svc' = listeners svc /\
  toasts w' = toasts w ++
    match status_toast (h_status <$> healthStatus svc) (h_status st) with
    | Some t => [t]
    | None => []
    end.
Proof.
  unfold updateHealthStatus, bind.
  pose proof (notify_all_toasts (listeners svc) st w) as Hn.
  destruct (notify_all _ _ _) as [[] w1]. simpl in Hn.
  destruct (status_toast _ _); simpl; rewrite Hn; split_and!; try done.
  by rewrite app_nil_r.
Qed.

(** C4, as stated, fails: going from [degraded] to [down], two
    non-healthy states, shows the "Backend Offline" toast. *)
Lemma updateHealthStatus_degraded_to_down_toasts :
  let w := world_answering (fun _ _ => Rejected OtherValue) in
  h_status <$> healthStatus (service_at degraded) = Some degraded /\
  h_status (status_of down) = down /\
  toasts (snd (updateHealthStatus (service_at degraded) (status_of down) w))
  = toasts w ++ [backend_offline].
Proof. split_and!; reflexivity. Qed.

(** C4 (amended): recording a status shows at most one toast, and it shows
    - "Backend Online" exactly when a previous status existed, was not
      [healthy], and the new one is [healthy];
    - "Backend Offline" exactly when a previous status existed, was not
      [down], and the new one is [down] (so also from [degraded]);
    - nothing on the first probe, on an unchanged status, and on every
      change into [degraded] (so also from [healthy]). *)
Theorem updateHealthStatus_toast_cases (svc : Service) (st : HealthStatus) (w : World) :
  let w' := snd (updateHealthStatus svc st w) in
  let previous := h_status <$> healthStatus svc in
  (toasts w' = toasts w ++ [backend_online] /\
   (exists p, previous = Some p /\ p <> healthy) /\ h_status st = healthy) \/
  (toasts w' = toasts w ++ [backend_offline] /\
   (exists p, previous = Some p /\ p <> down) /\ h_status st = down) \/
  (toasts w' = toasts w /\
   (previous = None \/ previous = Some (h_status st) \/ h_status st = degraded)).
Proof.
  pose proof (updateHealthStatus_effect svc st w) as H.
  destruct (updateHealthStatus svc st w) as [svc' w']. destruct H as (_ & _ & Ht).
  simpl. rewrite Ht. clear Ht.
  destruct (healthStatus svc) as [prev|]; simpl.
  - destruct (h_status prev), (h_status st); simpl; rewrite ?app_nil_r;
      first [ by left; split_and!; [| eexists; split |]
            | by right; left; split_and!; [| eexists; split |]
            | by right; right; split; [| right; left]
            | by right; right; split; [| right; right] ].
  - rewrite app_nil_r. by right; right; split; [| left].
Qed.

End StatusToasts.

Section ProbeSequence.
Import BackendHealthService Reference Examples.

(** C5, as stated, fails: four probes that find the backend healthy,
    degraded, down and healthy again show "Backend Offline" once, not
    twice, and "Backend Online" once. *)
Lemma probe_sequence_one_offline_toast :
  let w := world_answering flaky_backend in
  let '(sts, _, w') := probe_times (P := platform) 4 fresh_service w in
  map h_status sts = [healthy; degraded; down; healthy] /\
  toasts w' = [backend_offline; backend_online] /\
  count_toast backend_offline (toasts w') <> 2%nat /\
  count_toast backend_online (toasts w') = 1%nat.
Proof. vm_compute. split_and!; [reflexivity | reflexivity | discriminate | reflexivity]. Qed.

(** A probe shows the toast of the status change it records, and no
    other. *)
Lemma checkHealth_effect {P : Platform} (svc : Service) (w : World) :
  let '(st, svc', w') := checkHealth svc w in
  healthStatus svc' = Some st /\
  toasts w' = toasts w ++
    match status_toast (h_status <$> healthStatus svc) (h_status st) with
    | Some t => [t]
    | None => []
    end.
Proof.
  unfold checkHealth, probe_failed, getApiUrl, bind, now, fetch, get_config, ret.
  simpl.
  assert (Hstep : forall st w0, toasts w0 = toasts w ->
            let '(svc', w') := updateHealthStatus svc st w0 in
            healthStatus svc' = Some st /\
            toasts w' = toasts w ++
              match status_toast (h_status <$> healthStatus svc) (h_status st) with
              | Some t => [t]
              | None => []
              end).
  { intros st w0 Hw0. pose proof (updateHealthStatus_effect svc st w0) as E.
    destruct (updateHealthStatus svc st w0) as [svc' w'].
    destruct E as (E1 & _ & E2). by rewrite E1, E2, Hw0. }
  destruct (net w _ _) as [e|r]; simpl.
  { match goal with
    | |- context [updateHealthStatus svc ?st ?w0] =>
        specialize (Hstep st w0 eq_refl); by destruct (updateHealthStatus svc st w0)
    end. }
  destruct (body r) as [t|e]; simpl;
    [destruct (looks_like_html t); simpl; [|destruct (JSON_parse t); simpl] |];
    match goal with
    | |- context [updateHealthStatus svc ?st ?w0] =>
        specialize (Hstep st w0 eq_refl); by destruct (updateHealthStatus svc st w0)
    end.
Qed.

(** C5 (amended): starting with no previous status, the sequence healthy,
    degraded, down, healthy shows exactly two toasts: one "Backend
    Offline" (on degraded to down) and then one "Backend Online" (on down
    to healthy); healthy to degraded shows none.  This holds for any four
    statuses recorded in a row, and for four probes in a row that return
    them. *)
Theorem healthy_degraded_down_healthy_toasts :
  (forall (svc : Service) (s1 s2 s3 s4 : HealthStatus) (w : World),
     healthStatus svc = None ->
     h_status s1 = healthy -> h_status s2 = degraded ->
     h_status s3 = down -> h_status s4 = healthy ->
     let w' := snd (record_all svc [s1; s2; s3; s4] w) in
     toasts w' = toasts w ++ [backend_offline; backend_online] /\
     count_toast backend_offline (toasts w') = S (count_toast backend_offline (toasts w)) /\
     count_toast backend_online (toasts w') = S (count_toast backend_online (toasts w))) /\
  (forall (P : Platform) (svc : Service) (w : World),
     healthStatus svc = None ->
     let '(sts, _, w') := probe_times 4 svc w in
     map h_status sts = [healthy; degraded; down; healthy] ->
     toasts w' = toasts w ++ [backend_offline; backend_online]).
Proof.
  split.
  - intros svc s1 s2 s3 s4 w H0 H1 H2 H3 H4. simpl. unfold bind.
    pose proof (updateHealthStatus_effect svc s1 w) as E1.
    destruct (updateHealthStatus svc s1 w) as [svc1 w1]. destruct E1 as (P1 & _ & T1).
    pose proof (updateHealthStatus_effect svc1 s2 w1) as E2.
    destruct (updateHealthStatus svc1 s2 w1) as [svc2 w2]. destruct E2 as (P2 & _ & T2).
    pose proof (updateHealthStatus_effect svc2 s3 w2) as E3.
    destruct (updateHealthStatus svc2 s3 w2) as [svc3 w3]. destruct E3 as (P3 & _ & T3).
    pose proof (updateHealthStatus_effect svc3 s4 w3) as E4.
    destruct (updateHealthStatus svc3 s4 w3) as [svc4 w4]. destruct E4 as (_ & _ & T4).
    rewrite H0 in T1. rewrite P1 in T2. rewrite P2 in T3. rewrite P3 in T4.
    simpl in T1, T2, T3, T4.
    rewrite H1, H2 in T2. rewrite H2, H3 in T3. rewrite H3, H4 in T4.
    simpl in T1, T2, T3, T4.
    rewrite app_nil_r in T1, T2.
    assert (Ht : toasts w4 = toasts w ++ [backend_offline; backend_online]).
    { rewrite T4, T3, T2, T1. by rewrite <- app_assoc. }
    unfold ret. simpl. rewrite Ht. split; [done|].
    unfold count_toast. rewrite !filter_app, !length_app.
    split; (rewrite Nat.add_comm; reflexivity).
  - intros P svc w H0. simpl. unfold bind.
    pose proof (checkHealth_effect svc w) as E1.
    destruct (checkHealth svc w) as [[s1 svc1] w1]. destruct E1 as (P1 & T1). simpl.
    pose proof (checkHealth_effect svc1 w1) as E2.
    destruct (checkHealth svc1 w1) as [[s2 svc2] w2]. destruct E2 as (P2 & T2). simpl.
    pose proof (checkHealth_effect svc2 w2) as E3.
    destruct (checkHealth svc2 w2) as [[s3 svc3] w3]. destruct E3 as (P3 & T3). simpl.
    pose proof (checkHealth_effect svc3 w3) as E4.
    destruct (checkHealth svc3 w3) as [[s4 svc4] w4]. destruct E4 as (_ & T4). simpl.
    intros [= H1 H2 H3 H4].
    rewrite H0 in T1. rewrite P1 in T2. rewrite P2 in T3. rewrite P3 in T4.
    simpl in T1, T2, T3, T4.
    rewrite H1, H2 in T2. rewrite H2, H3 in T3. rewrite H3, H4 in T4.
    simpl in T1, T2, T3, T4.
    rewrite app_nil_r in T1, T2.
    rewrite T4, T3, T2, T1. by rewrite <- app_assoc.
Qed.

Lemma healthy_degraded_down_healthy_toasts_witness :
  let w := world_answering flaky_backend in
  (let w' := snd (record_all fresh_service
                   [status_of healthy; status_of degraded; status_of down; status_of healthy] w) in
   toasts w' = toasts w ++ [backend_offline; backend_online] /\
   count_toast backend_offline (toasts w') = S (count_toast backend_offline (toasts w)) /\
   count_toast backend_online (toasts w') = S (count_toast backend_online (toasts w))) /\
  (let '(sts, _, w') := probe_times (P := platform) 4 fresh_service w in
   map h_status sts = [healthy; degraded; down; healthy] /\
   toasts w' = toasts w ++ [backend_offline; backend_online]).
Proof.
  intros w.
  destruct healthy_degraded_down_healthy_toasts as [Hrecord Hprobe].
  split.
  - apply (Hrecord fresh_service
             (status_of healthy) (status_of degraded) (status_of down) (status_of healthy));
      reflexivity.
  - specialize (Hprobe platform fresh_service w eq_refl).
    destruct (probe_times 4 fresh_service w) as [[sts svc'] w'] eqn:Hrun.
    assert (Hsts : map h_status sts = [healthy; degraded; down; healthy]).
    { apply (f_equal (fun r => map h_status (fst (fst r)))) in Hrun.
      simpl in Hrun. rewrite <- Hrun. vm_compute. reflexivity. }
    split; [exact Hsts | exact (Hprobe Hsts)].
Defined.

End ProbeSequence.

(* ===================================================================== *)
(** * The connection manager: finding a healthy backend *)
(* ===================================================================== *)

Section FindHealthyBackend.
Import BackendConnectionManager Reference Examples.
Context {P : Platform}.

(** One probe: one request, one attempt for the probed backend, nothing
    else. *)
Lemma testBackendConnection_effect (u : jsstring) (w : World) :
  let '(a, w') := testBackendConnection u w in
  url a = u /\
  success a = probe_succeeds (net w (length (fetched w)) (healthUrl u)) /\
  fetched w' = fetched w ++ [healthUrl u] /\
  net w' = net w /\
  toasts w' = toasts w /\
  API_CONFIG w' = API_CONFIG w.
Proof.
  unfold testBackendConnection, connection_failed, probe_succeeds, bind, ret.
  simpl.
  destruct (net w _ _) as [e|r]; simpl; [done|].
  destruct (body r) as [t|e]; simpl; [|done].
  destruct (includes t (lit "<!DOCTYPE") || includes t (lit "<html>")); simpl; [done|].
  destruct (JSON_parse t) as [v|] eqn:Hp; simpl.
  - split_and!; try done.
  - split_and!; try done.
Qed.

(** The loop stops at the first backend whose probe succeeds. *)
Lemma try_urls_first_success (failed : list jsstring) (u : jsstring) (rest : list jsstring)
    (m : Manager) (w : World) :
  (forall i v, failed !! i = Some v -> probe_succeeds (probe_outcome w i v) = false) ->
  probe_succeeds (probe_outcome w (length failed) u) = true ->
  let '(found, m', w') := try_urls (failed ++ u :: rest) m w in
  found = Some u /\
  currentBackendUrl m' = u /\
  fallbackUrls m' = fallbackUrls m /\
  API_CONFIG w' = {| BASE_URL := u; BACKEND_URL := u; API_URL := u |} /\
  fetched w' = fetched w ++ map healthUrl (failed ++ [u]) /\
  toasts w' = toasts w /\
  exists new,
    attempts m' = attempts m ++ new /\
    map url new = failed ++ [u] /\
    map success new = replicate (length failed) false ++ [true].
Proof.
  revert m w. induction failed as [|v failed IH]; intros m w Hfail Hok.
  - unfold probe_outcome in Hok. simpl in Hok. rewrite Nat.add_0_r in Hok.
    simpl. unfold bind.
    pose proof (testBackendConnection_effect u w) as E.
    destruct (testBackendConnection u w) as [a w1].
    destruct E as (Eu & Es & Ef & _ & Et & _).
    rewrite Es, Hok. simpl.
    split_and!; try done.
    exists [a]. simpl. by rewrite Eu, Es, Hok.
  - pose proof (Hfail 0%nat v eq_refl) as Hv.
    unfold probe_outcome in Hv. rewrite Nat.add_0_r in Hv.
    simpl. unfold bind.
    pose proof (testBackendConnection_effect v w) as E.
    destruct (testBackendConnection v w) as [a w1].
    destruct E as (Eu & Es & Ef & En & Et & _).
    rewrite Es, Hv.
    specialize (IH (push_attempt m a) w1).
    destruct (try_urls (failed ++ u :: rest) (push_attempt m a) w1) as [[found m'] w'].
    destruct IH as (-> & Hc & Hfb & Hcfg & Hfet & Hto & new & Hnew & Hurls & Hsucc).
    + intros i x Hx. unfold probe_outcome. rewrite Ef, En, length_app. simpl.
      specialize (Hfail (S i) x Hx). unfold probe_outcome in Hfail.
      by replace (length (fetched w) + 1 + i)%nat with (length (fetched w) + S i)%nat by lia.
    + unfold probe_outcome in *. rewrite Ef, En, length_app. simpl.
      simpl in Hok.
      by replace (length (fetched w) + 1 + length failed)%nat
        with (length (fetched w) + S (length failed))%nat by lia.
    + split_and!; try done.
      * rewrite Hfet, Ef. simpl. by rewrite <- app_assoc.
      * congruence.
      * exists (a :: new). simpl in Hnew. rewrite Hnew, <- app_assoc. simpl.
        by rewrite Eu, Es, Hv, Hurls, Hsucc.
Qed.

(** The loop runs to the end when no probe succeeds. *)
Lemma try_urls_all_fail (urls : list jsstring) (m : Manager) (w : World) :
  (forall i v, urls !! i = Some v -> probe_succeeds (probe_outcome w i v) = false) ->
  let '(found, m', w') := try_urls urls m w in
  found = None /\
  currentBackendUrl m' = currentBackendUrl m /\
  fallbackUrls m' = fallbackUrls m /\
  API_CONFIG w' = API_CONFIG w /\
  fetched w' = fetched w ++ map healthUrl urls /\
  toasts w' = toasts w /\
  exists new,
    attempts m' = attempts m ++ new /\
    map url new = urls /\
    map success new = replicate (length urls) false.
Proof.
  revert m w. induction urls as [|v urls IH]; intros m w Hfail.
  - simpl. rewrite app_nil_r. split_and!; try done.
    exists []. by rewrite app_nil_r.
  - pose proof (Hfail 0%nat v eq_refl) as Hv.
    unfold probe_outcome in Hv. rewrite Nat.add_0_r in Hv.
    simpl. unfold bind.
    pose proof (testBackendConnection_effect v w) as E.
    destruct (testBackendConnection v w) as [a w1].
    destruct E as (Eu & Es & Ef & En & Et & Ec).
    rewrite Es, Hv.
    specialize (IH (push_attempt m a) w1).
    destruct (try_urls urls (push_attempt m a) w1) as [[found m'] w'].
    destruct IH as (-> & Hc & Hfb & Hcfg & Hfet & Hto & new & Hnew & Hurls & Hsucc).
    + intros i x Hx. unfold probe_outcome. rewrite Ef, En, length_app. simpl.
      specialize (Hfail (S i) x Hx). unfold probe_outcome in Hfail.
      by replace (length (fetched w) + 1 + i)%nat with (length (fetched w) + S i)%nat by lia.
    + split_and!; try done; try congruence.
      * rewrite Hfet, Ef. simpl. by rewrite <- app_assoc.
      * exists (a :: new). simpl in Hnew. rewrite Hnew, <- app_assoc. simpl.
        by rewrite Eu, Es, Hv, Hurls, Hsucc.
Qed.

(** C6: the candidates are the pinned URL followed by the fallback URLs in
    declared order; if the probes of the candidates [failed] fail and the
    probe of the next candidate [u] succeeds, then [findHealthyBackend]
    requests exactly the health addresses of [failed] and of [u], in order
    (no later candidate is probed), records one attempt for each, pins [u],
    writes [u] to the shared configuration, shows no toast and returns
    [u]. *)
Theorem findHealthyBackend_pins_first_success
    (m : Manager) (w : World) (failed : list jsstring) (u : jsstring) (rest : list jsstring) :
  currentBackendUrl m :: fallbackUrls m = failed ++ u :: rest ->
  (forall i v, failed !! i = Some v -> probe_succeeds (probe_outcome w i v) = false) ->
  probe_succeeds (probe_outcome w (length failed) u) = true ->
  let '(result, m', w') := findHealthyBackend m w in
  result = u /\
  getCurrentBackendUrl m' = u /\
  fallbackUrls m' = fallbackUrls m /\
  API_CONFIG w' = {| BASE_URL := u; BACKEND_URL := u; API_URL := u |} /\
  fetched w' = fetched w ++ map healthUrl (failed ++ [u]) /\
  toasts w' = toasts w /\
  exists new,
    attempts m' = attempts m ++ new /\
    map url new = failed ++ [u] /\
    map success new = replicate (length failed) false ++ [true].
Proof.
  intros Hurls Hfail Hok. unfold findHealthyBackend, bind. rewrite Hurls.
  pose proof (try_urls_first_success failed u rest m w Hfail Hok) as H.
  destruct (try_urls (failed ++ u :: rest) m w) as [[found m'] w'].
  destruct H as (-> & H). exact (conj eq_refl H).
Qed.

(** C7: if the probe of every candidate fails, [findHealthyBackend] shows
    the "All Backends Offline" toast exactly once, leaves the pinned URL
    and the shared configuration as they were, and returns the pinned URL;
    that toast differs in title and text from the health service's
    "Backend Offline". *)
Theorem findHealthyBackend_all_offline (m : Manager) (w : World) :
  (forall i v, (currentBackendUrl m :: fallbackUrls m) !! i = Some v ->
               probe_succeeds (probe_outcome w i v) = false) ->
  let '(result, m', w') := findHealthyBackend m w in
  result = currentBackendUrl m /\
  getCurrentBackendUrl m' = currentBackendUrl m /\
  API_CONFIG w' = API_CONFIG w /\
  toasts w' = toasts w ++ [all_offline] /\
  count_toast all_offline (toasts w') = S (count_toast all_offline (toasts w)) /\
  fetched w' = fetched w ++ map healthUrl (currentBackendUrl m :: fallbackUrls m) /\
  title all_offline <> title BackendHealthService.backend_offline /\
  description all_offline <> description BackendHealthService.backend_offline.
Proof.
  intros Hfail. unfold findHealthyBackend, bind.
  pose proof (try_urls_all_fail _ m w Hfail) as H.
  destruct (try_urls _ m w) as [[found m'] w'].
  destruct H as (-> & Hc & _ & Hcfg & Hfet & Hto & _).
  simpl. rewrite Hto. unfold getCurrentBackendUrl.
  split_and!; try done.
  unfold count_toast. rewrite filter_app, length_app, Nat.add_comm. reflexivity.
Qed.

End FindHealthyBackend.

Section FindHealthyBackendExamples.
Import BackendConnectionManager Reference Examples.

Lemma findHealthyBackend_pins_first_success_witness :
  let w := world_answering only_B_up in
  let '(result, m', w') := findHealthyBackend (P := platform) manager_ABC w in
  result = url_B /\
  getCurrentBackendUrl m' = url_B /\
  fallbackUrls m' = [url_B; url_C] /\
  API_CONFIG w' = {| BASE_URL := url_B; BACKEND_URL := url_B; API_URL := url_B |} /\
  fetched w' = [healthUrl url_A; healthUrl url_B] /\
  toasts w' = [] /\
  exists new,
    attempts m' = new /\
    map url new = [url_A; url_B] /\
    map success new = [false; true].
Proof.
  intros w.
  apply (findHealthyBackend_pins_first_success (P := platform)
           manager_ABC w [url_A] url_B [url_C]).
  - reflexivity.
  - intros [|i] v Hv; [|done]. injection Hv as <-. vm_compute. reflexivity.
  - vm_compute. reflexivity.
Defined.

Lemma findHealthyBackend_all_offline_witness :
  let w := world_answering all_down in
  let '(result, m', w') := findHealthyBackend (P := platform) manager_ABC w in
  result = url_A /\
  getCurrentBackendUrl m' = url_A /\
  API_CONFIG w' = API_CONFIG w /\
  toasts w' = [all_offline] /\
  count_toast all_offline (toasts w') = 1%nat /\
  fetched w' = [healthUrl url_A; healthUrl url_B; healthUrl url_C] /\
  title all_offline <> title BackendHealthService.backend_offline /\
  description all_offline <> description BackendHealthService.backend_offline.
Proof.
  intros w.
  apply (findHealthyBackend_all_offline (P := platform) manager_ABC w).
  intros [|[|[|i]]] v Hv; try done; injection Hv as <-; vm_compute; reflexivity.
Defined.

End FindHealthyBackendExamples.

(* ===================================================================== *)
(** * The connection manager: statistics *)
(* ===================================================================== *)

Section ConnectionStats.
Import BackendConnectionManager Reference Examples.

Lemma foldl_latency_shift (z : Z) (log : list ConnectionAttempt) :
  foldl (fun sum a => sum + latency_or_zero a) z log = z + total_latency log.
Proof.
  unfold total_latency. revert z.
  induction log as [|a log IH]; intros z; simpl; [lia|].
  rewrite IH, (IH (0 + _)). lia.
Qed.

Lemma total_latency_cons (a : ConnectionAttempt) (log : list ConnectionAttempt) :
  total_latency (a :: log) = latency_or_zero a + total_latency log.
Proof. unfold total_latency at 1. simpl. by rewrite foldl_latency_shift. Qed.

(** Leaving out the successful attempts without a (non-zero) latency does
    not change the sum. *)
Lemma total_latency_has_latency (log : list ConnectionAttempt) :
  total_latency (filter (fun a => has_latency a = true) log)
  = total_latency (successes log).
Proof.
  unfold successes.
  induction log as [|a log IH]; [done|].
  assert (Hzero : has_latency a = false -> success a = true -> latency_or_zero a = 0).
  { unfold has_latency, latency_or_zero. intros H Hs. rewrite Hs in H. simpl in H.
    destruct (latency a) as [l|]; [|done].
    by destruct (Z.eqb_spec l 0). }
  assert (Hsucc : has_latency a = true -> success a = true).
  { unfold has_latency. by intros [? _]%andb_prop. }
  destruct (has_latency a) eqn:Hh, (success a) eqn:Hs.
  - rewrite !filter_cons_True by done. by rewrite !total_latency_cons, IH.
  - by specialize (Hsucc eq_refl).
  - rewrite filter_cons_False by congruence. rewrite filter_cons_True by done.
    rewrite total_latency_cons, IH, Hzero by done. lia.
  - by rewrite !filter_cons_False by congruence.
Qed.

Lemma total_latency_perm (l1 l2 : list ConnectionAttempt) :
  l1 ≡ₚ l2 -> total_latency l1 = total_latency l2.
Proof.
  induction 1 as [|a l1 l2 _ IH|a b l|l1 l2 l3 _ IH1 _ IH2].
  - done.
  - by rewrite !total_latency_cons, IH.
  - rewrite !total_latency_cons. lia.
  - congruence.
Qed.

(** The two figures as functions of the three counts. *)
Lemma getConnectionStats_figures (m : Manager) :
  let n := Z.of_nat (length (successes (attempts m))) in
  successRate (getConnectionStats m) = div n (Z.of_nat (length (attempts m))) /\
  averageLatency (getConnectionStats m)
  = Math_round (or_zero (div (total_latency (successes (attempts m))) n)).
Proof.
  unfold getConnectionStats. simpl. split; [done|].
  by rewrite <- total_latency_has_latency.
Qed.

Lemma getConnectionStats_perm (m : Manager) (log : list ConnectionAttempt) :
  attempts m ≡ₚ log ->
  successRate (getConnectionStats m)
  = div (Z.of_nat (length (successes log))) (Z.of_nat (length log)) /\
  averageLatency (getConnectionStats m)
  = Math_round (or_zero (div (total_latency (successes log))
                             (Z.of_nat (length (successes log))))).
Proof.
  intros Hp. destruct (getConnectionStats_figures m) as [-> ->].
  assert (Hs : successes (attempts m) ≡ₚ successes log)
    by (unfold successes; by rewrite Hp).
  by rewrite (Permutation_length Hp), (Permutation_length Hs), (total_latency_perm _ _ Hs).
Qed.

(** C8, as stated, fails: the average is rounded to an integer; successes
    with latencies 1 and 2 report 2, not the mean 1.5. *)
Lemma getConnectionStats_rounds_average :
  averageLatency (getConnectionStats (manager_with [attempt true 1; attempt true 2]))
  = Finite 2 /\
  ~ (2 == 3 # 2)%Q.
Proof. split; [vm_compute; reflexivity | discriminate]. Qed.

(** With an empty log the success rate is the quotient 0/0. *)
Lemma getConnectionStats_empty_log :
  successRate (getConnectionStats (manager_with [])) = NaN /\
  averageLatency (getConnectionStats (manager_with [])) = Finite 0.
Proof. split; vm_compute; reflexivity. Qed.

(** C8 (amended): with [n] successful attempts of total latency [T] in a
    log of [k] attempts,
    - for a non-empty log, [successRate] is [n / k];
    - [averageLatency] is 0 when [n = 0], and otherwise the integer
      nearest to the mean [T / n] (ties upwards, as [Math.round]);
    - a log of three successes with latencies 10, 20, 30 and one failure,
      in any order, reports [successRate] 0.75 and [averageLatency] 20. *)
Theorem getConnectionStats_rates (m : Manager) :
  let log := attempts m in
  let n := Z.of_nat (length (successes log)) in
  let T := total_latency (successes log) in
  (log <> [] ->
   exists q, successRate (getConnectionStats m) = Finite q /\
             (q == inject_Z n / inject_Z (Z.of_nat (length log)))%Q) /\
  (n = 0 -> averageLatency (getConnectionStats m) = Finite 0) /\
  (n <> 0 ->
   exists r : Z, averageLatency (getConnectionStats m) = Finite (inject_Z r) /\
     (inject_Z r <= inject_Z T / inject_Z n + (1 # 2))%Q /\
     (inject_Z T / inject_Z n + (1 # 2) < inject_Z (r + 1))%Q) /\
  (forall a1 a2 a3 f,
     log ≡ₚ [a1; a2; a3; f] ->
     success a1 = true -> latency a1 = Some 10 ->
     success a2 = true -> latency a2 = Some 20 ->
     success a3 = true -> latency a3 = Some 30 ->
     success f = false ->
     successRate (getConnectionStats m) = Finite (3 # 4) /\
     averageLatency (getConnectionStats m) = Finite 20).
Proof.
  intros log n T.
  destruct (getConnectionStats_figures m) as [Hrate Havg].
  fold log n T in Hrate, Havg.
  split_and!.
  - intros Hne. rewrite Hrate. unfold div.
    destruct (Z.eqb_spec (Z.of_nat (length log)) 0) as [H0|_].
    + destruct log; [done | simpl in H0; lia].
    + eexists. split; [reflexivity | apply Qred_correct].
  - intros Hn. rewrite Havg. unfold n, T in *.
    destruct (successes log); [reflexivity | simpl in Hn; lia].
  - intros Hn. rewrite Havg. unfold div.
    destruct (Z.eqb_spec n 0) as [|_]; [done|].
    set (mean := (inject_Z T / inject_Z n)%Q).
    assert (Hq : exists q, or_zero (Finite (Qred mean)) = Finite q /\ (q == mean)%Q).
    { simpl. destruct (Qeq_bool (Qred mean) 0) eqn:E.
      - exists 0%Q. split; [done|].
        apply Qeq_bool_eq in E. by rewrite <- E, Qred_correct.
      - exists (Qred mean). split; [done | apply Qred_correct]. }
    destruct Hq as (q & -> & Hq). simpl.
    exists (Qfloor (q + (1 # 2))). split; [done|].
    rewrite <- Hq. split; [apply Qfloor_le | apply Qlt_floor].
  - intros a1 a2 a3 f Hp H1 L1 H2 L2 H3 L3 Hf.
    destruct (getConnectionStats_perm m _ Hp) as [-> ->].
    unfold successes.
    rewrite !filter_cons_True by done.
    rewrite filter_cons_False by congruence.
    rewrite !total_latency_cons. unfold latency_or_zero.
    rewrite L1, L2, L3. split; vm_compute; reflexivity.
Qed.

Lemma getConnectionStats_rates_witness :
  let m := manager_with [attempt true 10; attempt false 5000; attempt true 20; attempt true 30] in
  (exists q, successRate (getConnectionStats m) = Finite q /\
             (q == inject_Z 3 / inject_Z 4)%Q) /\
  (exists r : Z, averageLatency (getConnectionStats m) = Finite (inject_Z r) /\
     (inject_Z r <= inject_Z 60 / inject_Z 3 + (1 # 2))%Q /\
     (inject_Z 60 / inject_Z 3 + (1 # 2) < inject_Z (r + 1))%Q) /\
  successRate (getConnectionStats m) = Finite (3 # 4) /\
  averageLatency (getConnectionStats m) = Finite 20 /\
  averageLatency (getConnectionStats (manager_with [attempt false 7])) = Finite 0.
Proof.
  intros m.
  destruct (getConnectionStats_rates m) as (Hrate & _ & Havg & Hexample).
  destruct (getConnectionStats_rates (manager_with [attempt false 7])) as (_ & Hzero & _).
  split_and!.
  - apply Hrate. discriminate.
  - apply Havg. discriminate.
  - apply (Hexample (attempt true 10) (attempt true 20) (attempt true 30) (attempt false 5000));
      try reflexivity.
    apply Permutation_skip.
    exact (Permutation_middle [attempt true 20; attempt true 30] [] (attempt false 5000)).
  - apply (Hexample (attempt true 10) (attempt true 20) (attempt true 30) (attempt false 5000));
      try reflexivity.
    apply Permutation_skip.
    exact (Permutation_middle [attempt true 20; attempt true 30] [] (attempt false 5000)).
  - apply Hzero. reflexivity.
Defined.

End ConnectionStats.

(* ===================================================================== *)
(** * The emergency store *)
(* ===================================================================== *)

Section EmergencyStore.
Import EmergencyApiHandler Design Reference Examples.

(** C9, as stated, fails: two posts created within the same millisecond
    get the same id. *)
Lemma emergencyCreatePost_same_millisecond :
  let '(r1, w1) := emergencyCreatePost (P := platform) some_post same_millisecond in
  let '(r2, w2) := emergencyCreatePost (P := platform) other_post w1 in
  success r1 = true /\ success r2 = true /\
  (data r1 ≫= post_id) = Some (JString (lit "emergency_1700000000000")) /\
  (data r2 ≫= post_id) = (data r1 ≫= post_id).
Proof. vm_compute. split_and!; reflexivity. Qed.

Lemma lit_inj (s1 s2 : string) : lit s1 = lit s2 -> s1 = s2.
Proof.
  revert s2. induction s1 as [|c s1 IH]; intros [|d s2] H; try done.
  unfold lit in H; fold lit in H. injection H as Hc Hs.
  f_equal; [|by apply IH].
  by rewrite <- (ascii_N_embedding c), <- (ascii_N_embedding d), Hc.
Qed.

(** Ids made from different times differ. *)
Lemma emergency_id_inj (t1 t2 : Z) :
  lit "emergency_" ++ num_to_string t1 = lit "emergency_" ++ num_to_string t2 -> t1 = t2.
Proof.
  intros H%app_inv_head. unfold num_to_string in H.
  by apply lit_inj, (inj pretty) in H.
Qed.

Section Objects.

Lemma set_prop_keys (k : jsstring) (v : json) (ms : list (jsstring * json)) :
  map fst (set_prop k v ms) = if decide (k ∈ map fst ms) then map fst ms else map fst ms ++ [k].
Proof.
  induction ms as [|[k' v'] ms IH].
  - rewrite decide_False; [done | apply not_elem_of_nil].
  - simpl. destruct (decide (k' = k)) as [->|Hne]; simpl.
    + rewrite decide_True; [done | by left].
    + rewrite IH. destruct (decide (k ∈ map fst ms)) as [Hin|Hnin].
      * rewrite decide_True; [done | by right].
      * rewrite decide_False; [done|].
        intros [?|?]%elem_of_cons; congruence.
Qed.

Lemma set_prop_NoDup (k : jsstring) (v : json) (ms : list (jsstring * json)) :
  NoDup (map fst ms) -> NoDup (map fst (set_prop k v ms)).
Proof.
  intros Hnd. rewrite set_prop_keys. case_decide; [done|].
  apply NoDup_app. split_and!; [done | | apply NoDup_singleton].
  intros x Hx ->%list_elem_of_singleton. done.
Qed.

Lemma assoc_last_not_in (k : jsstring) (ms : list (jsstring * json)) :
  k ∉ map fst ms -> assoc_last k ms = None.
Proof.
  induction ms as [|[k' v'] ms IH]; simpl; [done|].
  intros [Hne Hnin]%not_elem_of_cons. rewrite IH by done.
  by rewrite decide_False.
Qed.

(** Reading a property of an object under construction. *)
Lemma assoc_last_set_prop (k k' : jsstring) (v : json) (ms : list (jsstring * json)) :
  NoDup (map fst ms) ->
  assoc_last k (set_prop k' v ms) = if decide (k' = k) then Some v else assoc_last k ms.
Proof.
  induction ms as [|[k0 v0] ms IH]; simpl; intros Hnd.
  - by destruct (decide (k' = k)).
  - apply NoDup_cons in Hnd as [Hnin Hnd].
    destruct (decide (k0 = k')) as [->|Hne]; simpl.
    + destruct (decide (k' = k)) as [->|Hk].
      * by rewrite (assoc_last_not_in k ms).
      * done.
    + rewrite IH by done.
      destruct (decide (k' = k)) as [->|Hk]; [done|]. done.
Qed.

Lemma set_props_id (props ms : list (jsstring * json)) (k : jsstring) :
  NoDup (map fst ms) -> k ∉ map fst props ->
  NoDup (map fst (set_props props ms)) /\
  assoc_last k (set_props props ms) = assoc_last k ms.
Proof.
  unfold set_props. revert ms.
  induction props as [|[k' v'] props IH]; simpl; intros ms Hnd Hnin; [done|].
  apply not_elem_of_cons in Hnin as [Hne Hnin].
  destruct (IH (set_prop k' v' ms)) as [Hnd' ->]; [by apply set_prop_NoDup | done |].
  split; [done|]. rewrite assoc_last_set_prop by done.
  by rewrite decide_False.
Qed.

End Objects.

Context {P : Platform}.

(** A post keeps the time-based id unless the post data brings its own. *)
Lemma make_post_id (t_id t_created : Z) (postData : json) :
  lit "id" ∉ spread_keys postData ->
  post_id (make_post t_id t_created postData)
  = Some (JString (lit "emergency_" ++ num_to_string t_id)).
Proof.
  intros Hnin. unfold post_id, make_post, get_prop.
  destruct (set_props_id (spread_props postData)
              [(lit "id", JString (lit "emergency_" ++ num_to_string t_id))] (lit "id"))
    as [Hnd Hid]; [apply NoDup_singleton | done |].
  rewrite !assoc_last_set_prop by auto using set_prop_NoDup.
  rewrite Hid. reflexivity.
Qed.

(** One successful save: the post goes in front of the stored ones. *)
Lemma emergencyCreatePost_saves (d : json) (w : World) (old : list json) :
  let p := make_post (clock w (ticks w)) (clock w (S (ticks w))) d in
  let text := JSON_stringify (JArray (p :: old)) in
  store_holds w old ->
  quota w STORAGE_KEY text = true ->
  let '(r, w') := emergencyCreatePost d w in
  success r = true /\ data r = Some p /\
  localStorage w' = <[STORAGE_KEY := text]> (localStorage w) /\
  clock w' = clock w /\ ticks w' = S (S (ticks w)) /\ quota w' = quota w /\
  toasts w' = toasts w ++ [post_saved].
Proof.
  intros p text Hstore Hquota. unfold store_holds in Hstore.
  unfold emergencyCreatePost, bind.
  destruct (stored_text w) as [t w0] eqn:Ht.
  assert (w0 = w) as ->.
  { unfold stored_text, bind, getItem, ret in Ht. congruence. }
  simpl in Hstore. rewrite Hstore. simpl.
  fold p. fold text. unfold setItem. simpl. rewrite Hquota. simpl.
  done.
Qed.

Lemma store_holds_after_write (w : World) (posts : list json) :
  round_trips (JArray posts) ->
  localStorage w !! STORAGE_KEY = Some (JSON_stringify (JArray posts)) ->
  store_holds w posts.
Proof.
  intros [Hne Hrt] Hls. unfold store_holds, stored_text, bind, getItem, ret.
  simpl. rewrite Hls.
  destruct (JSON_stringify (JArray posts)); [done | exact Hrt].
Qed.

(** C9 (amended): if the store holds a list of posts (or nothing), the
    browser accepts both writes, the platform's JSON round trip holds for
    the two lists written, the post data bring no [id] of their own and
    the two calls read different times, then creating two offline posts in
    sequence succeeds twice, the two posts have distinct ids, and
    [getEmergencyPosts] returns the second post, then the first, then the
    posts stored before. *)
Theorem two_offline_posts_most_recent_first (w : World) (d1 d2 : json) (old : list json) :
  let t1 := clock w (ticks w) in
  let t2 := clock w (S (S (ticks w))) in
  let p1 := make_post t1 (clock w (S (ticks w))) d1 in
  let p2 := make_post t2 (clock w (S (S (S (ticks w))))) d2 in
  store_holds w old ->
  round_trips (JArray (p1 :: old)) ->
  round_trips (JArray (p2 :: p1 :: old)) ->
  quota w STORAGE_KEY (JSON_stringify (JArray (p1 :: old))) = true ->
  quota w STORAGE_KEY (JSON_stringify (JArray (p2 :: p1 :: old))) = true ->
  lit "id" ∉ spread_keys d1 ->
  lit "id" ∉ spread_keys d2 ->
  t1 <> t2 ->
  let '(r1, w1) := emergencyCreatePost d1 w in
  let '(r2, w2) := emergencyCreatePost d2 w1 in
  success r1 = true /\ data r1 = Some p1 /\
  success r2 = true /\ data r2 = Some p2 /\
  is_Some (post_id p1) /\ is_Some (post_id p2) /\ post_id p1 <> post_id p2 /\
  fst (getEmergencyPosts w2) = JArray (p2 :: p1 :: old) /\
  toasts w2 = toasts w ++ [post_saved; post_saved].
Proof.
  intros t1 t2 p1 p2 Hstore Hrt1 Hrt2 Hq1 Hq2 Hid1 Hid2 Hne.
  pose proof (emergencyCreatePost_saves d1 w old Hstore Hq1) as H1.
  destruct (emergencyCreatePost d1 w) as [r1 w1].
  destruct H1 as (Hs1 & Hd1 & Hls1 & Hc1 & Hk1 & Hqq1 & Hto1).
  fold t1 p1 in Hd1, Hls1.
  assert (Hstore1 : store_holds w1 (p1 :: old)).
  { apply store_holds_after_write; [done|]. by rewrite Hls1, lookup_insert_eq. }
  pose proof (emergencyCreatePost_saves d2 w1 (p1 :: old) Hstore1) as H2.
  rewrite Hc1, Hk1, Hqq1 in H2. fold t2 p2 in H2. specialize (H2 Hq2).
  destruct (emergencyCreatePost d2 w1) as [r2 w2].
  destruct H2 as (Hs2 & Hd2 & Hls2 & _ & _ & _ & Hto2).
  assert (Hstore2 : store_holds w2 (p2 :: p1 :: old)).
  { apply store_holds_after_write; [done|]. by rewrite Hls2, lookup_insert_eq. }
  unfold p1, p2. rewrite !make_post_id by done. fold p1 p2.
  split_and!; try done.
  - intros Heq. apply Hne, emergency_id_inj. congruence.
  - unfold getEmergencyPosts, bind, ret. unfold store_holds in Hstore2.
    destruct (stored_text w2) as [t w3]. simpl in *. by rewrite Hstore2.
  - rewrite Hto2, Hto1. by rewrite <- app_assoc.
Qed.

(** After [clearEmergencyPosts] the store lists no post. *)
Lemma clearEmergencyPosts_then_empty (w : World) :
  JSON_parse (lit "[]") = Some (JArray []) ->
  fst (getEmergencyPosts (snd (clearEmergencyPosts w))) = JArray [].
Proof.
  intros Hempty. unfold getEmergencyPosts, stored_text, clearEmergencyPosts, bind,
    getItem, removeItem, ret. simpl.
  by rewrite lookup_delete_eq, Hempty.
Qed.

(** A corrupt store lists no post and refuses new ones. *)
Lemma corrupt_store (w : World) (d : json) :
  JSON_parse (fst (stored_text w)) = None ->
  fst (getEmergencyPosts w) = JArray [] /\
  emergencyCreatePost d w = (save_failed, w).
Proof.
  intros Hbad. unfold getEmergencyPosts, emergencyCreatePost, bind.
  destruct (stored_text w) as [t w0] eqn:Ht.
  assert (w0 = w) as ->.
  { unfold stored_text, bind, getItem, ret in Ht. congruence. }
  simpl in *. by rewrite Hbad.
Qed.

End EmergencyStore.

Section EmergencyStoreExample.
Import EmergencyApiHandler Design Reference Examples.

Lemma two_offline_posts_most_recent_first_witness :
  let w := world_answering (fun _ _ => Rejected OtherValue) in
  let p1 := make_post (P := platform) 1000 1001 some_post in
  let p2 := make_post (P := platform) 1002 1003 other_post in
  let '(r1, w1) := emergencyCreatePost (P := platform) some_post w in
  let '(r2, w2) := emergencyCreatePost (P := platform) other_post w1 in
  success r1 = true /\ data r1 = Some p1 /\
  success r2 = true /\ data r2 = Some p2 /\
  is_Some (post_id p1) /\ is_Some (post_id p2) /\ post_id p1 <> post_id p2 /\
  fst (getEmergencyPosts (P := platform) w2) = JArray [p2; p1] /\
  toasts w2 = [post_saved; post_saved].
Proof.
  intros w.
  apply (two_offline_posts_most_recent_first (P := platform) w some_post other_post []).
  - vm_compute. reflexivity.
  - split; [vm_compute; discriminate | vm_compute; reflexivity].
  - split; [vm_compute; discriminate | vm_compute; reflexivity].
  - reflexivity.
  - reflexivity.
  - apply (bool_decide_unpack _). vm_compute. exact I.
  - apply (bool_decide_unpack _). vm_compute. exact I.
  - vm_compute. discriminate.
Defined.

End EmergencyStoreExample.

(* ===================================================================== *)
(** * The connection manager: the history is a copy *)
(* ===================================================================== *)

Section HistoryCopy.
Import BackendConnectionManager AttemptLog Reference Examples.

Lemma mutate_many_objects (a : loc) (fs : list (list loc -> list loc)) (h : Heap) :
  objects (mutate_many a fs h) = objects h.
Proof.
  unfold mutate_many. revert h. induction fs as [|f fs IH]; intros h; [done|].
  simpl. by rewrite IH.
Qed.

(** Mutating one array leaves every other array as it was. *)
Lemma mutate_many_other (a b : loc) (fs : list (list loc -> list loc)) (h : Heap) :
  a <> b -> arrays (mutate_many a fs h) !! b = arrays h !! b.
Proof.
  intros Hne. unfold mutate_many. revert h.
  induction fs as [|f fs IH]; intros h; [done|].
  simpl. rewrite IH. simpl. by rewrite lookup_alter_ne.
Qed.

Lemma read_array_frame (h h' : Heap) (b : loc) :
  arrays h' !! b = arrays h !! b -> objects h' = objects h ->
  read_array h' b = read_array h b.
Proof. unfold read_array. by intros -> ->. Qed.

(** The array handed out is new. *)
Lemma getConnectionHistory_ref_fresh (h h1 : Heap) (m : ManagerObj) (a : loc) :
  getConnectionHistory_ref h m = Some (a, h1) ->
  a <> attempts_ref m /\
  arrays h1 = <[a := default [] (arrays h !! attempts_ref m)]> (arrays h) /\
  objects h1 = objects h /\
  is_Some (arrays h !! attempts_ref m).
Proof.
  unfold getConnectionHistory_ref.
  destruct (arrays h !! attempts_ref m) as [elems|] eqn:Hm; [|done].
  intros [= <- <-]. simpl. split_and!; try done.
  intros Heq. apply (is_fresh (dom (arrays h))). rewrite Heq.
  by apply elem_of_dom.
Qed.

(** C10: the array returned by [getConnectionHistory] holds the attempts of
    the log and is a different array: whatever is done to it afterwards,
    the manager's log, a later [getConnectionHistory] and
    [getConnectionStats] are as before. *)
Theorem getConnectionHistory_is_a_copy
    (h h1 : Heap) (m : ManagerObj) (a : loc) (fs : list (list loc -> list loc)) :
  getConnectionHistory_ref h m = Some (a, h1) ->
  let h2 := mutate_many a fs h1 in
  read_array h1 a = getConnectionHistory <$> view h m /\
  view h2 m = view h m /\
  getConnectionStats_ref h2 m = getConnectionStats_ref h m /\
  exists a' h3,
    getConnectionHistory_ref h2 m = Some (a', h3) /\
    read_array h3 a' = getConnectionHistory <$> view h m.
Proof.
  intros Hcopy h2.
  destruct (getConnectionHistory_ref_fresh _ _ _ _ Hcopy) as (Hne & Harr & Hobj & [elems Hm]).
  rewrite Hm in Harr. simpl in Harr.
  assert (Hview : forall hx b, arrays hx !! b = Some elems -> objects hx = objects h ->
            read_array hx b = getConnectionHistory <$> view h m).
  { intros hx b Hb Ho. unfold view, read_array. rewrite Hb, Hm, Ho.
    by destruct (mapM _ elems). }
  assert (Hlog2 : arrays h2 !! attempts_ref m = Some elems).
  { unfold h2. rewrite mutate_many_other by done.
    by rewrite Harr, lookup_insert_ne. }
  assert (Hobj2 : objects h2 = objects h).
  { unfold h2. by rewrite mutate_many_objects. }
  assert (Hv : view h2 m = view h m).
  { unfold view. rewrite (read_array_frame h h2); [done | by rewrite Hm | done]. }
  split_and!.
  - apply Hview; [|done]. by rewrite Harr, lookup_insert_eq.
  - exact Hv.
  - unfold getConnectionStats_ref. by rewrite Hv.
  - unfold getConnectionHistory_ref. rewrite Hlog2.
    eexists _, _. split; [reflexivity|].
    apply Hview; simpl; [by rewrite lookup_insert_eq | done].
Qed.

Lemma getConnectionHistory_is_a_copy_witness :
  exists a h1,
    getConnectionHistory_ref heap_two_attempts manager_obj = Some (a, h1) /\
    let h2 := mutate_many a client_mutations h1 in
    read_array h2 a = Some [attempt false 5000] /\
    view h2 manager_obj = view heap_two_attempts manager_obj /\
    getConnectionStats_ref h2 manager_obj
    = getConnectionStats_ref heap_two_attempts manager_obj.
Proof.
  eexists _, _. split; [reflexivity|].
  split; [vm_compute; reflexivity|].
  split;
    eapply (getConnectionHistory_is_a_copy heap_two_attempts _ manager_obj _ client_mutations);
    reflexivity.
Defined.

(** The copy is shallow: the attempts themselves are shared, and a write
    to one of them through the copy is seen by the manager. *)
Lemma getConnectionHistory_shares_attempts :
  exists a h1 x,
    getConnectionHistory_ref heap_two_attempts manager_obj = Some (a, h1) /\
    arrays h1 !! a = Some [x; 11%nat] /\
    view (mutate_object x (fun _ => attempt false 0) h1) manager_obj
    <> view heap_two_attempts manager_obj.
Proof.
  eexists _, _, _. split; [reflexivity|].
  split; [vm_compute; reflexivity|].
  vm_compute. discriminate.
Qed.

End HistoryCopy.

(* ===================================================================== *)
(** * Further properties: the HTML detector *)
(* ===================================================================== *)

Section HtmlDetectorMore.
Import EmergencyApiHandler Reference Examples.

Lemma startsWith_app_r (s b p : jsstring) :
  startsWith s p = true -> startsWith (s ++ b) p = true.
Proof.
  revert s. induction p as [|c p IH]; intros s; simpl; [done|].
  destruct s as [|d s]; simpl; [done|].
  intros [-> Hs]%andb_prop. simpl. by apply IH.
Qed.

Lemma includes_app_r (s b p : jsstring) :
  includes s p = true -> includes (s ++ b) p = true.
Proof.
  induction s as [|d s IH]; simpl.
  - rewrite orb_false_r. intros H. destruct p; [|done].
    destruct b; reflexivity.
  - intros [H|H]%orb_prop.
    + pose proof (startsWith_app_r (d :: s) b p H) as H'. simpl in H'.
      by rewrite H'.
    + rewrite IH by done. apply orb_true_r.
Qed.

Lemma includes_app_l (a s p : jsstring) :
  includes s p = true -> includes (a ++ s) p = true.
Proof.
  intros H. induction a as [|c a IH]; simpl; [done|].
  rewrite IH. apply orb_true_r.
Qed.

(** A text that contains the pattern keeps containing it inside any
    larger text. *)
Lemma includes_embedded (a s b p : jsstring) :
  includes s p = true -> includes (a ++ s ++ b) p = true.
Proof. intros H. by apply includes_app_l, includes_app_r. Qed.

Lemma trimStart_blank (ws : jsstring) :
  forallb is_space ws = true -> trimStart ws = [].
Proof.
  induction ws as [|c ws IH]; simpl; [done|].
  intros [-> Hws]%andb_prop. auto.
Qed.

(** White space holds no pattern that starts with a visible character. *)
Lemma includes_blank (ws : jsstring) (c : N) (p : jsstring) :
  forallb is_space ws = true -> is_space c = false ->
  includes ws (c :: p) = false.
Proof.
  intros Hws Hc. induction ws as [|x ws IH]; [done|].
  simpl in Hws. apply andb_prop in Hws as [Hx Hws].
  cbn [includes startsWith]. rewrite IH by done.
  destruct (N.eqb_spec c x) as [->|_]; [congruence | done].
Qed.

(** Blank text, the empty text included, is never taken for HTML. *)
Theorem isHTMLResponse_blank (ws : jsstring) :
  forallb is_space ws = true -> isHTMLResponse ws = false.
Proof.
  intros Hws. unfold isHTMLResponse, trim.
  rewrite (trimStart_blank ws Hws).
  change (lit "<title>") with (60%N :: lit "title>").
  change (lit "<body>") with (60%N :: lit "body>").
  by rewrite !includes_blank.
Qed.

Lemma isHTMLResponse_blank_witness :
  isHTMLResponse [] = false /\ isHTMLResponse [32; 10; 9; 160]%N = false.
Proof. split; apply isHTMLResponse_blank; reflexivity. Defined.

(** A text that holds a title or a body tag is taken for HTML wherever it
    is embedded, also inside a JSON string. *)
Theorem isHTMLResponse_tag_anywhere (before s after : jsstring) :
  includes s (lit "<title>") = true \/ includes s (lit "<body>") = true ->
  isHTMLResponse (before ++ s ++ after) = true.
Proof.
  unfold isHTMLResponse. intros [H|H];
    rewrite (includes_embedded before s after _ H), ?orb_true_r; reflexivity.
Qed.

Lemma isHTMLResponse_tag_anywhere_witness :
  isHTMLResponse (lit "{" ++ dq ++ lit "page" ++ dq ++ lit ":" ++ dq
                  ++ lit "<html lang=en><body>502</body></html>" ++ dq ++ lit "}") = true.
Proof.
  apply (isHTMLResponse_tag_anywhere
           (lit "{" ++ dq ++ lit "page" ++ dq ++ lit ":" ++ dq)
           (lit "<html lang=en><body>502</body></html>") (dq ++ lit "}")).
  right. reflexivity.
Defined.

End HtmlDetectorMore.

(* ===================================================================== *)
(** * Further properties: the request executors *)
(* ===================================================================== *)

Section RequestExecutors.
Import EmergencyApiHandler ApiService Design Outcomes Conditions Reference Examples.

Lemma getApiUrl_pure (endpoint : jsstring) (w : World) :
  getApiUrl endpoint w = (request_url w endpoint, w).
Proof. reflexivity. Qed.

(** [emergencyApiRequest] on an HTML body. *)
Lemma emergencyApiRequest_html_effect {P : Platform} (w : World) (u : jsstring)
    (r : Response) (t : jsstring) :
  net w (length (fetched w)) u = Responded r -> body r = BodyText t ->
  isHTMLResponse t = true ->
  emergencyApiRequest u w = (html_down, after_requests u 1 [connection_issue] w).
Proof.
  intros Hnet Hbody Hhtml. unfold emergencyApiRequest, bind. simpl.
  by rewrite Hnet, Hbody, Hhtml.
Qed.

(** What [emergencyApiRequest] does in every case. *)
Lemma emergencyApiRequest_effect {P : Platform} (u : jsstring) (w : World) :
  let '(r, w') := emergencyApiRequest u w in
  fetched w' = fetched w ++ [u] /\
  localStorage w' = localStorage w /\
  API_CONFIG w' = API_CONFIG w /\
  ticks w' = ticks w /\
  (toasts w' = toasts w \/ exists t, toasts w' = toasts w ++ [t]) /\
  (success r = true -> toasts w' = toasts w /\ error r = None /\ is_Some (data r)) /\
  (success r = false -> is_Some (error r) /\ data r = None).
Proof.
  unfold emergencyApiRequest, network_error_result, bind, ret. simpl.
  repeat case_match; simplify_eq; simpl; split_and!; try done; eauto.
Qed.

(** For an HTML body [emergencyApiRequest] reports "backend unavailable",
    shows one toast and never consults [JSON.parse]: the outcome is the
    same on every platform. *)
Theorem emergencyApiRequest_html_without_parsing (P1 P2 : Platform) (w : World)
    (u : jsstring) :
  answers_html w (length (fetched w)) u ->
  emergencyApiRequest (P := P1) u w = emergencyApiRequest (P := P2) u w /\
  emergencyApiRequest (P := P1) u w
  = (html_down, after_requests u 1 [connection_issue] w).
Proof.
  intros (r & t & Hnet & Hbody & Hhtml).
  by rewrite !(emergencyApiRequest_html_effect w u r t).
Qed.

Lemma serving_html_answers (k : nat) (u : jsstring) (w : World) :
  net w = serving_html -> answers_html w k u.
Proof.
  intros Hnet. eexists _, bad_gateway. rewrite Hnet.
  split_and!; [reflexivity | reflexivity | vm_compute; reflexivity].
Defined.

Lemma emergencyApiRequest_html_without_parsing_witness :
  let w := world_answering serving_html in
  let broken := {| JSON_parse := fun _ => Some JNull; JSON_stringify := fun _ => [];
                   toISOString := fun _ => []; ToString := fun _ => [] |} in
  emergencyApiRequest (P := platform) (lit "/api/posts") w
  = emergencyApiRequest (P := broken) (lit "/api/posts") w /\
  emergencyApiRequest (P := platform) (lit "/api/posts") w
  = (html_down, after_requests (lit "/api/posts") 1 [connection_issue] w).
Proof.
  intros w broken.
  apply (emergencyApiRequest_html_without_parsing platform broken w).
  by apply serving_html_answers.
Defined.

(** When the first answer is HTML, [apiRequest] sends the same request a
    second time through [emergencyApiRequest] and reports the outcome of
    that second request together with the status of the first. *)
Theorem apiRequest_html_sends_again {P : Platform} (endpoint : jsstring) (w : World)
    (r : Response) (t : jsstring) :
  let u := request_url w endpoint in
  net w (length (fetched w)) u = Responded r -> body r = BodyText t ->
  isHTMLResponse t = true ->
  let '(second, w2) := emergencyApiRequest u (snd (fetch u w)) in
  apiRequest endpoint w = (passed_on second (status r), w2) /\
  fetched w2 = fetched w ++ [u; u].
Proof.
  intros u Hnet Hbody Hhtml.
  pose proof (emergencyApiRequest_effect u (snd (fetch u w))) as E.
  unfold apiRequest, bind. rewrite getApiUrl_pure. fold u.
  unfold fetch at 2. rewrite Hnet, Hbody, Hhtml.
  unfold fetch in E |- *. simpl in E |- *.
  destruct (emergencyApiRequest u _) as [second w2].
  destruct E as (Hf & _). split; [done|].
  by rewrite Hf, <- app_assoc.
Qed.

Lemma apiRequest_html_sends_again_witness :
  let w := world_answering html_then_json in
  let u := request_url w (lit "/api/posts") in
  let '(res, w') := apiRequest (P := platform) (lit "/api/posts") w in
  r_success res = true /\ r_status res = 502 /\ fetched w' = [u; u].
Proof.
  intros w u.
  pose proof (apiRequest_html_sends_again (P := platform) (lit "/api/posts") w
                (Build_Response 502 (lit "Bad Gateway") (BodyText bad_gateway)) bad_gateway
                eq_refl eq_refl) as H.
  specialize (H ltac:(vm_compute; reflexivity)).
  destruct (emergencyApiRequest _ _) as [second w2] eqn:E.
  destruct H as [-> Hf]. split_and!; [| reflexivity | exact Hf].
  apply (f_equal (fun x => success (fst x))) in E. simpl in E |- *. rewrite <- E.
  vm_compute. reflexivity.
Defined.

(** [apiRequest] sends one request, or the same request twice; it never
    touches the store, the shared configuration or the clock; a success
    carries data and no error and shows no toast; a failure carries an
    error. *)
Theorem apiRequest_frame {P : Platform} (endpoint : jsstring) (w : World) :
  let u := request_url w endpoint in
  let '(res, w') := apiRequest endpoint w in
  (fetched w' = fetched w ++ [u] \/ fetched w' = fetched w ++ [u; u]) /\
  localStorage w' = localStorage w /\
  API_CONFIG w' = API_CONFIG w /\
  ticks w' = ticks w /\
  (toasts w' = toasts w \/ exists t, toasts w' = toasts w ++ [t]) /\
  (r_success res = true ->
   toasts w' = toasts w /\ r_error res = None /\ is_Some (r_data res)) /\
  (r_success res = false -> is_Some (r_error res)).
Proof.
  intros u. unfold apiRequest, bind. rewrite getApiUrl_pure. fold u.
  pose proof (emergencyApiRequest_effect u (snd (fetch u w))) as E.
  unfold fetch in E |- *. simpl in E |- *.
  destruct (net w (length (fetched w)) u) as [e|r]; simpl.
  { split_and!; eauto; done. }
  destruct (body r) as [t|e]; simpl; [|split_and!; eauto; done].
  destruct (isHTMLResponse t) eqn:Hhtml.
  - destruct (emergencyApiRequest u _) as [second w2]. simpl.
    destruct E as (Hf & Hls & Hcfg & Hticks & Hto & Hok & Hfail).
    split_and!; try done.
    + right. by rewrite Hf, <- app_assoc.
    + intros Hs. by destruct (Hfail Hs).
  - clear E. unfold ret, handle_error.
    repeat case_match; simplify_eq; simpl; split_and!; eauto; done.
Qed.

(** An empty body is never parsed: with a 2xx status it is a success whose
    data is [null]; with another status it is the failure "API request
    failed". *)
Theorem apiRequest_empty_body {P : Platform} (endpoint : jsstring) (w : World)
    (r : Response) :
  let u := request_url w endpoint in
  net w (length (fetched w)) u = Responded r -> body r = BodyText [] ->
  apiRequest endpoint w
  = (if ok r
     then {| r_success := true; r_data := Some JNull; r_error := None;
             r_status := status r; r_message := None |}
     else failure (lit "API request failed") (status r),
     after_requests u 1 [] w).
Proof.
  intros u Hnet Hbody. unfold apiRequest, bind. rewrite getApiUrl_pure. fold u.
  unfold fetch. rewrite Hnet, Hbody. simpl.
  unfold after_requests. rewrite app_nil_r.
  by destruct (ok r).
Qed.

Lemma apiRequest_empty_body_witness :
  let w := world_answering (fun _ _ => Responded (ok_response [])) in
  let never := {| JSON_parse := fun _ => None; JSON_stringify := fun _ => [];
                  toISOString := fun _ => []; ToString := fun _ => [] |} in
  fst (apiRequest (P := never) (lit "/api/posts") w)
  = {| r_success := true; r_data := Some JNull; r_error := None;
       r_status := 200; r_message := None |}.
Proof.
  intros w never.
  by rewrite (apiRequest_empty_body (P := never) (lit "/api/posts") w (ok_response [])).
Defined.

(** A request that fails at the network level is reported with status 0
    and the error's message; [postsService.create] then returns that
    failure and does not save the post offline (unless the message itself
    speaks of HTML instead of JSON). *)
Theorem create_network_failure_not_saved {P : Platform} (postData : json) (w : World)
    (e : thrown) :
  let u := request_url w (lit "/api/posts") in
  let message := message_or e (lit "Unknown error occurred") in
  net w (length (fetched w)) u = Rejected e ->
  includes message (lit "HTML instead of JSON") = false ->
  create postData w = (FromApi (failure message 0), after_requests u 1 [] w).
Proof.
  intros u message Hnet Hmsg.
  unfold create, apiPost, apiRequest, bind. rewrite getApiUrl_pure. fold u.
  unfold fetch. rewrite Hnet. simpl. fold message. rewrite Hmsg.
  unfold after_requests. by rewrite app_nil_r.
Qed.

Lemma create_network_failure_not_saved_witness :
  let w := world_answering (fun _ _ => Rejected (ErrorObject (lit "Failed to fetch"))) in
  let '(res, w') := create (P := platform) some_post w in
  res = FromApi (failure (lit "Failed to fetch") 0) /\
  localStorage w' = localStorage w /\ toasts w' = [].
Proof.
  intros w.
  rewrite (create_network_failure_not_saved (P := platform) some_post w
             (ErrorObject (lit "Failed to fetch")) eq_refl);
    [done | vm_compute; reflexivity].
Defined.

End RequestExecutors.

(* ===================================================================== *)
(** * Further properties: the posts service and the emergency store *)
(* ===================================================================== *)

Section PostsService.
Import EmergencyApiHandler ApiService Design Outcomes Conditions Reference Examples.
Context {P : Platform}.

Lemma stored_text_pure (w : World) : snd (stored_text w) = w.
Proof. reflexivity. Qed.

Lemma stored_text_same_store (w1 w2 : World) :
  localStorage w1 = localStorage w2 -> fst (stored_text w1) = fst (stored_text w2).
Proof. unfold stored_text, bind, getItem, ret. simpl. by intros ->. Qed.

Lemma getEmergencyPosts_same_store (w1 w2 : World) :
  localStorage w1 = localStorage w2 ->
  fst (getEmergencyPosts w1) = fst (getEmergencyPosts w2).
Proof.
  intros H. unfold getEmergencyPosts, bind, ret.
  pose proof (stored_text_same_store w1 w2 H) as Ht.
  destruct (stored_text w1), (stored_text w2). simpl in *. by rewrite Ht.
Qed.

(** [apiRequest] when both the request and its repetition are answered
    with HTML. *)
Lemma apiRequest_html_twice (endpoint : jsstring) (w : World) :
  let u := request_url w endpoint in
  answers_html w (length (fetched w)) u ->
  answers_html w (S (length (fetched w))) u ->
  exists st,
    apiRequest endpoint w
    = (passed_on html_down st, after_requests u 2 [connection_issue] w).
Proof.
  intros u (r1 & t1 & Hnet1 & Hbody1 & Hhtml1) (r2 & t2 & Hnet2 & Hbody2 & Hhtml2).
  exists (status r1).
  unfold apiRequest, bind. rewrite getApiUrl_pure. fold u.
  unfold fetch at 1. rewrite Hnet1, Hbody1, Hhtml1.
  rewrite (emergencyApiRequest_html_effect _ u r2 t2); try done.
  - unfold ret, after_requests, with_toasts, with_fetched. simpl.
    by rewrite <- app_assoc.
  - simpl. rewrite length_app, Nat.add_comm. exact Hnet2.
Qed.

(** A successful save, in full. *)
Lemma emergencyCreatePost_saved (d : json) (w : World) (old : list json) :
  let p := make_post (clock w (ticks w)) (clock w (S (ticks w))) d in
  let text := JSON_stringify (JArray (p :: old)) in
  store_holds w old ->
  quota w STORAGE_KEY text = true ->
  emergencyCreatePost d w
  = ({| success := true; data := Some p; error := None; isEmergencyMode := Some true |},
     with_toasts (toasts w ++ [post_saved])
       (with_localStorage (<[STORAGE_KEY := text]> (localStorage w))
          (with_ticks (S (S (ticks w))) w))).
Proof.
  intros p text Hstore Hquota. unfold store_holds in Hstore.
  unfold emergencyCreatePost, bind.
  destruct (stored_text w) as [t w0] eqn:Ht.
  assert (w0 = w) as -> by (by rewrite <- (stored_text_pure w), Ht).
  simpl in Hstore. rewrite Hstore. simpl.
  fold p. fold text. unfold setItem. simpl. by rewrite Hquota.
Qed.

(** When the backend answers the request and its repetition with HTML and
    the store is in order, [postsService.create] saves the post offline:
    the caller gets the stored post, the store holds it in front of the
    older ones, and two toasts are shown. *)
Theorem create_saves_offline (d : json) (w : World) (old : list json) :
  let u := request_url w (lit "/api/posts") in
  let p := make_post (clock w (ticks w)) (clock w (S (ticks w))) d in
  let text := JSON_stringify (JArray (p :: old)) in
  answers_html w (length (fetched w)) u ->
  answers_html w (S (length (fetched w))) u ->
  store_holds w old ->
  quota w STORAGE_KEY text = true ->
  let '(res, w') := create d w in
  res = FromEmergency {| success := true; data := Some p; error := None;
                         isEmergencyMode := Some true |} /\
  localStorage w' = <[STORAGE_KEY := text]> (localStorage w) /\
  toasts w' = toasts w ++ [connection_issue; post_saved] /\
  fetched w' = fetched w ++ [u; u].
Proof.
  intros u p text H1 H2 Hstore Hquota.
  destruct (apiRequest_html_twice (lit "/api/posts") w H1 H2) as [st Hreq].
  unfold create, apiPost, bind. rewrite Hreq. fold u.
  cbv beta iota.
  change (r_success (passed_on html_down st)) with false.
  change (error_includes (r_error (passed_on html_down st)) (lit "HTML instead of JSON"))
    with (Some true).
  cbv beta iota.
  rewrite (emergencyCreatePost_saved d (after_requests u 2 [connection_issue] w) old);
    [| exact Hstore | exact Hquota].
  simpl. split_and!; try done. by rewrite <- app_assoc.
Qed.

(** When the backend answers the request and its repetition with HTML,
    [postsService.getAll] answers with the posts of the emergency store
    (none if the store is corrupt), as a success. *)
Theorem getAll_serves_offline_posts (w : World) :
  let u := request_url w (lit "/api/posts") in
  answers_html w (length (fetched w)) u ->
  answers_html w (S (length (fetched w))) u ->
  let '(res, w') := getAll w in
  res = Offline (fst (getEmergencyPosts w)) /\
  (JSON_parse (fst (stored_text w)) = None -> res = Offline (JArray [])) /\
  localStorage w' = localStorage w /\
  toasts w' = toasts w ++ [connection_issue].
Proof.
  intros u H1 H2.
  destruct (apiRequest_html_twice (lit "/api/posts") w H1 H2) as [st Hreq].
  unfold getAll, apiGet, bind. rewrite Hreq. fold u.
  cbv beta iota.
  change (r_success (passed_on html_down st)) with false.
  change (error_includes (r_error (passed_on html_down st)) (lit "HTML instead of JSON"))
    with (Some true).
  cbv beta iota.
  pose proof (getEmergencyPosts_same_store
                (after_requests u 2 [connection_issue] w) w eq_refl) as Hsame.
  destruct (getEmergencyPosts (after_requests u 2 [connection_issue] w)) as [v w2] eqn:Hg.
  assert (w2 = after_requests u 2 [connection_issue] w) as ->.
  { unfold getEmergencyPosts, bind, ret in Hg.
    destruct (stored_text _) as [t w3] eqn:Ht.
    pose proof (stored_text_pure (after_requests u 2 [connection_issue] w)) as Hp.
    rewrite Ht in Hp. simpl in Hp. congruence. }
  simpl in *. subst v. split_and!; try done.
  intros Hbad. f_equal. unfold getEmergencyPosts, bind, ret.
  destruct (stored_text w). simpl in *. by rewrite Hbad.
Qed.

End PostsService.

Section PostsServiceExamples.
Import EmergencyApiHandler ApiService Design Outcomes Conditions Reference Examples.

Lemma create_saves_offline_witness :
  let w := world_answering serving_html in
  let p := make_post (P := platform) 1000 1001 some_post in
  let '(res, w') := create (P := platform) some_post w in
  res = FromEmergency {| success := true; data := Some p; error := None;
                         isEmergencyMode := Some true |} /\
  localStorage w' = <[STORAGE_KEY := json_stringify (JArray [p])]> (localStorage w) /\
  toasts w' = [connection_issue; post_saved] /\
  fetched w' = [request_url w (lit "/api/posts"); request_url w (lit "/api/posts")].
Proof.
  intros w.
  apply (create_saves_offline (P := platform) some_post w []).
  - by apply serving_html_answers.
  - by apply serving_html_answers.
  - vm_compute. reflexivity.
  - reflexivity.
Defined.

Lemma getAll_serves_offline_posts_witness :
  let w := world_answering serving_html in
  let '(res, w') := getAll (P := platform) w in
  res = Offline (JArray []) /\ toasts w' = [connection_issue].
Proof.
  intros w.
  pose proof (getAll_serves_offline_posts (P := platform) w) as H.
  specialize (H (serving_html_answers _ _ w eq_refl) (serving_html_answers _ _ w eq_refl)).
  destruct (getAll w) as [res w']. destruct H as (-> & _ & _ & Ht).
  split; [vm_compute; reflexivity | exact Ht].
Defined.

End PostsServiceExamples.

Section EmergencyStoreMore.
Import EmergencyApiHandler Design Outcomes Reference Examples.

Lemma set_props_lookup (props ms : list (jsstring * json)) (k : jsstring) :
  NoDup (map fst ms) ->
  NoDup (map fst (set_props props ms)) /\
  assoc_last k (set_props props ms)
  = match assoc_last k props with
    | Some v => Some v
    | None => assoc_last k ms
    end.
Proof.
  unfold set_props. revert ms.
  induction props as [|[k' v'] props IH]; intros ms Hnd; [done|].
  cbn [foldl fst snd assoc_last].
  destruct (IH (set_prop k' v' ms)) as [Hnd' ->]; [by apply set_prop_NoDup|].
  split; [done|].
  destruct (assoc_last k props); [done|].
  rewrite assoc_last_set_prop by done. by destruct (decide (k' = k)).
Qed.

Section WithPlatform.
Context {P : Platform}.

(** Whatever the post data hold, the stored post is pending, in emergency
    mode and stamped with the creation time; every other property of the
    post data is carried over, the [id] included, and without one the id
    is made from the time. *)
Theorem make_post_fields (t_id t_created : Z) (postData : json) :
  let post := make_post t_id t_created postData in
  get_prop post (lit "status") = Some (JString (lit "pending_sync")) /\
  get_prop post (lit "isEmergencyMode") = Some (JBool true) /\
  get_prop post (lit "createdAt") = Some (JString (toISOString t_created)) /\
  forall k,
    k <> lit "status" -> k <> lit "isEmergencyMode" -> k <> lit "createdAt" ->
    get_prop post k
    = match assoc_last k (spread_props postData) with
      | Some v => Some v
      | None =>
          if decide (k = lit "id")
          then Some (JString (lit "emergency_" ++ num_to_string t_id))
          else None
      end.
Proof.
  intros post. unfold post, make_post, get_prop.
  set (base := [(lit "id", JString (lit "emergency_" ++ num_to_string t_id))]).
  assert (Hbase : NoDup (map fst base)) by apply NoDup_singleton.
  assert (Hnd : NoDup (map fst (set_props (spread_props postData) base)))
    by (by destruct (set_props_lookup (spread_props postData) base [] Hbase)).
  split_and!.
  - rewrite assoc_last_set_prop by auto using set_prop_NoDup. by rewrite decide_True.
  - rewrite !assoc_last_set_prop by auto using set_prop_NoDup. reflexivity.
  - rewrite !assoc_last_set_prop by auto using set_prop_NoDup. reflexivity.
  - intros k H1 H2 H3.
    rewrite !assoc_last_set_prop by auto using set_prop_NoDup.
    rewrite !decide_False by done.
    destruct (set_props_lookup (spread_props postData) base k Hbase) as [_ ->].
    destruct (assoc_last k (spread_props postData)); [done|].
    unfold base. simpl. destruct (decide (lit "id" = k)) as [<-|Hne].
    + by rewrite decide_True.
    + by rewrite decide_False.
Qed.

(** Saving a post is all or nothing: a failure is the result "Failed to
    save post offline" and leaves the store and the toasts as they were; a
    success puts the post in front of the stored list and shows "Post
    Saved Offline".  No request is sent either way. *)
Theorem emergencyCreatePost_all_or_nothing (d : json) (w : World) :
  let p := make_post (clock w (ticks w)) (clock w (S (ticks w))) d in
  let '(r, w') := emergencyCreatePost d w in
  fetched w' = fetched w /\
  API_CONFIG w' = API_CONFIG w /\
  (success r = false ->
   r = save_failed /\ localStorage w' = localStorage w /\ toasts w' = toasts w) /\
  (success r = true ->
   exists old,
     store_holds w old /\
     data r = Some p /\
     localStorage w' = <[STORAGE_KEY := JSON_stringify (JArray (p :: old))]> (localStorage w) /\
     toasts w' = toasts w ++ [post_saved]).
Proof.
  intros p. unfold emergencyCreatePost, store_holds, bind.
  destruct (stored_text w) as [t w0] eqn:Ht.
  assert (w0 = w) as -> by (by rewrite <- (stored_text_pure w), Ht).
  simpl. destruct (JSON_parse t) as [existing|]; [|by split_and!].
  simpl. fold p.
  destruct existing as [| | | |posts|]; try by split_and!.
  unfold setItem. simpl.
  destruct (quota w STORAGE_KEY _); simpl; split_and!; try done.
  intros _. by exists posts.
Qed.

End WithPlatform.

Lemma make_post_fields_witness :
  let post := make_post (P := platform) 1000 1001 forged_post in
  get_prop post (lit "status") = Some (JString (lit "pending_sync")) /\
  get_prop post (lit "isEmergencyMode") = Some (JBool true) /\
  get_prop post (lit "content") = Some (JString (lit "hi")) /\
  get_prop post (lit "id") = Some (JString (lit "mine")) /\
  get_prop post (lit "missing") = None.
Proof.
  intros post.
  destruct (make_post_fields (P := platform) 1000 1001 forged_post) as (Hs & He & _ & Hk).
  split_and!; [exact Hs | exact He | | |];
    (rewrite Hk; [reflexivity | vm_compute; discriminate ..]).
Defined.

End EmergencyStoreMore.

(* ===================================================================== *)
(** * Further properties: the health service *)
(* ===================================================================== *)

Section HealthServiceMore.
Import BackendHealthService HealthMonitoring BackendConnectionManager Reference Examples.

Lemma notify_all_effect (ls : list nat) (st : HealthStatus) (w : World) :
  notify_all ls st w
  = (tt, with_notified (notified w ++ map (fun l => (l, st)) ls) w).
Proof.
  revert w. induction ls as [|l ls IH]; intros w.
  - simpl. unfold ret, with_notified. rewrite app_nil_r. by destruct w.
  - simpl. unfold bind, call_listener. rewrite IH.
    unfold with_notified. simpl. by rewrite <- app_assoc.
Qed.

(** What [updateHealthStatus] does to the service and to the world. *)
Lemma updateHealthStatus_full (svc : Service) (st : HealthStatus) (w : World) :
  let '(svc', w') := updateHealthStatus svc st w in
  svc' = {| healthStatus := Some st; listeners := listeners svc;
            healthCheckInterval := healthCheckInterval svc |} /\
  notified w' = notified w ++ map (fun l => (l, st)) (listeners svc) /\
  fetched w' = fetched w /\ ticks w' = ticks w /\
  localStorage w' = localStorage w /\ API_CONFIG w' = API_CONFIG w.
Proof.
  unfold updateHealthStatus, bind. rewrite notify_all_effect.
  destruct (status_toast _ _); done.
Qed.

Section WithPlatform.
Context {P : Platform}.

(** What a probe leaves behind, apart from the toasts. *)
Lemma checkHealth_full (svc : Service) (w : World) :
  let '(st, svc', w') := checkHealth svc w in
  svc' = {| healthStatus := Some st; listeners := listeners svc;
            healthCheckInterval := healthCheckInterval svc |} /\
  notified w' = notified w ++ map (fun l => (l, st)) (listeners svc) /\
  fetched w' = fetched w ++ [probe_url w] /\
  localStorage w' = localStorage w /\ API_CONFIG w' = API_CONFIG w /\
  isHealthy st = probe_succeeds (net w (length (fetched w)) (probe_url w)) /\
  (h_error st = None <-> isHealthy st = true).
Proof.
  unfold checkHealth, probe_failed, getApiUrl, bind, now, fetch, get_config, ret,
    probe_url, probe_succeeds, looks_like_html.
  simpl.
  assert (Hstep : forall st w0,
            let '(svc', w') := updateHealthStatus svc st w0 in
            svc' = {| healthStatus := Some st; listeners := listeners svc;
                      healthCheckInterval := healthCheckInterval svc |} /\
            notified w' = notified w0 ++ map (fun l => (l, st)) (listeners svc) /\
            fetched w' = fetched w0 /\ ticks w' = ticks w0 /\
            localStorage w' = localStorage w0 /\ API_CONFIG w' = API_CONFIG w0)
    by apply updateHealthStatus_full.
  destruct (net w _ _) as [e|r]; simpl.
  { match goal with
    | |- context [updateHealthStatus svc ?st ?w0] =>
        specialize (Hstep st w0); destruct (updateHealthStatus svc st w0);
        destruct Hstep as (-> & -> & -> & _ & -> & ->)
    end. by split_and!. }
  destruct (body r) as [t|e]; simpl;
    [destruct (includes t (lit "<!DOCTYPE") || includes t (lit "<html>")); simpl;
       [|destruct (JSON_parse t) eqn:Hparse; simpl] |];
    match goal with
    | |- context [updateHealthStatus svc ?st ?w0] =>
        specialize (Hstep st w0); destruct (updateHealthStatus svc st w0);
        destruct Hstep as (-> & -> & -> & _ & -> & ->)
    end; split_and!; try done.
  by destruct (ok r).
Qed.

(** Every completed probe calls each subscribed listener once, in
    subscription order, with the status it returns, whether or not the
    status changed; the subscribers and the timer are left as they were. *)
Theorem checkHealth_notifies_every_listener (svc : Service) (w : World) :
  let '(st, svc', w') := checkHealth svc w in
  notified w' = notified w ++ map (fun l => (l, st)) (listeners svc) /\
  listeners svc' = listeners svc /\
  healthCheckInterval svc' = healthCheckInterval svc /\
  getHealthStatus svc' = Some st.
Proof.
  pose proof (checkHealth_full svc w) as H.
  destruct (checkHealth svc w) as [[st svc'] w'].
  by destruct H as (-> & -> & _).
Qed.

(** The health service and the connection manager judge an answer alike:
    a probe is healthy exactly when the same answer would make a
    connection attempt succeed; the service then reports ready, and a
    status carries an error exactly when it is not healthy. *)
Theorem checkHealth_healthy_iff_attempt_succeeds (svc : Service) (w : World) :
  let '(st, svc', _) := checkHealth svc w in
  isHealthy st = probe_succeeds (net w (length (fetched w)) (probe_url w)) /\
  isBackendReady svc' = isHealthy st /\
  (h_error st = None <-> isHealthy st = true).
Proof.
  pose proof (checkHealth_full svc w) as H.
  destruct (checkHealth svc w) as [[st svc'] w'].
  destruct H as (-> & _ & _ & _ & _ & H1 & H2).
  split_and!; [exact H1 | reflexivity | exact H2].
Qed.

End WithPlatform.

End HealthServiceMore.

Section Subscriptions.
Import BackendHealthService HealthMonitoring Reference Examples.




Lemma with_listeners_same (svc : Service) : with_listeners (listeners svc) svc = svc.
Proof. by destruct svc. Qed.



Section WithPlatform.
Context {P : Platform}.

Lemma interval_fires_armed (svc : Service) (w : World) :
  healthCheckInterval svc = true ->
  let '(svc', w') := interval_fires svc w in
  healthCheckInterval svc' = true /\
  fetched w' = fetched w ++ [probe_url w] /\
  API_CONFIG w' = API_CONFIG w.
Proof.
  intros Harmed. unfold interval_fires, bind, ret. rewrite Harmed.
  pose proof (checkHealth_full svc w) as H.
  destruct (checkHealth svc w) as [[st svc'] w'].
  destruct H as (-> & _ & -> & _ & -> & _). by simpl.
Qed.

(** Once [stopMonitoring] has run, expiries of the timer send no request
    and change nothing, and stopping again is a no-op; the recorded status
    and the subscribers are kept, and a forced check still probes.  While
    the timer is armed, [n] expiries send [n] probes. *)
Theorem stopMonitoring_silences_the_timer (svc : Service) (n : nat) (w : World) :
  let stopped := stopMonitoring svc in
  interval_fires_times n stopped w = (stopped, w) /\
  stopMonitoring stopped = stopped /\
  healthStatus stopped = healthStatus svc /\
  listeners stopped = listeners svc /\
  fetched (snd (forceHealthCheck stopped w)) = fetched w ++ [probe_url w] /\
  (healthCheckInterval svc = true ->
   length (fetched (snd (interval_fires_times n svc w))) = (length (fetched w) + n)%nat).
Proof.
  intros stopped.
  assert (Hoff : healthCheckInterval stopped = false).
  { unfold stopped, stopMonitoring. by destruct (healthCheckInterval svc) eqn:E. }
  split_and!.
  - induction n as [|n IH]; [done|].
    simpl. unfold bind, interval_fires. rewrite Hoff. exact IH.
  - unfold stopMonitoring at 1. by rewrite Hoff.
  - unfold stopped, stopMonitoring. by destruct (healthCheckInterval svc).
  - unfold stopped, stopMonitoring. by destruct (healthCheckInterval svc).
  - unfold forceHealthCheck. pose proof (checkHealth_full stopped w) as H.
    destruct (checkHealth stopped w) as [[st svc'] w'].
    destruct H as (_ & _ & Hf & _). exact Hf.
  - clear stopped Hoff. revert svc w. induction n as [|n IH]; intros svc w Harmed.
    + simpl. lia.
    + simpl. unfold bind.
      pose proof (interval_fires_armed svc w Harmed) as H.
      destruct (interval_fires svc w) as [svc' w'].
      destruct H as (Harmed' & Hf & _).
      rewrite (IH svc' w' Harmed'), Hf, length_app. simpl. lia.
Qed.

(** The constructor's [startHealthMonitoring] sends one probe, records its
    status and arms the timer; this first probe never shows a toast,
    whatever the backend answers. *)
Theorem startHealthMonitoring_is_silent (w : World) :
  let '(svc, w') := startHealthMonitoring new_service w in
  healthCheckInterval svc = true /\
  is_Some (healthStatus svc) /\
  isBackendReady svc = BackendConnectionManager.probe_succeeds (net w (length (fetched w)) (probe_url w)) /\
  toasts w' = toasts w /\
  fetched w' = fetched w ++ [probe_url w].
Proof.
  unfold startHealthMonitoring, bind, ret.
  pose proof (checkHealth_full new_service w) as H.
  pose proof (checkHealth_effect new_service w) as Ht.
  destruct (checkHealth new_service w) as [[st svc'] w'].
  destruct H as (-> & _ & Hf & _ & _ & Hok & _). destruct Ht as [_ Ht].
  cbn [snd healthStatus listeners new_service fmap option_fmap option_map status_toast] in *.
  rewrite app_nil_r in Ht. unfold isBackendReady. cbn [healthStatus].
  by split_and!.
Qed.

End WithPlatform.

End Subscriptions.

(* ===================================================================== *)
(** * Further properties: the connection manager *)
(* ===================================================================== *)

Section ConnectionManagerMore.
Import BackendHealthService HealthMonitoring BackendConnectionManager
  ConnectionManagerLifecycle BackendStatusIndicator Reference Examples.

(** The connection manager and the health service ask for the same
    health address exactly when the base URL has no trailing slash: with
    one, the manager asks for [base + 'api/health'] and [getApiUrl] gives
    [base + '/api/health']. *)
Theorem health_addresses_agree (w : World) :
  let base := BASE_URL (API_CONFIG w) in
  (healthUrl base = fst (getApiUrl (lit "/api/health") w)
   <-> endsWith base (lit "/") = false) /\
  probe_url w = fst (getApiUrl (lit "/api/health") w).
Proof.
  intros base. unfold probe_url, getApiUrl, bind, get_config, ret. simpl.
  change (startsWith (lit "/api/health") (lit "/")) with true. cbv iota.
  fold base. split; [|done]. unfold healthUrl.
  destruct (endsWith base (lit "/")); split; try done.
  intros H%app_inv_head. vm_compute in H. discriminate.
Qed.

Lemma health_addresses_agree_witness :
  let w := world_answering only_B_up in
  healthUrl (BASE_URL (API_CONFIG w)) = fst (getApiUrl (lit "/api/health") w).
Proof.
  intros w. by apply (health_addresses_agree w).
Defined.

Section WithPlatform.
Context {P : Platform}.

(** Every attempt names the backend it probed, carries a latency (the time
    from before the request to the first reading after it failed or was
    answered) and a later timestamp, and has an error exactly when it did
    not succeed; the probe is one request and touches nothing else. *)
Theorem testBackendConnection_attempt (u : jsstring) (w : World) :
  let '(a, w') := testBackendConnection u w in
  url a = u /\
  (success a = true <-> error a = None) /\
  (exists k, (k = 1 \/ k = 2)%nat /\
     latency a = Some (clock w (k + ticks w) - clock w (ticks w)) /\
     timestamp a = clock w (S k + ticks w) /\
     ticks w' = (S (S k) + ticks w)%nat) /\
  fetched w' = fetched w ++ [healthUrl u] /\
  toasts w' = toasts w /\ notified w' = notified w /\
  localStorage w' = localStorage w /\ API_CONFIG w' = API_CONFIG w.
Proof.
  unfold testBackendConnection, connection_failed, bind, ret, now, fetch. simpl.
  destruct (net w _ _) as [e|r]; simpl.
  { split_and!; try done. exists 1%nat. by split_and!; [left|..]. }
  destruct (body r) as [t|e]; simpl.
  - destruct (includes t (lit "<!DOCTYPE") || includes t (lit "<html>")); simpl.
    { split_and!; try done. exists 1%nat. by split_and!; [left|..]. }
    destruct (JSON_parse t); simpl.
    + split_and!; try done; [by destruct (ok r)|].
      exists 1%nat. by split_and!; [left|..].
    + split_and!; try done. exists 1%nat. by split_and!; [left|..].
  - split_and!; try done. exists 2%nat. by split_and!; [right|..].
Qed.

(** The loop over the candidates, in any world. *)
Lemma try_urls_log (urls : list jsstring) (m : Manager) (w : World) :
  let '(found, m', w') := try_urls urls m w in
  exists new,
    attempts m' = attempts m ++ new /\
    fallbackUrls m' = fallbackUrls m /\
    fetched w' = fetched w ++ map healthUrl (map url new) /\
    match found with
    | Some u =>
        exists failed a rest,
          new = failed ++ [a] /\ urls = map url failed ++ u :: rest /\
          Forall (fun x => success x = false) failed /\
          success a = true /\ url a = u /\
          currentBackendUrl m' = u /\
          API_CONFIG w' = {| BASE_URL := u; BACKEND_URL := u; API_URL := u |} /\
          toasts w' = toasts w
    | None =>
        map url new = urls /\
        Forall (fun x => success x = false) new /\
        currentBackendUrl m' = currentBackendUrl m /\
        API_CONFIG w' = API_CONFIG w /\
        toasts w' = toasts w
    end.
Proof.
  revert m w. induction urls as [|v urls IH]; intros m w.
  - simpl. exists []. rewrite !app_nil_r. by split_and!.
  - simpl. unfold bind.
    pose proof (testBackendConnection_effect v w) as E.
    destruct (testBackendConnection v w) as [a w1].
    destruct E as (Eu & _ & Ef & _ & Et & Ec).
    destruct (success a) eqn:Hs.
    + simpl. exists [a]. split_and!; try done.
      * simpl. by rewrite Eu.
      * exists [], a, urls. by split_and!.
    + specialize (IH (push_attempt m a) w1).
      destruct (try_urls urls (push_attempt m a) w1) as [[found m'] w'].
      destruct IH as (new & Hnew & Hfb & Hfet & Hcase).
      exists (a :: new). simpl in Hnew. split_and!.
      * by rewrite Hnew, <- app_assoc.
      * done.
      * rewrite Hfet, Ef. simpl. by rewrite <- app_assoc, Eu.
      * destruct found as [u|].
        -- destruct Hcase as (failed & b & rest & -> & -> & Hall & Hb & Hu & Hc & Hcfg & Hto).
           exists (a :: failed), b, rest. simpl. rewrite Eu.
           split_and!; try done; [by constructor | congruence].
        -- destruct Hcase as (Hurls & Hall & Hc & Hcfg & Hto).
           simpl. rewrite Eu, Hurls.
           split_and!; try done; [by constructor | congruence | congruence].
Qed.

(** In any world, [findHealthyBackend] only appends to the attempt log,
    one attempt per request, for a prefix of the candidate list; it
    returns the pinned URL; and either the last attempt succeeded, all
    earlier ones failed, and its URL is now pinned and written to the
    configuration without a toast; or every candidate was tried and
    failed, the pinned URL and the configuration are as before, and the
    "All Backends Offline" toast is shown. *)
Theorem findHealthyBackend_log (m : Manager) (w : World) :
  let candidates := currentBackendUrl m :: fallbackUrls m in
  let '(u, m', w') := findHealthyBackend m w in
  u = getCurrentBackendUrl m' /\
  fallbackUrls m' = fallbackUrls m /\
  exists new,
    attempts m' = attempts m ++ new /\
    new <> [] /\
    fetched w' = fetched w ++ map healthUrl (map url new) /\
    map url new `prefix_of` candidates /\
    ((exists failed a,
        new = failed ++ [a] /\
        Forall (fun x => success x = false) failed /\
        success a = true /\ url a = u /\
        API_CONFIG w' = {| BASE_URL := u; BACKEND_URL := u; API_URL := u |} /\
        toasts w' = toasts w) \/
     (map url new = candidates /\
      Forall (fun x => success x = false) new /\
      u = currentBackendUrl m /\
      API_CONFIG w' = API_CONFIG w /\
      toasts w' = toasts w ++ [all_offline])).
Proof.
  intros candidates. unfold findHealthyBackend, bind. fold candidates.
  pose proof (try_urls_log candidates m w) as H.
  destruct (try_urls candidates m w) as [[found m'] w'].
  destruct H as (new & Hnew & Hfb & Hfet & Hcase).
  destruct found as [u|]; simpl.
  - destruct Hcase as (failed & a & rest & -> & Hc & Hall & Ha & Hu & Hpin & Hcfg & Hto).
    split_and!; try done. exists (failed ++ [a]). split_and!; try done.
    + by intros [_ [=]]%app_eq_nil.
    + rewrite Hc, map_app. simpl. rewrite Hu.
      exists rest. by rewrite <- app_assoc.
    + left. exists failed, a. by split_and!.
  - destruct Hcase as (Hurls & Hall & Hpin & Hcfg & Hto).
    split_and!; try done. exists new. split_and!; try done.
    + intros ->. by unfold candidates in Hurls.
    + by rewrite Hurls.
    + right. split_and!; try done; congruence.
Qed.

End WithPlatform.

End ConnectionManagerMore.

Section StatsMore.
Import BackendHealthService HealthMonitoring BackendConnectionManager
  ConnectionManagerLifecycle BackendStatusIndicator Reference Examples.

Lemma length_successes_failures (log : list ConnectionAttempt) :
  (length (filter (fun a => success a = true) log)
   + length (filter (fun a => success a = false) log))%nat = length log.
Proof.
  induction log as [|a log IH]; [done|].
  destruct (success a) eqn:Hs.
  - rewrite filter_cons_True, filter_cons_False by congruence. simpl. lia.
  - rewrite filter_cons_False, filter_cons_True by congruence. simpl. lia.
Qed.

Lemma length_successes_le (log : list ConnectionAttempt) :
  (length (successes log) <= length log)%nat.
Proof. unfold successes. pose proof (length_successes_failures log). lia. Qed.

(** A quotient of a part by the whole is a number between 0 and 1. *)
Lemma div_part_whole (a b : Z) :
  0 <= a <= b -> 0 < b ->
  exists q, div a b = Finite q /\ (0 <= q)%Q /\ (q <= 1)%Q.
Proof.
  intros Ha Hb. unfold div.
  destruct (Z.eqb_spec b 0) as [|_]; [lia|].
  eexists. split; [reflexivity|].
  rewrite Qred_correct.
  assert (Hq : (inject_Z a / inject_Z b == a # Z.to_pos b)%Q).
  { rewrite (Qmake_Qdiv a (Z.to_pos b)). by rewrite Z2Pos.id. }
  rewrite Hq. unfold Qle. simpl. rewrite Z2Pos.id by done. lia.
Qed.

(** The average latency is always an integer, never [NaN] or infinite. *)
Lemma averageLatency_is_integer (m : Manager) :
  exists r : Z, averageLatency (getConnectionStats m) = Finite (inject_Z r).
Proof.
  destruct (getConnectionStats_figures m) as [_ ->].
  destruct (successes (attempts m)) as [|a l] eqn:Hs.
  - exists 0. reflexivity.
  - unfold div. destruct (Z.eqb_spec (Z.of_nat (length (a :: l))) 0) as [H0|_].
    { simpl in H0. lia. }
    unfold or_zero. destruct (Qeq_bool _ 0); eexists; reflexivity.
Qed.

(** The counts of the statistics add up: every attempt is either
    successful or failed; the rate of a non-empty log lies between 0 and
    1; the average latency is an integer. *)
Theorem getConnectionStats_counts (m : Manager) :
  let stats := getConnectionStats m in
  (successful stats + failed stats)%nat = totalAttempts stats /\
  totalAttempts stats = length (getConnectionHistory m) /\
  currentBackend stats = getCurrentBackendUrl m /\
  (attempts m <> [] ->
   exists q, successRate stats = Finite q /\ (0 <= q)%Q /\ (q <= 1)%Q) /\
  exists r : Z, averageLatency stats = Finite (inject_Z r).
Proof.
  intros stats. split_and!.
  - apply length_successes_failures.
  - reflexivity.
  - reflexivity.
  - intros Hne. destruct (getConnectionStats_figures m) as [Hrate _].
    unfold stats. rewrite Hrate. apply div_part_whole.
    + pose proof (length_successes_le (attempts m)). lia.
    + destruct (attempts m); [done | simpl; lia].
  - apply averageLatency_is_integer.
Qed.

Lemma getConnectionStats_counts_witness :
  let stats := getConnectionStats
                 (manager_with [attempt true 10; attempt false 5000; attempt true 25]) in
  (successful stats + failed stats)%nat = 3%nat /\
  (exists q, successRate stats = Finite q /\ (0 <= q)%Q /\ (q <= 1)%Q) /\
  exists r : Z, averageLatency stats = Finite (inject_Z r).
Proof.
  intros stats.
  destruct (getConnectionStats_counts
              (manager_with [attempt true 10; attempt false 5000; attempt true 25]))
    as (H1 & _ & _ & H2 & H3).
  split_and!; [exact H1 | apply H2; discriminate | exact H3].
Defined.

(** The status indicator never renders [NaN]: the success rate is
    rendered only for a non-empty log, where it is a number between 0 and
    1, and is "N/A" otherwise; the latency cell is "N/A" or a positive
    integer followed by "ms". *)
Theorem indicator_labels (percent : number -> jsstring) (m : Manager) :
  let stats := getConnectionStats m in
  ((attempts m = [] /\ successRateLabel percent stats = lit "N/A") \/
   (exists q, successRate stats = Finite q /\ (0 <= q)%Q /\ (q <= 1)%Q /\
              successRateLabel percent stats = percent (Finite q))) /\
  (averageLatencyLabel stats = lit "N/A" \/
   exists r : Z, 0 < r /\ averageLatency stats = Finite (inject_Z r) /\
                 averageLatencyLabel stats = num_to_string r ++ lit "ms").
Proof.
  intros stats. split.
  - unfold successRateLabel. destruct (attempts m) as [|a l] eqn:Hlog.
    + left. unfold stats, getConnectionStats. rewrite Hlog. by split.
    + right. destruct (getConnectionStats_figures m) as [Hrate _].
      destruct (div_part_whole (Z.of_nat (length (successes (attempts m))))
                  (Z.of_nat (length (attempts m)))) as (q & Hq & H0 & H1).
      * pose proof (length_successes_le (attempts m)). lia.
      * rewrite Hlog. simpl. lia.
      * exists q. unfold stats. rewrite Hrate, Hq. split_and!; try done.
        change (totalAttempts (getConnectionStats m)) with (length (attempts m)).
        rewrite Hlog. simpl. by rewrite <- Hq, <- Hrate.
  - destruct (averageLatency_is_integer m) as [r Hr].
    unfold averageLatencyLabel, stats. rewrite Hr. unfold positive, integer_to_string.
    rewrite Qfloor_Z.
    destruct (Qle_bool (inject_Z r) 0) eqn:Hle; simpl; [by left|].
    right. exists r. split_and!; try done.
    destruct (Z.ltb_spec 0 r) as [|Hneg]; [done|].
    assert (Qle_bool (inject_Z r) 0 = true); [|congruence].
    apply Qle_bool_iff. unfold Qle. simpl. lia.
Qed.

End StatsMore.

Section RefreshAndConstruct.
Import BackendHealthService HealthMonitoring BackendConnectionManager
  ConnectionManagerLifecycle BackendStatusIndicator Reference Examples.
Context {P : Platform}.

(** A search keeps the pinned URL and the shared configuration in step,
    and leaves a non-empty log of at most one attempt per candidate. *)
Lemma findHealthyBackend_in_step (m : Manager) (w : World) :
  let '(u, m', w') := findHealthyBackend m w in
  (currentBackendUrl m = BASE_URL (API_CONFIG w) ->
   currentBackendUrl m' = BASE_URL (API_CONFIG w')) /\
  exists new,
    attempts m' = attempts m ++ new /\ new <> [] /\
    (length new <= S (length (fallbackUrls m)))%nat /\
    length (fetched w') = (length (fetched w) + length new)%nat.
Proof.
  unfold findHealthyBackend, bind.
  pose proof (try_urls_log (currentBackendUrl m :: fallbackUrls m) m w) as H.
  destruct (try_urls _ m w) as [[found m'] w'].
  destruct H as (new & Hnew & Hfb & Hfet & Hcase).
  assert (Hlen : length (fetched w') = (length (fetched w) + length new)%nat).
  { by rewrite Hfet, length_app, !length_map. }
  destruct found as [u|]; simpl.
  - destruct Hcase as (failed & a & rest & -> & Hc & _ & _ & _ & Hpin & Hcfg & _).
    split; [intros _; by rewrite Hpin, Hcfg|].
    exists (failed ++ [a]). split_and!; try done.
    + by intros [_ [=]]%app_eq_nil.
    + apply (f_equal length) in Hc. simpl in Hc.
      rewrite length_app, length_map in Hc. simpl in Hc.
      rewrite length_app. simpl. lia.
  - destruct Hcase as (Hurls & _ & Hpin & Hcfg & _).
    split; [intros Hstep; by rewrite Hpin, Hcfg|].
    apply (f_equal length) in Hurls. rewrite length_map in Hurls. simpl in Hurls.
    exists new. split_and!; try done; [|lia].
    intros ->. by simpl in Hurls.
Qed.

(** The refresh button: after [refreshBackendConnection], the forced
    health check asks the backend that is now pinned, so a failover is
    followed by the health service; the pinned URL and the shared
    configuration stay equal. *)
Theorem handleRefresh_checks_the_pinned_backend (m : Manager) (svc : Service) (w : World) :
  currentBackendUrl m = BASE_URL (API_CONFIG w) ->
  let '(m', svc', w') := handleRefresh m svc w in
  getCurrentBackendUrl m' = BASE_URL (API_CONFIG w') /\
  last (fetched w') = Some (getCurrentBackendUrl m' ++ lit "/api/health") /\
  is_Some (getHealthStatus svc').
Proof.
  intros Hstep. unfold handleRefresh, refreshBackendConnection, forceHealthCheck, bind, ret.
  pose proof (findHealthyBackend_in_step m w) as H1.
  destruct (findHealthyBackend m w) as [[u m'] w1]. destruct H1 as [Hpin _].
  specialize (Hpin Hstep).
  pose proof (checkHealth_full svc w1) as H2.
  destruct (checkHealth svc w1) as [[st svc'] w2].
  destruct H2 as (-> & _ & Hf & _ & Hcfg & _).
  simpl. unfold getCurrentBackendUrl. rewrite Hcfg, Hf, last_snoc, Hpin.
  split_and!; try done; by eexists.
Qed.

(** Constructing the manager runs one search from the configured base URL
    over at most four candidates; afterwards the log is not empty, so the
    success rate is a number between 0 and 1 (not the [NaN] of an empty
    log), and the pinned URL equals the shared configuration. *)
Theorem construct_leaves_a_log (w : World) :
  let '(m, w') := construct w in
  getCurrentBackendUrl m = BASE_URL (API_CONFIG w') /\
  getConnectionHistory m <> [] /\
  (length (getConnectionHistory m) <= 4)%nat /\
  length (fetched w') = (length (fetched w) + length (getConnectionHistory m))%nat /\
  exists q, successRate (getConnectionStats m) = Finite q /\ (0 <= q)%Q /\ (q <= 1)%Q.
Proof.
  unfold construct, initialize, new_manager, bind, ret, get_config.
  set (m0 := {| attempts := []; currentBackendUrl := BASE_URL (API_CONFIG w);
                fallbackUrls := FALLBACK_URLS |}).
  pose proof (findHealthyBackend_in_step m0 w) as H.
  destruct (findHealthyBackend m0 w) as [[u m] w'].
  destruct H as (Hpin & new & Hnew & Hne & Hlen & Hfet).
  simpl in Hnew. unfold getConnectionHistory, getCurrentBackendUrl.
  cbn [snd]. rewrite Hnew. split_and!; try done.
  - by apply Hpin.
  - destruct (getConnectionStats_figures m) as [-> _]. rewrite Hnew.
    apply div_part_whole.
    + pose proof (length_successes_le new). lia.
    + destruct new; [done | simpl; lia].
Qed.

End RefreshAndConstruct.

Section RefreshExamples.
Import BackendHealthService HealthMonitoring BackendConnectionManager
  ConnectionManagerLifecycle BackendStatusIndicator Reference Examples.

Lemma handleRefresh_checks_the_pinned_backend_witness :
  let w := with_API_CONFIG (ApiConfigFile.initial_config url_A) (world_answering only_B_up) in
  let '(m', svc', w') := handleRefresh (P := platform) manager_ABC fresh_service w in
  getCurrentBackendUrl m' = url_B /\
  last (fetched w') = Some (url_B ++ lit "/api/health").
Proof.
  intros w.
  pose proof (handleRefresh_checks_the_pinned_backend (P := platform)
                manager_ABC fresh_service w eq_refl) as H.
  destruct (handleRefresh manager_ABC fresh_service w) as [[m' svc'] w'] eqn:Hrun.
  destruct H as (Hpin & Hlast & _).
  assert (Hm : getCurrentBackendUrl m' = url_B).
  { apply (f_equal (fun r => getCurrentBackendUrl (fst (fst r)))) in Hrun.
    simpl in Hrun. rewrite <- Hrun. vm_compute. reflexivity. }
  split; [exact Hm | by rewrite <- Hm].
Defined.

End RefreshExamples.

Section MoreExamples.
Import EmergencyApiHandler ApiService BackendHealthService HealthMonitoring
  BackendConnectionManager Design Outcomes Conditions Reference Examples.

Lemma apiRequest_frame_witness :
  let w := world_answering html_then_json in
  let '(res, w') := apiRequest (P := platform) (lit "/api/posts") w in
  r_success res = true /\ toasts w' = [] /\ r_error res = None /\ is_Some (r_data res).
Proof.
  intros w.
  pose proof (apiRequest_frame (P := platform) (lit "/api/posts") w) as H.
  destruct (apiRequest (lit "/api/posts") w) as [res w'] eqn:E.
  destruct H as (_ & _ & _ & _ & _ & Hok & _).
  assert (Hs : r_success res = true).
  { apply (f_equal (fun x => r_success (fst x))) in E. simpl in E. rewrite <- E.
    vm_compute. reflexivity. }
  destruct (Hok Hs) as (Ht & He & Hd). by split_and!.
Defined.

Lemma emergencyCreatePost_all_or_nothing_witness :
  let w := world_storing (lit "[{not json") in
  let '(r, w') := emergencyCreatePost (P := platform) some_post w in
  r = save_failed /\ localStorage w' = localStorage w /\ toasts w' = toasts w.
Proof.
  intros w.
  pose proof (emergencyCreatePost_all_or_nothing (P := platform) some_post w) as H.
  destruct (emergencyCreatePost some_post w) as [r w'] eqn:E.
  destruct H as (_ & _ & Hfail & _). apply Hfail.
  apply (f_equal (fun x => EmergencyApiHandler.success (fst x))) in E. simpl in E. rewrite <- E.
  vm_compute. reflexivity.
Defined.

Lemma stopMonitoring_silences_the_timer_witness :
  let w := world_answering flaky_backend in
  length (fetched (snd (interval_fires_times (P := platform) 3 fresh_service w))) = 3%nat.
Proof.
  intros w.
  destruct (stopMonitoring_silences_the_timer (P := platform) fresh_service 3 w)
    as (_ & _ & _ & _ & _ & H).
  exact (H eq_refl).
Defined.

Lemma checkHealth_healthy_iff_attempt_succeeds_witness :
  let w := world_answering flaky_backend in
  let '(st, svc', _) := checkHealth (P := platform) fresh_service w in
  isHealthy st = true /\ isBackendReady svc' = true /\ h_error st = None.
Proof.
  intros w.
  pose proof (checkHealth_healthy_iff_attempt_succeeds (P := platform) fresh_service w) as H.
  destruct (checkHealth fresh_service w) as [[st svc'] w'].
  destruct H as (H1 & H2 & H3).
  assert (Hs : isHealthy st = true) by (rewrite H1; vm_compute; reflexivity).
  split_and!; [done | by rewrite H2 | by apply H3].
Defined.

Lemma testBackendConnection_attempt_witness :
  let w := world_answering only_B_up in
  let '(a, w') := testBackendConnection (P := platform) url_A w in
  url a = url_A /\ success a = false /\ error a <> None /\
  fetched w' = [healthUrl url_A].
Proof.
  intros w.
  pose proof (testBackendConnection_attempt (P := platform) url_A w) as H.
  destruct (testBackendConnection url_A w) as [a w'] eqn:E.
  destruct H as (H1 & H2 & _ & H4 & _).
  assert (Hs : success a = false).
  { apply (f_equal (fun x => success (fst x))) in E. simpl in E. rewrite <- E.
    vm_compute. reflexivity. }
  split_and!; [done | done | | exact H4].
  intros He. apply H2 in He. congruence.
Defined.

End MoreExamples.

(* ===================================================================== *)
(** * Further properties: the emergency mode context *)
(* ===================================================================== *)

Section EmergencyMode.
Import EmergencyApiHandler EmergencyModeContext Reference Examples.

(** What [checkBackendHealth] does to the world: one request for the
    relative address [/api/health]. *)
Lemma checkBackendHealth_effect (w : World) :
  snd (checkBackendHealth w) = with_fetched (fetched w ++ [lit "/api/health"]) w.
Proof. unfold checkBackendHealth, bind, fetch, ret. by destruct (net w _ _). Qed.

(** After a periodic check the emergency mode is on exactly when the
    backend was found offline, whatever it was before (a mode set by hand
    does not survive the check); a toast is shown exactly when the mode
    changed; the check asks for the relative address [/api/health], not
    for the configured backend, and keeps the emergency posts. *)
Theorem checkStatus_follows_the_backend (st : State) (w : World) :
  let online := fst (checkBackendHealth w) in
  let '(st', w') := checkStatus st w in
  isBackendOnline st' = online /\
  isEmergencyMode st' = negb online /\
  emergencyPosts st' = emergencyPosts st /\
  fetched w' = fetched w ++ [lit "/api/health"] /\
  toasts w' = toasts w ++ (if bool_decide (isEmergencyMode st = negb online) then []
                           else [if online then back_online else offline_enabled]) /\
  localStorage w' = localStorage w /\
  API_CONFIG w' = API_CONFIG w /\
  forall enabled,
    isEmergencyMode (fst (checkStatus (setEmergencyMode enabled st) w)) = negb online.
Proof.
  intros online. unfold setEmergencyMode, checkStatus, bind.
  pose proof (checkBackendHealth_effect w) as Hw. unfold online.
  destruct (checkBackendHealth w) as [isOnline w1]. cbn [fst snd] in Hw |- *. subst w1.
  destruct isOnline, (isEmergencyMode st) eqn:Hmode; simpl;
    rewrite ?app_nil_r; split_and!; try done; by intros [].
Qed.

(** A manual refresh can only enter the emergency mode, never leave it,
    and shows no toast; when it finds the backend offline, a later
    periodic check that still finds it offline shows no toast either, so
    the user is never told that the offline mode was enabled. *)
Theorem refreshBackendStatus_only_enters (st : State) (w : World) :
  let online := fst (checkBackendHealth w) in
  let '(st', w') := refreshBackendStatus st w in
  isBackendOnline st' = online /\
  isEmergencyMode st' = isEmergencyMode st || negb online /\
  emergencyPosts st' = emergencyPosts st /\
  toasts w' = toasts w /\
  fetched w' = fetched w ++ [lit "/api/health"] /\
  (online = false ->
   forall w2, fst (checkBackendHealth w2) = false ->
     toasts (snd (checkStatus st' w2)) = toasts w2).
Proof.
  intros online.
  assert (Hnext : forall st2 w2, isEmergencyMode st2 = true ->
            fst (checkBackendHealth w2) = false ->
            toasts (snd (checkStatus st2 w2)) = toasts w2).
  { intros st2 w2 Hmode Hoff. unfold checkStatus, bind.
    pose proof (checkBackendHealth_effect w2) as Hw2. revert Hoff Hw2.
    destruct (checkBackendHealth w2) as [isOnline w3]. cbn [fst snd].
    intros -> ->. by rewrite Hmode. }
  unfold refreshBackendStatus, bind, ret.
  pose proof (checkBackendHealth_effect w) as Hw. unfold online.
  destruct (checkBackendHealth w) as [isOnline w1]. cbn [fst snd] in Hw |- *. subst w1.
  destruct isOnline; cbn [negb].
  - split_and!; try done. by rewrite orb_false_r.
  - split_and!; try done; [by rewrite orb_true_r|].
    intros _ w2 Hoff. by apply Hnext.
Qed.

Lemma refreshBackendStatus_only_enters_witness :
  let w := world_answering serving_html in
  let '(st', w') := refreshBackendStatus initial w in
  isEmergencyMode st' = true /\ toasts w' = [] /\
  toasts (snd (checkStatus st' w')) = [].
Proof.
  intros w.
  pose proof (refreshBackendStatus_only_enters initial w) as H.
  destruct (refreshBackendStatus initial w) as [st' w'] eqn:E.
  destruct H as (_ & Hmode & _ & Ht & _ & Hnext).
  assert (Hoff : fst (checkBackendHealth w) = false) by (vm_compute; reflexivity).
  assert (Hoff' : fst (checkBackendHealth w') = false).
  { apply (f_equal snd) in E. simpl in E. rewrite <- E. vm_compute. reflexivity. }
  split_and!.
  - rewrite Hmode, Hoff. reflexivity.
  - exact Ht.
  - rewrite (Hnext Hoff w' Hoff'). exact Ht.
Defined.

End EmergencyMode.

(* ===================================================================== *)
(** * Further properties: creating a post from the data context *)
(* ===================================================================== *)

Section DataContext.
Import EmergencyApiHandler ApiService Design Outcomes Conditions VeiloDataContext.
Context {P : Platform}.
Variable render : json -> jsstring.

Lemma make_post_is_emergency (t_id t_created : Z) (d : json) :
  get_prop (make_post t_id t_created d) (lit "isEmergencyMode") = Some (JBool true).
Proof.
  unfold make_post, get_prop.
  set (base := [(lit "id", JString (lit "emergency_" ++ num_to_string t_id))]).
  assert (Hbase : NoDup (map fst base)) by apply NoDup_singleton.
  assert (Hnd : NoDup (map fst (set_props (spread_props d) base)))
    by (by destruct (set_props_lookup (spread_props d) base [] Hbase)).
  rewrite !assoc_last_set_prop by auto using set_prop_NoDup. reflexivity.
Qed.

(** [postsService.create] when the request and its repetition are answered
    with HTML and the store is in order, in full. *)
Lemma create_offline (d : json) (w : World) (old : list json) :
  let u := request_url w (lit "/api/posts") in
  let p := make_post (clock w (ticks w)) (clock w (S (ticks w))) d in
  let text := JSON_stringify (JArray (p :: old)) in
  answers_html w (length (fetched w)) u ->
  answers_html w (S (length (fetched w))) u ->
  store_holds w old ->
  quota w STORAGE_KEY text = true ->
  exists w',
    create d w
    = (FromEmergency {| success := true; data := Some p; error := None;
                        EmergencyApiHandler.isEmergencyMode := Some true |}, w') /\
    localStorage w' = <[STORAGE_KEY := text]> (localStorage w) /\
    toasts w' = toasts w ++ [connection_issue; post_saved] /\
    fetched w' = fetched w ++ [u; u].
Proof.
  intros u p text H1 H2 Hstore Hquota.
  destruct (apiRequest_html_twice (lit "/api/posts") w H1 H2) as [st Hreq].
  unfold create, apiPost, bind. rewrite Hreq. fold u.
  cbv beta iota.
  change (r_success (passed_on html_down st)) with false.
  change (error_includes (r_error (passed_on html_down st)) (lit "HTML instead of JSON"))
    with (Some true).
  cbv beta iota.
  rewrite (emergencyCreatePost_saved d (after_requests u 2 [connection_issue] w) old);
    [| exact Hstore | exact Hquota].
  eexists. split; [reflexivity|]. simpl. split_and!; try done. by rewrite <- app_assoc.
Qed.

(** [postsService.create] when the request and its repetition are answered
    with HTML and the store is corrupt. *)
Lemma create_offline_refused (d : json) (w : World) :
  let u := request_url w (lit "/api/posts") in
  answers_html w (length (fetched w)) u ->
  answers_html w (S (length (fetched w))) u ->
  JSON_parse (fst (stored_text w)) = None ->
  create d w = (FromEmergency save_failed, after_requests u 2 [connection_issue] w).
Proof.
  intros u H1 H2 Hbad.
  destruct (apiRequest_html_twice (lit "/api/posts") w H1 H2) as [st Hreq].
  unfold create, apiPost, bind. rewrite Hreq. fold u.
  cbv beta iota.
  change (r_success (passed_on html_down st)) with false.
  change (error_includes (r_error (passed_on html_down st)) (lit "HTML instead of JSON"))
    with (Some true).
  cbv beta iota.
  set (w1 := after_requests u 2 [connection_issue] w).
  assert (Hbad1 : JSON_parse (fst (stored_text w1)) = None)
    by (by rewrite (stored_text_same_store w1 w)).
  unfold emergencyCreatePost, bind.
  destruct (stored_text w1) as [t w0] eqn:Ht.
  assert (w0 = w1) as -> by (by rewrite <- (stored_text_pure w1), Ht).
  simpl in Hbad1 |- *. by rewrite Hbad1.
Qed.

(** A signed-in user whose post cannot reach the backend (the request and
    its repetition are answered with HTML) gets the post saved offline: it
    is returned, put in front of the shown posts and of the emergency
    posts, and three toasts are shown for the one action. *)
Theorem createPost_offline (auth : Auth) (u : json) (content : jsstring)
    (feeling topic : option jsstring) (wantsExpertHelp : bool)
    (st : VeiloDataContext.State) (w : World) (old : list json) :
  let d := make_postData content feeling topic wantsExpertHelp u in
  let url := request_url w (lit "/api/posts") in
  let p := make_post (clock w (ticks w)) (clock w (S (ticks w))) d in
  let text := JSON_stringify (JArray (p :: old)) in
  isAuthenticated auth = true ->
  user auth = Some u ->
  truthy u = true ->
  answers_html w (length (fetched w)) url ->
  answers_html w (S (length (fetched w))) url ->
  store_holds w old ->
  quota w STORAGE_KEY text = true ->
  let '(res, st', w') := createPost render auth content feeling topic wantsExpertHelp st w in
  res = Some p /\
  posts st' = p :: posts st /\
  EmergencyModeContext.emergencyPosts (emergency st')
  = p :: EmergencyModeContext.emergencyPosts (emergency st) /\
  localStorage w' = <[STORAGE_KEY := text]> (localStorage w) /\
  toasts w' = toasts w ++ [connection_issue; post_saved; saved_offline].
Proof.
  intros d url p text Hauth Huser Hu H1 H2 Hstore Hquota.
  destruct (create_offline d w old H1 H2 Hstore Hquota) as (w1 & Hc & Hls & Hto & _).
  unfold createPost. rewrite Hauth, Huser, Hu. unfold bind. fold d. rewrite Hc.
  cbn [response_data response_success data success truthy andb]. fold p.
  replace (truthy p) with true by reflexivity. cbv iota.
  unfold p at 1. rewrite make_post_is_emergency. fold p. cbn [truthy]. cbv iota.
  unfold toast, ret. simpl. split_and!; try done.
  by rewrite Hto, <- app_assoc.
Qed.

(** When the offline save is refused as well (the store is corrupt), the
    user sees the connection toast and then "Failed to create post" with
    the text "Failed to save post offline"; nothing is returned and
    neither the shown posts nor the store change. *)
Theorem createPost_offline_refused (auth : Auth) (u : json) (content : jsstring)
    (feeling topic : option jsstring) (wantsExpertHelp : bool)
    (st : VeiloDataContext.State) (w : World) :
  let url := request_url w (lit "/api/posts") in
  isAuthenticated auth = true ->
  user auth = Some u ->
  truthy u = true ->
  answers_html w (length (fetched w)) url ->
  answers_html w (S (length (fetched w))) url ->
  JSON_parse (fst (stored_text w)) = None ->
  let '(res, st', w') := createPost render auth content feeling topic wantsExpertHelp st w in
  res = None /\ st' = st /\
  localStorage w' = localStorage w /\
  toasts w' = toasts w ++ [connection_issue;
                          failed_to_create (lit "Failed to save post offline")].
Proof.
  intros url Hauth Huser Hu H1 H2 Hbad.
  unfold createPost. rewrite Hauth, Huser, Hu. unfold bind.
  rewrite (create_offline_refused _ w H1 H2 Hbad).
  cbn [response_data response_success data save_failed].
  unfold report_failure.
  change (response_error (FromEmergency save_failed))
    with (Some (JString (lit "Failed to save post offline"))).
  change (error_includes (Some (JString (lit "Failed to save post offline")))
            (lit "HTML instead of JSON")) with (Some false).
  change (error_includes (Some (JString (lit "Failed to save post offline")))
            (lit "Backend server is unavailable")) with (Some false).
  cbv iota.
  change (shown_error render (Some (JString (lit "Failed to save post offline"))))
    with (lit "Failed to save post offline").
  unfold toast, bind, ret. simpl. split_and!; try done.
  by rewrite <- app_assoc.
Qed.

(** [createPost] returns a post exactly when it has put that post in front
    of the shown posts; the post is also put in front of the emergency
    posts exactly when its [isEmergencyMode] is truthy, and the last toast
    says which of the two happened.  When nothing is returned the state is
    as before.  Without a signed-in user no request is sent. *)
Theorem createPost_result (auth : Auth) (content : jsstring)
    (feeling topic : option jsstring) (wantsExpertHelp : bool)
    (st : VeiloDataContext.State) (w : World) :
  let '(res, st', w') := createPost render auth content feeling topic wantsExpertHelp st w in
  match res with
  | Some p =>
      let offline := match get_prop p (lit "isEmergencyMode") with
                     | Some flag => truthy flag
                     | None => false
                     end in
      truthy p = true /\
      posts st' = p :: posts st /\
      EmergencyModeContext.emergencyPosts (emergency st')
      = (if offline then [p] else []) ++ EmergencyModeContext.emergencyPosts (emergency st) /\
      exists ts, toasts w' = ts ++ [if offline then saved_offline else post_created]
  | None => st' = st
  end /\
  (isAuthenticated auth = false \/ user auth = None ->
   res = None /\ w' = with_toasts (toasts w ++ [authentication_required]) w).
Proof.
  unfold createPost.
  destruct (isAuthenticated auth), (user auth) as [u|];
    try (unfold toast, bind, ret; simpl; split; [done | by intros _]).
  destruct (truthy u);
    [|unfold toast, bind, ret; simpl; split; [done | by intros [|]]].
  unfold bind.
  destruct (create _ w) as [response w1].
  lazymatch goal with
  | |- context [match ?t ?w0 with pair _ _ => _ end] =>
      destruct (t w0) as [[res st'] w'] eqn:E
  end.
  split; [|by intros [|]].
  destruct response as [a|e|v|];
    cbn [response_data response_success] in E;
    unfold report_failure, toast, bind, ret in E;
    repeat case_match; simplify_eq; simpl in *; try done; try congruence.
  all: repeat match goal with
              | H : _ && _ = true |- _ => apply andb_prop in H as [? ?]
              end.
  all: split_and!; try done; by eexists.
Qed.

End DataContext.

Section DataContextExamples.
Import EmergencyApiHandler ApiService Design Outcomes Conditions VeiloDataContext
  Reference Examples.

Lemma createPost_offline_witness :
  let w := world_answering serving_html in
  let d := make_postData (lit "hello") (Some (lit "calm")) None false
             (JObject [(lit "id", JString (lit "u1"))]) in
  let p := make_post (P := platform) 1000 1001 d in
  let '(res, st', w') :=
    createPost (P := platform) render_blank signed_in (lit "hello") (Some (lit "calm"))
      None false empty_feed w in
  res = Some p /\
  posts st' = [p] /\
  EmergencyModeContext.emergencyPosts (emergency st') = [p] /\
  localStorage w' = <[STORAGE_KEY := json_stringify (JArray [p])]> (localStorage w) /\
  toasts w' = [connection_issue; post_saved; saved_offline].
Proof.
  intros w.
  apply (createPost_offline (P := platform) render_blank signed_in
           (JObject [(lit "id", JString (lit "u1"))]) (lit "hello") (Some (lit "calm"))
           None false empty_feed w []).
  - reflexivity.
  - reflexivity.
  - reflexivity.
  - by apply serving_html_answers.
  - by apply serving_html_answers.
  - vm_compute. reflexivity.
  - reflexivity.
Defined.

Lemma createPost_offline_refused_witness :
  let w := offline_and_corrupt in
  let '(res, st', w') :=
    createPost (P := platform) render_blank signed_in (lit "hello") None None false
      empty_feed w in
  res = None /\ st' = empty_feed /\
  localStorage w' = localStorage w /\
  toasts w' = [connection_issue; failed_to_create (lit "Failed to save post offline")].
Proof.
  intros w.
  apply (createPost_offline_refused (P := platform) render_blank signed_in
           (JObject [(lit "id", JString (lit "u1"))]) (lit "hello") None None false
           empty_feed w).
  - reflexivity.
  - reflexivity.
  - reflexivity.
  - by apply serving_html_answers.
  - by apply serving_html_answers.
  - vm_compute. reflexivity.
Defined.

Lemma createPost_result_witness :
  let w := world_answering serving_html in
  let '(res, st', w') :=
    createPost (P := platform) render_blank visitor (lit "hello") None None false
      empty_feed w in
  res = None /\ st' = empty_feed /\ fetched w' = [] /\
  toasts w' = [authentication_required].
Proof.
  intros w.
  pose proof (createPost_result (P := platform) render_blank visitor (lit "hello")
                None None false empty_feed w) as H.
  destruct (createPost render_blank visitor (lit "hello") None None false empty_feed w)
    as [[res st'] w'].
  destruct H as [Hst Hout].
  destruct Hout as [-> ->]; [by left|].
  by split_and!.
Defined.

End DataContextExamples.

(* ===================================================================== *)
(** * Further properties: the configuration *)
(* ===================================================================== *)

Section Configuration.
Import ApiConfigFile BackendHealthService HealthMonitoring Reference Examples.

Lemma startsWith_prefix (p rest : jsstring) : startsWith (p ++ rest) p = true.
Proof. induction p as [|c p IH]; simpl; [done|]. by rewrite N.eqb_refl. Qed.

Lemma replace_first_absent (s pattern replacement : jsstring) :
  includes s pattern = false -> replace_first s pattern replacement = s.
Proof.
  induction s as [|c s IH]; cbn [includes replace_first].
  - intros [Hs _]%orb_false_elim. by rewrite Hs.
  - intros [Hs Hrest]%orb_false_elim. rewrite Hs. by rewrite IH.
Qed.

(** The web-socket address is the backend address with its leading
    [http] turned into [ws] (so [https] gives [wss]) and the rest kept; a
    backend address that holds no [http] is used as it is; and
    [getWebSocketUrl] appends the path to it. *)
Theorem WS_URL_scheme (backendUrl rest path : jsstring) :
  WS_URL (lit "http" ++ rest) = lit "ws" ++ rest /\
  (includes backendUrl (lit "http") = false -> WS_URL backendUrl = backendUrl) /\
  getWebSocketUrl backendUrl path = WS_URL backendUrl ++ path.
Proof.
  split_and!.
  - unfold WS_URL.
    destruct rest as [|c rest]; [reflexivity|].
    change (lit "http" ++ c :: rest) with (104 :: 116 :: 116 :: 112 :: c :: rest)%N.
    unfold replace_first.
    change (startsWith (104 :: 116 :: 116 :: 112 :: c :: rest)%N (lit "http")) with true.
    reflexivity.
  - apply replace_first_absent.
  - unfold getWebSocketUrl. destruct path; [by rewrite app_nil_r | done].
Qed.

Lemma WS_URL_scheme_witness :
  WS_URL (lit "https://veilos-backend.onrender.com") = lit "wss://veilos-backend.onrender.com" /\
  WS_URL (lit "/backend") = lit "/backend" /\
  getWebSocketUrl (lit "http://localhost:3001") (lit "/socket")
  = lit "ws://localhost:3001/socket".
Proof.
  destruct (WS_URL_scheme (lit "/backend") (lit "s://veilos-backend.onrender.com") [])
    as (H1 & H2 & _).
  destruct (WS_URL_scheme (lit "http://localhost:3001") (lit "://localhost:3001")
              (lit "/socket")) as (H3 & _ & H4).
  split_and!.
  - exact H1.
  - apply H2. reflexivity.
  - rewrite H4. change (lit "http://localhost:3001") with (lit "http" ++ lit "://localhost:3001").
    rewrite H3. reflexivity.
Defined.

Section WithPlatform.
Context {P : Platform}.

(** After a probe, [getHealthyBackendUrl] is the base of the address the
    probe asked for whenever the probe was healthy or the build is a
    production build; only a development build whose probe was not healthy
    gets the development fallback.  The configuration is only read. *)
Theorem getHealthyBackendUrl_after_probe (IS_DEVELOPMENT : bool) (DEV_FALLBACK : jsstring)
    (svc : Service) (w : World) :
  let '(st, svc', w') := checkHealth svc w in
  let '(u, w'') := getHealthyBackendUrl IS_DEVELOPMENT DEV_FALLBACK svc' w' in
  w'' = w' /\
  (isHealthy st = true \/ IS_DEVELOPMENT = false -> probe_url w = u ++ lit "/api/health") /\
  (isHealthy st = false -> IS_DEVELOPMENT = true -> u = DEV_FALLBACK).
Proof.
  pose proof (checkHealth_full svc w) as H.
  destruct (checkHealth svc w) as [[st svc'] w'].
  destruct H as (-> & _ & _ & _ & Hcfg & _).
  unfold getHealthyBackendUrl, bind, get_config, ret, isBackendReady, probe_url.
  cbn [healthStatus]. rewrite Hcfg.
  destruct (isHealthy st), IS_DEVELOPMENT; split_and!; try done; by intros [|].
Qed.

End WithPlatform.

Lemma getHealthyBackendUrl_after_probe_witness :
  let w := world_answering serving_html in
  let '(st, svc', w') := checkHealth (P := platform) fresh_service w in
  fst (getHealthyBackendUrl true (lit "http://localhost:3001") svc' w')
  = lit "http://localhost:3001" /\
  probe_url w
  = fst (getHealthyBackendUrl false (lit "http://localhost:3001") svc' w')
    ++ lit "/api/health".
Proof.
  intros w.
  pose proof (getHealthyBackendUrl_after_probe (P := platform) true
                (lit "http://localhost:3001") fresh_service w) as H1.
  pose proof (getHealthyBackendUrl_after_probe (P := platform) false
                (lit "http://localhost:3001") fresh_service w) as H2.
  destruct (checkHealth fresh_service w) as [[st svc'] w'] eqn:E.
  assert (Hs : isHealthy st = false).
  { apply (f_equal (fun x => isHealthy (fst (fst x)))) in E. simpl in E. rewrite <- E.
    vm_compute. reflexivity. }
  destruct (getHealthyBackendUrl true _ svc' w') as [u1 w1].
  destruct (getHealthyBackendUrl false _ svc' w') as [u2 w2].
  destruct H1 as (_ & _ & H1). destruct H2 as (_ & H2 & _).
  split; [by apply H1 | apply H2; by right].
Defined.

End Configuration.
